(** * The service cache of sysdb (src/db/sysdb_services.c)

    A shallow embedding of the service-record cache: the two lookups
    [sysdb_getservbyname] and [sysdb_getservbyport], the reconciling
    write [sysdb_store_service] with its helpers [sysdb_svc_add],
    [sysdb_svc_update] and [sysdb_svc_remove_alias], and the removal
    [sysdb_svc_delete].

    The C functions thread a [struct sysdb_ctx *] through every call and
    return an [errno_t]; here they are computations of a state-and-error
    monad over [sysdb_ctx].  The ldb store, the filter sanitizer and the
    transaction primitives are collaborators that live outside this file
    of the repository; they are modelled below, each one able to fail
    with a status scripted in the context.

    The Store keeps the service entries of one domain; they are held as
    a list, in the order a search returns them.  An identifier is the
    key of an entry: the properties that depend on it ask for distinct
    identifiers, [NoDup (map dn _)].

    Memory is not modelled: [talloc_new], [ldb_msg_new], [ldb_dn_new_fmt]
    and [sysdb_new_attrs] always give their object, so the [ENOMEM]
    returns that only guard an allocation have no counterpart here.  The
    arguments are the machine values: [port] an [int], [now] a [time_t],
    [cache_timeout] a [uint64_t]; the conversions the source makes on
    them are written out. *)

From Stdlib Require Import ZArith List String Bool Lia DecimalString.
Import ListNotations.
Local Open Scope string_scope.
Local Open Scope list_scope.
Local Open Scope Z_scope.

(** ** Error numbers *)

Definition errno := Z.

Definition EOK : errno := 0.
Definition ENOENT : errno := 2.
Definition EIO : errno := 5.
Definition ENOMEM : errno := 12.
Definition EEXIST : errno := 17.
Definition EINVAL : errno := 22.

(** ** ldb messages *)

(** Modelled from the spec: the attribute-name macros of db/sysdb.h and
    db/sysdb_services.h, one for the object class and one for each
    attribute of a ServiceRecord ([primaryName], [aliases], [port],
    [protocols], [createdAt], [lastUpdate], [cacheExpire]); only their
    identity matters here. *)
Inductive attr_name :=
| SYSDB_OBJECTCLASS
| SYSDB_NAME
| SYSDB_NAME_ALIAS
| SYSDB_SVC_PORT
| SYSDB_SVC_PROTO
| SYSDB_CREATE_TIME
| SYSDB_LAST_UPDATE
| SYSDB_CACHE_EXPIRE.

Definition attr_eqb (a b : attr_name) : bool :=
  match a, b with
  | SYSDB_OBJECTCLASS, SYSDB_OBJECTCLASS
  | SYSDB_NAME, SYSDB_NAME
  | SYSDB_NAME_ALIAS, SYSDB_NAME_ALIAS
  | SYSDB_SVC_PORT, SYSDB_SVC_PORT
  | SYSDB_SVC_PROTO, SYSDB_SVC_PROTO
  | SYSDB_CREATE_TIME, SYSDB_CREATE_TIME
  | SYSDB_LAST_UPDATE, SYSDB_LAST_UPDATE
  | SYSDB_CACHE_EXPIRE, SYSDB_CACHE_EXPIRE => true
  | _, _ => false
  end.

(** Modelled from the spec: the kind of change carried by a message
    element, the {Add, ReplaceAll, Delete} of the Store interface, under
    the names of ldb.h; [SYSDB_MOD_REP] and [SYSDB_MOD_DEL] are the
    names db/sysdb.h gives to two of them. *)
Inductive mod_op :=
| LDB_FLAG_MOD_ADD
| LDB_FLAG_MOD_REPLACE
| LDB_FLAG_MOD_DELETE.

Definition SYSDB_MOD_REP : mod_op := LDB_FLAG_MOD_REPLACE.
Definition SYSDB_MOD_DEL : mod_op := LDB_FLAG_MOD_DELETE.

(** Modelled from the spec: the object class of a service entry, a
    macro of db/sysdb_services.h. *)
Definition SYSDB_SVC_CLASS : string := "service".

(** Values are the strings ldb keeps; numbers are kept in decimal. *)
Record ldb_message_element := mk_el {
  el_flags : mod_op;
  el_name : attr_name;
  el_values : list string
}.

Definition ldb_dn := string.

Record ldb_message := mk_msg {
  dn : ldb_dn;
  elements : list ldb_message_element
}.

Definition ldb_result := list ldb_message.

Definition has_name (a : attr_name) (el : ldb_message_element) : bool :=
  attr_eqb (el_name el) a.

(** [ldb_msg_find_element] of the ldb library, read as the values of
    the first element of that name. *)
Definition el_find (a : attr_name) (els : list ldb_message_element)
  : list string :=
  match find (has_name a) els with
  | Some el => el_values el
  | None => []
  end.

Definition msg_values (a : attr_name) (m : ldb_message) : list string :=
  el_find a (elements m).

(** [ldb_msg_find_attr_as_string (msg, attr, NULL)]: the first value of
    the attribute, [None] standing for the NULL default. *)
Definition ldb_msg_find_attr_as_string (m : ldb_message) (a : attr_name)
  : option string :=
  hd_error (msg_values a m).

Definition ldb_msg_new (d : ldb_dn) : ldb_message := mk_msg d [].

(** [ldb_msg_add_empty] of the ldb library appends a new element
    without values. *)
Definition ldb_msg_add_empty (a : attr_name) (flags : mod_op)
  (m : ldb_message) : ldb_message :=
  mk_msg (dn m) (elements m ++ [mk_el flags a []]).

Fixpoint el_add_value (a : attr_name) (v : string)
  (els : list ldb_message_element) : list ldb_message_element :=
  match els with
  | [] => [mk_el LDB_FLAG_MOD_ADD a [v]]
  | el :: rest =>
      if has_name a el
      then mk_el (el_flags el) (el_name el) (el_values el ++ [v]) :: rest
      else el :: el_add_value a v rest
  end.

(** [ldb_msg_add_string] and [ldb_msg_add_fmt (msg, attr, "%s", v)]: the
    value joins the element of that name, which is created when absent. *)
Definition ldb_msg_add_string (a : attr_name) (v : string)
  (m : ldb_message) : ldb_message :=
  mk_msg (dn m) (el_add_value a v (elements m)).

(** The loops [for (i = 0; vals[i]; i++) ldb_msg_add_string (...)]. *)
Definition ldb_msg_add_strings (a : attr_name) (vs : list string)
  (m : ldb_message) : ldb_message :=
  fold_left (fun acc v => ldb_msg_add_string a v acc) vs m.

(** ** Machine integers and their decimal form *)

Definition to_uint (v : Z) : Z := v mod 2 ^ 32.
Definition to_ulong (v : Z) : Z := v mod 2 ^ 64.

(** A 64-bit pattern read back as the signed [time_t]. *)
Definition to_time_t (v : Z) : Z :=
  let u := v mod 2 ^ 64 in
  if u <? 2 ^ 63 then u else u - 2 ^ 64.

Definition fmt_decimal (v : Z) : string :=
  NilZero.string_of_int (Z.to_int v).

(** Modelled from the spec: [add_string] and [add_ulong] of
    db/sysdb_ops.c, each adding to the message one element, of the given
    kind, that holds one value; the number is printed with "%lu". *)
Definition add_string (flags : mod_op) (a : attr_name) (v : string)
  (m : ldb_message) : ldb_message :=
  ldb_msg_add_string a v (ldb_msg_add_empty a flags m).

Definition add_ulong (flags : mod_op) (a : attr_name) (v : Z)
  (m : ldb_message) : ldb_message :=
  ldb_msg_add_string a (fmt_decimal (to_ulong v)) (ldb_msg_add_empty a flags m).

(** ** The context *)

(** The collaborators whose calls can fail. *)
Inductive call :=
| SSS_FILTER_SANITIZE
| SYSDB_DN_SANITIZE
| LDB_SEARCH
| LDB_ADD
| LDB_MODIFY
| LDB_DELETE
| TRANSACTION_START
| TRANSACTION_COMMIT
| TRANSACTION_CANCEL.

(** [ldb] holds the service entries as the open transaction sees them;
    [txn] holds, innermost first, the contents saved when each open
    transaction began; [faults] scripts the status of the coming
    collaborator calls, in call order, and everything succeeds once it is
    used up; [trace] logs the calls made with the status they returned,
    the latest first; [clock] is what [time (NULL)] reads. *)
Record sysdb_ctx := mk_ctx {
  domain : string;
  ldb : list ldb_message;
  txn : list (list ldb_message);
  faults : list errno;
  trace : list (call * errno);
  clock : Z
}.

Definition set_ldb (db : list ldb_message) (w : sysdb_ctx) : sysdb_ctx :=
  mk_ctx (domain w) db (txn w) (faults w) (trace w) (clock w).

Definition set_txn (t : list (list ldb_message)) (w : sysdb_ctx)
  : sysdb_ctx :=
  mk_ctx (domain w) (ldb w) t (faults w) (trace w) (clock w).

Definition set_faults (f : list errno) (w : sysdb_ctx) : sysdb_ctx :=
  mk_ctx (domain w) (ldb w) (txn w) f (trace w) (clock w).

Definition log_call (c : call) (e : errno) (w : sysdb_ctx) : sysdb_ctx :=
  mk_ctx (domain w) (ldb w) (txn w) (faults w) ((c, e) :: trace w) (clock w).

(** ** The monad of the C functions *)

(** [Ok a] is a return of [EOK] with the out-parameter [a]; [Fail e] is
    a return of the error [e]. *)
Inductive result (A : Type) :=
| Ok (a : A)
| Fail (e : errno).

Arguments Ok {A} a.
Arguments Fail {A} e.

Definition M (A : Type) : Type := sysdb_ctx -> sysdb_ctx * result A.

Definition ret {A} (a : A) : M A := fun w => (w, Ok a).

Definition fail {A} (e : errno) : M A := fun w => (w, Fail e).

Definition bind {A B} (m : M A) (k : A -> M B) : M B :=
  fun w =>
    match m w with
    | (w', Ok a) => k a w'
    | (w', Fail e) => (w', Fail e)
    end.

Declare Scope sysdb_scope.
Delimit Scope sysdb_scope with sysdb.

Notation "x <- m ;; k" := (bind m (fun x => k))
  (at level 100, m at next level, right associativity) : sysdb_scope.
Notation "m ;; k" := (bind m (fun _ => k))
  (at level 100, right associativity) : sysdb_scope.

Local Open Scope sysdb_scope.

Definition status {A} (r : result A) : errno :=
  match r with
  | Ok _ => EOK
  | Fail e => e
  end.

(** The next scripted status: a non-zero one makes the call fail. *)
Definition oracle : M unit :=
  fun w =>
    match faults w with
    | [] => (w, Ok tt)
    | e :: rest =>
        (set_faults rest w, if e =? EOK then Ok tt else Fail e)
    end.

(** A collaborator call: it fails as scripted or runs [op], and the
    status it returns is logged. *)
Definition collaborator {A} (c : call) (op : M A) : M A :=
  fun w =>
    match (oracle ;; op) w with
    | (w', r) => (log_call c (status r) w', r)
    end.

(** ** The Store *)

Definition dn_eqb (d : ldb_dn) (m : ldb_message) : bool :=
  String.eqb (dn m) d.

Definition is_nil {A} (l : list A) : bool :=
  match l with
  | [] => true
  | _ => false
  end.

Definition mem (v : string) (vs : list string) : bool :=
  existsb (String.eqb v) vs.

(** Modelled from the spec: the protocol part of the two search filters
    of db/sysdb_services.h, "whose protocols contains protocol if given,
    else any protocol".  The source passes the wildcard "*" when no
    protocol is given, which asks for an entry that has a protocol. *)
Definition proto_filter (proto : option string) (m : ldb_message) : bool :=
  match proto with
  | Some p => mem p (msg_values SYSDB_SVC_PROTO m)
  | None => negb (is_nil (msg_values SYSDB_SVC_PROTO m))
  end.

(** Modelled from the spec: the filter macro of db/sysdb_services.h,
    "matches records whose primaryName OR any alias equals name, AND
    whose protocols contains protocol". *)
Definition SYSDB_SVC_BYNAME_FILTER (proto : option string) (alias name : string)
  (m : ldb_message) : bool :=
  proto_filter proto m
  && (mem alias (msg_values SYSDB_NAME_ALIAS m)
      || mem name (msg_values SYSDB_NAME m)).

(** Modelled from the spec: the filter macro of db/sysdb_services.h,
    "matches records whose port equals the given value AND protocol
    constraint as above"; the port is printed with "%u". *)
Definition SYSDB_SVC_BYPORT_FILTER (proto : option string) (port : Z)
  (m : ldb_message) : bool :=
  proto_filter proto m
  && mem (fmt_decimal port) (msg_values SYSDB_SVC_PORT m).

(** Modelled from the spec: the Sanitizer, "escapes untrusted strings
    for safe inclusion in search filters" and can fail.  An escaped
    string matches the text it was made from, so the text itself is
    handed to the filter. *)
Definition sss_filter_sanitize (s : string) : M string :=
  collaborator SSS_FILTER_SANITIZE (ret s).

(** Modelled from the spec: the Store's search-by-filter below the
    services container of the domain; all the matches, in the order the
    Store keeps them. *)
Definition ldb_search (f : ldb_message -> bool) : M ldb_result :=
  collaborator LDB_SEARCH (fun w => (w, Ok (filter f (ldb w)))).

(** Modelled from the spec: the Store's add-entry.  An identifier that
    is taken is refused (a constraint of the Store), and so is an
    element without values: every stored record has its attributes
    non-empty. *)
Definition ldb_add (msg : ldb_message) : M unit :=
  collaborator LDB_ADD
    (fun w =>
       if existsb (dn_eqb (dn msg)) (ldb w) then (w, Fail EEXIST)
       else if existsb (fun el => is_nil (el_values el)) (elements msg)
            then (w, Fail EIO)
            else (set_ldb (ldb w ++ [msg]) w, Ok tt)).

Definition el_remove (a : attr_name) (els : list ldb_message_element)
  : list ldb_message_element :=
  filter (fun el => negb (has_name a el)) els.

Definition el_set (flags : mod_op) (a : attr_name) (vs : list string)
  (els : list ldb_message_element) : list ldb_message_element :=
  match vs with
  | [] => el_remove a els
  | _ => el_remove a els ++ [mk_el flags a vs]
  end.

(** Modelled from the spec: one attribute change of the Store's
    modify-entry, by its kind {Add, ReplaceAll, Delete}.  Replacing sets
    the values (no value: the attribute goes); deleting takes the listed
    values out and fails when one is not there; adding joins new values
    and fails on one that is there. *)
Definition apply_mod (md : ldb_message_element)
  (els : list ldb_message_element) : option (list ldb_message_element) :=
  let a := el_name md in
  let old := el_find a els in
  let vs := el_values md in
  match el_flags md with
  | LDB_FLAG_MOD_REPLACE => Some (el_set LDB_FLAG_MOD_REPLACE a vs els)
  | LDB_FLAG_MOD_DELETE =>
      match vs with
      | [] => if is_nil old then None else Some (el_remove a els)
      | _ =>
          if forallb (fun v => mem v old) vs
          then Some (el_set LDB_FLAG_MOD_DELETE a
                       (filter (fun o => negb (mem o vs)) old) els)
          else None
      end
  | LDB_FLAG_MOD_ADD =>
      match vs with
      | [] => None
      | _ =>
          if existsb (fun v => mem v old) vs then None
          else Some (el_set LDB_FLAG_MOD_ADD a (old ++ vs) els)
      end
  end.

Fixpoint apply_mods (mods els : list ldb_message_element)
  : option (list ldb_message_element) :=
  match mods with
  | [] => Some els
  | md :: rest =>
      match apply_mod md els with
      | Some els' => apply_mods rest els'
      | None => None
      end
  end.

Fixpoint modify_entries (d : ldb_dn) (mods : list ldb_message_element)
  (db : list ldb_message) : option (list ldb_message) :=
  match db with
  | [] => Some []
  | m :: rest =>
      match (if dn_eqb d m
             then option_map (mk_msg (dn m)) (apply_mods mods (elements m))
             else Some m),
            modify_entries d mods rest with
      | Some m', Some rest' => Some (m' :: rest')
      | _, _ => None
      end
  end.

(** Modelled from the spec: the Store's modify-entry; the entry must
    exist, and all the changes apply or none does.  The identifier is
    the key of an entry, so the changes reach whatever [ldb] holds under
    it. *)
Definition ldb_modify (msg : ldb_message) : M unit :=
  collaborator LDB_MODIFY
    (fun w =>
       if existsb (dn_eqb (dn msg)) (ldb w)
       then match modify_entries (dn msg) (elements msg) (ldb w) with
            | Some db' => (set_ldb db' w, Ok tt)
            | None => (w, Fail EIO)
            end
       else (w, Fail ENOENT)).

(** Modelled from the spec: the Store's delete-entry, which takes away
    whatever [ldb] holds under the identifier; an identifier with no
    entry is reported as not found. *)
Definition ldb_delete (d : ldb_dn) : M unit :=
  collaborator LDB_DELETE
    (fun w =>
       if existsb (dn_eqb d) (ldb w)
       then (set_ldb (filter (fun m => negb (dn_eqb d m)) (ldb w)) w, Ok tt)
       else (w, Fail ENOENT)).

(** Modelled from the spec: [sysdb_delete_entry] of db/sysdb_ops.c, the
    "delete(identifier, cascade: bool)" of the Store interface.  The
    service entries are leaves of the services container, so there is
    nothing below an entry for the flag to take along. *)
Definition sysdb_delete_entry (d : ldb_dn) (cascade : bool) : M unit :=
  ldb_delete d.

(** Modelled from the spec: [sysdb_transaction_start] of db/sysdb.c.
    The contents are saved for a later cancel; transactions nest. *)
Definition sysdb_transaction_start : M unit :=
  collaborator TRANSACTION_START
    (fun w => (set_txn (ldb w :: txn w) w, Ok tt)).

(** Modelled from the spec: [sysdb_transaction_commit] of db/sysdb.c.
    The innermost transaction ends and its writes stay; a commit that
    fails leaves the transaction open. *)
Definition sysdb_transaction_commit : M unit :=
  collaborator TRANSACTION_COMMIT
    (fun w =>
       match txn w with
       | [] => (w, Fail EIO)
       | _ :: open => (set_txn open w, Ok tt)
       end).

(** Modelled from the spec: [sysdb_transaction_cancel] of db/sysdb.c.
    The innermost transaction ends and the contents saved at its start
    come back; a cancel that fails changes nothing. *)
Definition sysdb_transaction_cancel : M unit :=
  collaborator TRANSACTION_CANCEL
    (fun w =>
       match txn w with
       | [] => (w, Fail EIO)
       | saved :: open => (set_txn open (set_ldb saved w), Ok tt)
       end).

(** Modelled from the spec: the template macro of db/sysdb.h behind "an
    identifier derived deterministically from primaryName and the owning
    domain". *)
Definition SYSDB_TMPL_SVC (clean_name dom : string) : ldb_dn :=
  String.append "name="
    (String.append clean_name
       (String.append ",cn=services,cn=" (String.append dom ",cn=sysdb"))).

(** Modelled from the spec: [sysdb_dn_sanitize] of the utilities, the
    escaping of a name for use in an identifier; it can fail. *)
Definition sysdb_dn_sanitize (s : string) : M string :=
  collaborator SYSDB_DN_SANITIZE (ret s).

(** Modelled from the spec: [sysdb_attrs_add_time_t] of db/sysdb.c; the
    time joins the named attribute, printed with "%ld". *)
Definition sysdb_attrs_add_time_t (a : attr_name) (value : Z)
  (attrs : list ldb_message_element) : list ldb_message_element :=
  el_add_value a (fmt_decimal value) attrs.

(** Modelled from the spec: [sysdb_set_entry_attr] of db/sysdb_ops.c,
    the Store's "modify(identifier, attributeChanges)" with one kind of
    change for all the attributes; no attribute is an invalid call. *)
Definition sysdb_set_entry_attr (entry_dn : ldb_dn)
  (attrs : list ldb_message_element) (op : mod_op) : M unit :=
  match attrs with
  | [] => fail EINVAL
  | _ =>
      ldb_modify
        (mk_msg entry_dn
           (map (fun el => mk_el op (el_name el) (el_values el)) attrs))
  end.

(** ** Lookup *)

(** The sanitizing of [proto], done only when one is given; [None] is
    the wildcard the filter then receives. *)
Definition sanitize_proto (proto : option string) : M (option string) :=
  match proto with
  | Some p => (s <- sss_filter_sanitize p ;; ret (Some s))
  | None => ret None
  end.

(** A search that found nothing is [ENOENT]. *)
Definition found (res : ldb_result) : M ldb_result :=
  match res with
  | [] => fail ENOENT
  | _ => ret res
  end.

Definition sysdb_getservbyname (name : string) (proto : option string)
  : M ldb_result :=
  sanitized_name <- sss_filter_sanitize name ;;
  sanitized_proto <- sanitize_proto proto ;;
  res <- ldb_search
           (SYSDB_SVC_BYNAME_FILTER sanitized_proto
              sanitized_name sanitized_name) ;;
  found res.

Definition sysdb_getservbyport (port : Z) (proto : option string)
  : M ldb_result :=
  if port <=? 0 then fail EINVAL
  else
    sanitized_proto <- sanitize_proto proto ;;
    res <- ldb_search
             (SYSDB_SVC_BYPORT_FILTER sanitized_proto (to_uint port)) ;;
    found res.

(** ** Adding, updating and trimming an entry *)

(** [sysdb_svc_dn] gives no identifier when the name cannot be escaped. *)
Definition sysdb_svc_dn (dom name : string)
  : sysdb_ctx -> sysdb_ctx * option ldb_dn :=
  fun w =>
    match sysdb_dn_sanitize name w with
    | (w', Ok clean_name) => (w', Some (SYSDB_TMPL_SVC clean_name dom))
    | (w', Fail _) => (w', None)
    end.

(** The message [sysdb_svc_add] hands to [ldb_add]. *)
Definition svc_add_msg (d : ldb_dn) (primary_name : string) (port : Z)
  (aliases protocols : list string) (created : Z) : ldb_message :=
  let msg := ldb_msg_new d in
  let msg := add_string LDB_FLAG_MOD_ADD SYSDB_OBJECTCLASS SYSDB_SVC_CLASS msg in
  let msg := add_string LDB_FLAG_MOD_ADD SYSDB_NAME primary_name msg in
  let msg := add_ulong LDB_FLAG_MOD_ADD SYSDB_SVC_PORT port msg in
  let msg :=
    match aliases with
    | [] => msg
    | _ =>
        ldb_msg_add_strings SYSDB_NAME_ALIAS aliases
          (ldb_msg_add_empty SYSDB_NAME_ALIAS LDB_FLAG_MOD_ADD msg)
    end in
  let msg :=
    ldb_msg_add_strings SYSDB_SVC_PROTO protocols
      (ldb_msg_add_empty SYSDB_SVC_PROTO LDB_FLAG_MOD_ADD msg) in
  add_ulong LDB_FLAG_MOD_ADD SYSDB_CREATE_TIME created msg.

Definition sysdb_svc_add (primary_name : string) (port : Z)
  (aliases protocols : list string) : M ldb_dn :=
  fun w =>
    match sysdb_svc_dn (domain w) primary_name w with
    | (w1, None) => (w1, Fail ENOMEM)
    | (w1, Some d) =>
        (ldb_add (svc_add_msg d primary_name port aliases protocols
                    (clock w1)) ;;
         ret d) w1
    end.

(** The message [sysdb_svc_update] hands to [ldb_modify]. *)
Definition svc_update_msg (d : ldb_dn) (port : Z)
  (aliases protocols : list string) : ldb_message :=
  let msg := ldb_msg_new d in
  let msg := add_ulong SYSDB_MOD_REP SYSDB_SVC_PORT port msg in
  let msg :=
    match aliases with
    | [] => msg
    | _ =>
        ldb_msg_add_strings SYSDB_NAME_ALIAS aliases
          (ldb_msg_add_empty SYSDB_NAME_ALIAS SYSDB_MOD_REP msg)
    end in
  ldb_msg_add_strings SYSDB_SVC_PROTO protocols
    (ldb_msg_add_empty SYSDB_SVC_PROTO SYSDB_MOD_REP msg).

Definition sysdb_svc_update (d : ldb_dn) (port : Z)
  (aliases protocols : list string) : M unit :=
  match protocols with
  | [] => fail EINVAL
  | _ => ldb_modify (svc_update_msg d port aliases protocols)
  end.

Definition sysdb_svc_remove_alias (d : ldb_dn) (alias : string) : M unit :=
  ldb_modify
    (add_string SYSDB_MOD_DEL SYSDB_NAME_ALIAS alias (ldb_msg_new d)).

(** ** The reconciling write *)

(** [ret] of a lookup as the callers read it: [ENOENT] is no entry, any
    other error is passed on. *)
Definition or_enoent (lookup : M ldb_result) : M (option ldb_result) :=
  fun w =>
    match lookup w with
    | (w', Ok res) => (w', Ok (Some res))
    | (w', Fail e) =>
        if e =? ENOENT then (w', Ok None) else (w', Fail e)
    end.

(** A failure that is logged and not acted upon. *)
Definition logged_only (m : M unit) : M unit :=
  fun w =>
    match m w with
    | (w', _) => (w', Ok tt)
    end.

(** The loops that delete every entry of a result. *)
Fixpoint delete_entries (flag : bool) (msgs : ldb_result) : M unit :=
  match msgs with
  | [] => ret tt
  | m :: rest =>
      sysdb_delete_entry (dn m) flag ;;
      delete_entries flag rest
  end.

(** Lines 214-273: the port must become unique. *)
Definition store_port_pass (primary_name : string) (port : Z) : M unit :=
  found_res <- or_enoent (sysdb_getservbyport port None) ;;
  match found_res with
  | None => ret tt
  | Some [m] =>
      match ldb_msg_find_attr_as_string m SYSDB_NAME with
      | Some name =>
          if String.eqb name primary_name then ret tt
          else logged_only (sysdb_delete_entry (dn m) true)
      | None => logged_only (sysdb_delete_entry (dn m) true)
      end
  | Some res => delete_entries true res
  end.

(** Lines 284-355: the loop over the entries found by name, carrying
    [update_dn]. *)
Fixpoint store_name_loop (primary_name : string) (msgs : ldb_result)
  (update_dn : option ldb_dn) : M (option ldb_dn) :=
  match msgs with
  | [] => ret update_dn
  | m :: rest =>
      match ldb_msg_find_attr_as_string m SYSDB_NAME with
      | None =>
          sysdb_delete_entry (dn m) true ;;
          store_name_loop primary_name rest update_dn
      | Some name =>
          if String.eqb name primary_name then
            match update_dn with
            | Some previous =>
                sysdb_delete_entry previous true ;;
                sysdb_delete_entry (dn m) true ;;
                store_name_loop primary_name rest None
            | None => store_name_loop primary_name rest (Some (dn m))
            end
          else
            sysdb_svc_remove_alias (dn m) primary_name ;;
            store_name_loop primary_name rest update_dn
      end
  end.

(** Lines 280-357: the entries of that name, or claiming it as alias. *)
Definition store_name_pass (primary_name : string) : M (option ldb_dn) :=
  found_res <- or_enoent (sysdb_getservbyname primary_name None) ;;
  match found_res with
  | None => ret None
  | Some res => store_name_loop primary_name res None
  end.

(** Lines 359-367: update the entry found or add a new one. *)
Definition store_apply (primary_name : string) (port : Z)
  (aliases protocols : list string) (update_dn : option ldb_dn)
  : M ldb_dn :=
  match update_dn with
  | Some d => (sysdb_svc_update d port aliases protocols ;; ret d)
  | None => sysdb_svc_add primary_name port aliases protocols
  end.

(** The expiry written: [cache_timeout ? (now + cache_timeout) : 0], an
    unsigned 64-bit sum handed over as a [time_t]. *)
Definition cache_expire (cache_timeout now : Z) : Z :=
  to_time_t (if cache_timeout =? 0 then 0 else to_ulong (now + cache_timeout)).

(** Lines 369-384: the two times of the entry. *)
Definition store_timestamps (update_dn : ldb_dn) (cache_timeout now : Z)
  : M unit :=
  let attrs := [] in
  let attrs := sysdb_attrs_add_time_t SYSDB_LAST_UPDATE now attrs in
  let attrs :=
    sysdb_attrs_add_time_t SYSDB_CACHE_EXPIRE
      (cache_expire cache_timeout now) attrs in
  sysdb_set_entry_attr update_dn attrs SYSDB_MOD_REP.

(** The two passes, giving the entry to update if there is one. *)
Definition store_passes (primary_name : string) (port : Z)
  : M (option ldb_dn) :=
  store_port_pass primary_name port ;;
  store_name_pass primary_name.

(** Lines 207-384, between the start of the transaction and its commit. *)
Definition store_steps (primary_name : string) (port : Z)
  (aliases protocols : list string) (cache_timeout now : Z) : M unit :=
  update_dn <- store_passes primary_name port ;;
  update_dn <- store_apply primary_name port aliases protocols update_dn ;;
  store_timestamps update_dn cache_timeout now.

(** The label [done]: a transaction still open is cancelled, a failed
    cancel is logged, and [ret] is returned. *)
Definition done (in_transaction : bool) (r : result unit) : M unit :=
  fun w =>
    if in_transaction
    then match sysdb_transaction_cancel w with
         | (w', _) => (w', r)
         end
    else (w, r).

Definition sysdb_store_service (primary_name : string) (port : Z)
  (aliases protocols : list string) (cache_timeout now : Z) : M unit :=
  fun w =>
    match sysdb_transaction_start w with
    | (w1, Fail e) => done false (Fail e) w1
    | (w1, Ok _) =>
        match store_steps primary_name port aliases protocols
                cache_timeout now w1 with
        | (w2, Fail e) => done true (Fail e) w2
        | (w2, Ok _) =>
            match sysdb_transaction_commit w2 with
            | (w3, Ok _) => done false (Ok tt) w3
            | (w3, Fail e) => done true (Fail e) w3
            end
        end
    end.

(** ** Removal *)

(** Lines 648-664: the entries to remove, by name when one is given and
    by port otherwise. *)
Definition svc_delete_lookup (name : option string) (port : Z)
  (proto : option string) : M ldb_result :=
  match name with
  | Some n => sysdb_getservbyname n proto
  | None => sysdb_getservbyport port proto
  end.

(** [in_transaction] is declared without a value; [indeterminate] is
    what the variable holds until line 646 assigns it. *)
Definition sysdb_svc_delete (indeterminate : bool) (name : option string)
  (port : Z) (proto : option string) : M unit :=
  fun w =>
    match sysdb_transaction_start w with
    | (w1, Fail e) => done indeterminate (Fail e) w1
    | (w1, Ok _) =>
        match or_enoent (svc_delete_lookup name port proto) w1 with
        | (w2, Fail e) => done true (Fail e) w2
        | (w2, Ok None) => done true (Ok tt) w2
        | (w2, Ok (Some res)) =>
            match delete_entries false res w2 with
            | (w3, Fail e) => done true (Fail e) w3
            | (w3, Ok _) =>
                match sysdb_transaction_commit w3 with
                | (w4, r) => done false r w4
                end
            end
        end
    end.

(** ** A first run *)

Definition empty_ctx : sysdb_ctx := mk_ctx "example.com" [] [] [] [] 1000.

Definition ldap_stored : sysdb_ctx * result unit :=
  sysdb_store_service "ldap" 389 [] ["tcp"] 3600 5000 empty_ctx.

(** * The vocabulary of the properties *)

(** [frame w w']: a run from [w] to [w'] kept the open transactions, the
    domain and the clock, and scripted no failure that was not there. *)
Definition frame (w w' : sysdb_ctx) : Prop :=
  txn w' = txn w /\ domain w' = domain w /\ clock w' = clock w
  /\ (faults w = [] -> faults w' = []).

(** A computation that keeps the frame on every run. *)
Definition framed {A} (m : M A) : Prop :=
  forall w w' r, m w = (w', r) -> frame w w'.

(** A computation that moreover keeps the entries. *)
Definition read_only {A} (m : M A) : Prop :=
  forall w w' r, m w = (w', r) -> frame w w' /\ ldb w' = ldb w.

(** The context after the sanitizing of an optional protocol. *)
Definition after_proto (proto : option string) (w : sysdb_ctx) : sysdb_ctx :=
  match proto with
  | Some _ => log_call SSS_FILTER_SANITIZE EOK w
  | None => w
  end.

(** The names of the entries of a result, for display. *)
Definition names_of (res : ldb_result) : list (option string) :=
  map (fun m => ldb_msg_find_attr_as_string m SYSDB_NAME) res.

(** The names a lookup returned, if it returned entries. *)
Definition names_found (r : result ldb_result) : option (list (option string)) :=
  match r with
  | Ok res => Some (names_of res)
  | Fail _ => None
  end.

(** The entries none of whose identifiers is in [res]. *)
Definition not_among (res : ldb_result) (m : ldb_message) : bool :=
  negb (existsb (fun r => String.eqb (dn m) (dn r)) res).

(** The filter that selects what [sysdb_svc_delete] removes. *)
Definition svc_selector (name : option string) (port : Z)
  (proto : option string) : ldb_message -> bool :=
  match name with
  | Some n => SYSDB_SVC_BYNAME_FILTER proto n n
  | None => SYSDB_SVC_BYPORT_FILTER proto (to_uint port)
  end.

(** An entry changed attribute by attribute: [f a] maps the old values
    of [a] to the new ones. *)
Definition rewritten (f : attr_name -> list string -> list string)
  (els els' : list ldb_message_element) : Prop :=
  forall a, el_find a els' = f a (el_find a els).

(** The entries before and after a modify of the identifier [d]: each
    entry of [d] is rewritten by [f], every other entry is kept, and
    there is no other entry afterwards. *)
Definition entries_step (d : ldb_dn)
  (f : attr_name -> list string -> list string)
  (db db' : list ldb_message) : Prop :=
  (forall m, In m db ->
     exists m', In m' db' /\ dn m' = dn m
                /\ if dn_eqb d m
                   then rewritten f (elements m) (elements m')
                   else m' = m)
  /\ (forall m', In m' db' ->
        exists m, In m db /\ dn m' = dn m
                  /\ if dn_eqb d m
                     then rewritten f (elements m) (elements m')
                     else m' = m).

(** No element of [els] is named [a]. *)
Definition lacks (a : attr_name) (els : list ldb_message_element) : bool :=
  forallb (fun el => negb (has_name a el)) els.

(** The change of aliases a write asks for: none when it has no alias. *)
Definition alias_element (flags : mod_op) (aliases : list string)
  : list ldb_message_element :=
  match aliases with
  | [] => []
  | _ => [mk_el flags SYSDB_NAME_ALIAS aliases]
  end.

(** The values of an entry after [sysdb_svc_update]. *)
Definition updated_values (port : Z) (aliases protocols : list string)
  (a : attr_name) (old : list string) : list string :=
  match a with
  | SYSDB_SVC_PORT => [fmt_decimal (to_ulong port)]
  | SYSDB_SVC_PROTO => protocols
  | SYSDB_NAME_ALIAS =>
      match aliases with
      | [] => old
      | _ => aliases
      end
  | _ => old
  end.

(** The values of an entry after [store_timestamps]. *)
Definition stamped_values (cache_timeout now : Z) (a : attr_name)
  (old : list string) : list string :=
  match a with
  | SYSDB_LAST_UPDATE => [fmt_decimal now]
  | SYSDB_CACHE_EXPIRE => [fmt_decimal (cache_expire cache_timeout now)]
  | _ => old
  end.

(** The values of an entry after [sysdb_svc_remove_alias]. *)
Definition without_alias (alias : string) (a : attr_name)
  (old : list string) : list string :=
  match a with
  | SYSDB_NAME_ALIAS => filter (fun o => negb (mem o [alias])) old
  | _ => old
  end.

(** The primary name of an entry, as lines 242 and 288 read it. *)
Definition find_name (m : ldb_message) : option string :=
  ldb_msg_find_attr_as_string m SYSDB_NAME.

(** The identifier [d] is followed through the name pass: either it
    still has an entry named [pn], or it has no entry at all. *)
Definition tracked (pn : string) (d : ldb_dn) (db : list ldb_message)
  : Prop :=
  (exists m, In m db /\ dn m = d /\ find_name m = Some pn)
  \/ (forall m, In m db -> dn m <> d).

(** A run under which every identifier stays followed. *)
Definition keeps_tracked (pn : string) (w w' : sysdb_ctx) : Prop :=
  forall d, tracked pn d (ldb w) -> tracked pn d (ldb w').

(** The entry of identifier [d] that carries the record written. *)
Definition applied_entry (pn : string) (port : Z) (pr : list string)
  (d : ldb_dn) (m : ldb_message) : Prop :=
  dn m = d /\ find_name m = Some pn
  /\ msg_values SYSDB_SVC_PORT m = [fmt_decimal (to_ulong port)]
  /\ msg_values SYSDB_SVC_PROTO m = pr.

(** An entry seen by the lookups that is not named [pn] and claims [pn]
    as an alias. *)
Definition offending (pn : string) (m : ldb_message) : Prop :=
  msg_values SYSDB_SVC_PROTO m <> []
  /\ find_name m <> Some pn
  /\ In pn (msg_values SYSDB_NAME_ALIAS m).

(** Every entry of the identifier [d] is named [pn]. *)
Definition named_only (pn : string) (d : ldb_dn) (db : list ldb_message)
  : Prop :=
  forall m, In m db -> dn m = d -> find_name m = Some pn.

(** A run that only takes entries away. *)
Definition shrinks (w w' : sysdb_ctx) : Prop :=
  exists g, ldb w' = filter g (ldb w).

(** The entry [a] is still there under its identifier and its name, and
    seen by the lookups. *)
Definition present (a : ldb_message) (db : list ldb_message) : Prop :=
  exists a', In a' db /\ dn a' = dn a /\ find_name a' = find_name a
             /\ msg_values SYSDB_SVC_PROTO a' <> [].

(** The entry [m] with the two times written by [store_timestamps]. *)
Definition stamped (cache_timeout now : Z) (m : ldb_message) : ldb_message :=
  mk_msg (dn m)
    (el_set LDB_FLAG_MOD_REPLACE SYSDB_CACHE_EXPIRE
       [fmt_decimal (cache_expire cache_timeout now)]
       (el_set LDB_FLAG_MOD_REPLACE SYSDB_LAST_UPDATE [fmt_decimal now]
          (elements m))).

(** The entry [m] claims the port [port]. *)
Definition claims_port (port : Z) (m : ldb_message) : Prop :=
  In (fmt_decimal port) (msg_values SYSDB_SVC_PORT m).

(** No port value is carried by entries of two identifiers. *)
Definition port_unique (db : list ldb_message) : Prop :=
  forall m1 m2 q,
    In m1 db -> In m2 db ->
    In q (msg_values SYSDB_SVC_PORT m1) ->
    In q (msg_values SYSDB_SVC_PORT m2) ->
    dn m1 = dn m2.

(** A cache in order: one entry per identifier, every entry seen by the
    lookups, and the ports unique. *)
Definition cache_invariant (db : list ldb_message) : Prop :=
  NoDup (map dn db)
  /\ (forall m, In m db -> msg_values SYSDB_SVC_PROTO m <> [])
  /\ port_unique db.




(** * The runs the properties are shown on *)

(** svc-a is stored on port 100; then svc-b is stored on port 100 while
    the Store refuses the third collaborator call, the delete of the
    entry that owns the port. *)
Definition svc_a_stored : sysdb_ctx :=
  fst (sysdb_store_service "svc-a" 100 [] ["tcp"] 3600 5000 empty_ctx).

Definition owner_delete_fails : sysdb_ctx :=
  set_faults [EOK; EOK; EIO] svc_a_stored.

Definition svc_b_stored : sysdb_ctx * result unit :=
  sysdb_store_service "svc-b" 100 [] ["tcp"] 3600 6000 owner_delete_fails.

(** ldaps is stored on port 636; then the port is given to ldap-ssl
    while the delete of the old owner fails. *)
Definition ldaps_stored : sysdb_ctx :=
  fst (sysdb_store_service "ldaps" 636 [] ["tcp"] 0 7000 empty_ctx).

Definition ldap_ssl_stored : sysdb_ctx * result unit :=
  sysdb_store_service "ldap-ssl" 636 ["ldaps-alt"] ["tcp"; "udp"] 60 8000
    (set_faults [EOK; EOK; EIO] ldaps_stored).

(** The caller has a transaction open, in which svc-a was added, and
    the start of the transaction of [sysdb_svc_delete] fails. *)
Definition start_fails : sysdb_ctx :=
  mk_ctx "example.com" (ldb svc_a_stored) [[]] [EIO] [] 1000.

(** svc-a is stored with the alias foo. *)
Definition with_alias : sysdb_ctx :=
  fst (sysdb_store_service "svc-a" 100 ["foo"] ["tcp"] 3600 5000 empty_ctx).

(** svc-a is stored again, without alias. *)
Definition alias_dropped : sysdb_ctx * result unit :=
  sysdb_store_service "svc-a" 100 [] ["tcp"] 3600 6000 with_alias.

(** svc-b is stored on the port of svc-a and the search by name fails:
    the delete of svc-a already done is rolled back. *)
Definition search_fails : sysdb_ctx :=
  set_faults [EOK; EOK; EOK; EOK; EIO] svc_a_stored.

(** The entry of svc-a in [with_alias]. *)
Definition svc_a_entry : ldb_message :=
  hd (ldb_msg_new "") (ldb with_alias).

(** svc-a is stored again with another port, alias and protocol. *)
Definition svc_a_updated : sysdb_ctx * result unit :=
  sysdb_store_service "svc-a" 101 ["bar"] ["udp"] 3600 6000 with_alias.

(** Two entries seeded under different identifiers, both named svc-x. *)
Definition svc_x_first : ldb_message :=
  mk_msg "name=svc-x,cn=services,cn=example.com,cn=sysdb"
    [mk_el LDB_FLAG_MOD_ADD SYSDB_NAME ["svc-x"];
     mk_el LDB_FLAG_MOD_ADD SYSDB_SVC_PORT ["700"];
     mk_el LDB_FLAG_MOD_ADD SYSDB_SVC_PROTO ["tcp"]].

Definition svc_x_second : ldb_message :=
  mk_msg "name=svc-x-copy,cn=services,cn=example.com,cn=sysdb"
    [mk_el LDB_FLAG_MOD_ADD SYSDB_NAME ["svc-x"];
     mk_el LDB_FLAG_MOD_ADD SYSDB_SVC_PORT ["701"];
     mk_el LDB_FLAG_MOD_ADD SYSDB_SVC_PROTO ["udp"]].

(** The cache holding the two of them. *)
Definition seeded : sysdb_ctx :=
  mk_ctx "example.com" [svc_x_first; svc_x_second] [] [] [] 2000.

(** foo, an alias of svc-a, is stored as a primary name. *)
Definition foo_stored : sysdb_ctx * result unit :=
  sysdb_store_service "foo" 200 [] ["tcp"] 3600 6000 with_alias.

(** Two entries seeded on the port 900; the delete of the first one
    will fail. *)
Definition port_twin (name : string) : ldb_message :=
  mk_msg (SYSDB_TMPL_SVC name "example.com")
    [mk_el LDB_FLAG_MOD_ADD SYSDB_NAME [name];
     mk_el LDB_FLAG_MOD_ADD SYSDB_SVC_PORT ["900"];
     mk_el LDB_FLAG_MOD_ADD SYSDB_SVC_PROTO ["tcp"]].

Definition port_twins : sysdb_ctx :=
  mk_ctx "example.com" [port_twin "one"; port_twin "two"] []
    [EOK; EOK; EIO] [] 2000.

(** svc-a is removed by name and the commit, the fifth collaborator
    call, fails. *)
Definition commit_fails : sysdb_ctx :=
  set_faults [EOK; EOK; EOK; EOK; EIO] svc_a_stored.


(** * Runs for the further properties *)

(** svc-a is stored, then svc-b takes its port and no collaborator
    fails. *)
Definition svc_b_takes_port : sysdb_ctx * result unit :=
  sysdb_store_service "svc-b" 100 [] ["tcp"] 3600 6000 svc_a_stored.

(** The lookup of the removal fails, the third collaborator call. *)
Definition delete_lookup_fails : sysdb_ctx :=
  set_faults [EOK; EOK; EIO] svc_a_stored.

(** svc-c is added beside svc-a, with an alias and two protocols. *)
Definition svc_c_added : sysdb_ctx * result ldb_dn :=
  sysdb_svc_add "svc-c" 300 ["c-alias"] ["tcp"; "udp"] svc_a_stored.

(** svc-b is stored beside svc-a, on a port of its own. *)
Definition svc_b_beside : sysdb_ctx * result unit :=
  sysdb_store_service "svc-b" 200 [] ["udp"] 3600 6000 svc_a_stored.

(** The entry of svc-a in [svc_a_stored]. *)
Definition svc_a_alone : ldb_message :=
  hd (ldb_msg_new "") (ldb svc_a_stored).

(** svc-x is stored over its two seeded entries. *)
Definition svc_x_stored : sysdb_ctx * result unit :=
  sysdb_store_service "svc-x" 702 [] ["tcp"] 3600 6000 seeded.

(** The alias foo is taken from the entry of svc-a. *)
Definition alias_trimmed : sysdb_ctx * result unit :=
  sysdb_svc_remove_alias (dn svc_a_entry) "foo" with_alias.

(** * Properties *)

(** ** What a call leaves alone *)

Lemma frame_refl (w : sysdb_ctx) : frame w w.
Proof. unfold frame; auto. Qed.

Lemma frame_trans (w1 w2 w3 : sysdb_ctx) :
  frame w1 w2 -> frame w2 w3 -> frame w1 w3.
Proof.
  unfold frame; intros (T1 & D1 & C1 & F1) (T2 & D2 & C2 & F2).
  repeat split; try congruence; auto.
Qed.

Lemma read_only_framed {A} (m : M A) : read_only m -> framed m.
Proof. intros H w w' r E; apply (H w w' r E). Qed.

Lemma framed_ret {A} (a : A) : framed (ret a).
Proof. intros w w' r E; inversion E; subst; apply frame_refl. Qed.

Lemma framed_fail {A} (e : errno) : framed (@fail A e).
Proof. intros w w' r E; inversion E; subst; apply frame_refl. Qed.

Lemma framed_bind {A B} (m : M A) (k : A -> M B) :
  framed m -> (forall a, framed (k a)) -> framed (bind m k).
Proof.
  intros Hm Hk w w' r; unfold bind.
  destruct (m w) as [w1 [a | e]] eqn:E; intros E'.
  - eapply frame_trans; [eapply Hm | eapply Hk]; eauto.
  - inversion E'; subst; eapply Hm; eauto.
Qed.

Lemma read_only_ret {A} (a : A) : read_only (ret a).
Proof. intros w w' r E; inversion E; subst; split; [apply frame_refl | auto]. Qed.

Lemma read_only_fail {A} (e : errno) : read_only (@fail A e).
Proof. intros w w' r E; inversion E; subst; split; [apply frame_refl | auto]. Qed.

Lemma read_only_bind {A B} (m : M A) (k : A -> M B) :
  read_only m -> (forall a, read_only (k a)) -> read_only (bind m k).
Proof.
  intros Hm Hk w w' r; unfold bind.
  destruct (m w) as [w1 [a | e]] eqn:E; intros E'.
  - destruct (Hm _ _ _ E) as [F1 L1], (Hk _ _ _ _ E') as [F2 L2].
    split; [eapply frame_trans; eauto | congruence].
  - inversion E'; subst; eapply Hm; eauto.
Qed.

(** The scripted status is consumed and nothing else moves. *)
Lemma oracle_cases (w w' : sysdb_ctx) (r : result unit) :
  oracle w = (w', r) ->
  frame w w' /\ ldb w' = ldb w /\ trace w' = trace w
  /\ (r = Ok tt \/ exists e, r = Fail e /\ faults w <> [] /\ e <> EOK).
Proof.
  unfold oracle; destruct (faults w) as [| e rest] eqn:F.
  - intros E; inversion E; subst; repeat split; auto.
  - destruct (e =? EOK) eqn:Ee; intros E; inversion E; subst;
      unfold frame; simpl; repeat split; auto; try congruence.
    right; exists e; repeat split; try congruence.
    apply Z.eqb_neq in Ee; exact Ee.
Qed.

Lemma oracle_quiet (w : sysdb_ctx) : faults w = [] -> oracle w = (w, Ok tt).
Proof. unfold oracle; intros ->; reflexivity. Qed.

(** A collaborator call without script runs its operation. *)
Lemma collaborator_quiet {A} (c : call) (op : M A) (w : sysdb_ctx) :
  faults w = [] ->
  collaborator c op w = (log_call c (status (snd (op w))) (fst (op w)), snd (op w)).
Proof.
  intros F; unfold collaborator, bind; rewrite (oracle_quiet w F).
  destruct (op w); reflexivity.
Qed.

(** Either the script makes the call fail before its operation, or the
    operation runs, on the context the script leaves. *)
Lemma collaborator_cases {A} (c : call) (op : M A) (w w' : sysdb_ctx)
  (r : result A) :
  collaborator c op w = (w', r) ->
  (exists e, r = Fail e /\ e <> EOK /\ faults w <> [] /\ ldb w' = ldb w
             /\ frame w w' /\ trace w' = (c, e) :: trace w)
  \/ (exists w0 w1, op w0 = (w1, r) /\ ldb w0 = ldb w /\ frame w w0
                    /\ trace w0 = trace w
                    /\ w' = log_call c (status r) w1).
Proof.
  unfold collaborator, bind.
  destruct (oracle w) as [w0 [[] | e]] eqn:O;
    destruct (oracle_cases _ _ _ O) as (Fr & L & T & [R | (e' & R & Fn & Ne)]);
    try discriminate.
  - destruct (op w0) as [w1 r1] eqn:E; intros E'; inversion E'; subst.
    right; exists w0, w1; auto.
  - inversion R; subst e'; intros E'; inversion E'; subst.
    left; exists e; simpl; repeat split; auto; try apply Fr.
    rewrite T; reflexivity.
Qed.

Lemma frame_log_call (c : call) (e : errno) (w w1 : sysdb_ctx) :
  frame w w1 -> frame w (log_call c e w1).
Proof. unfold frame; simpl; auto. Qed.

Lemma framed_collaborator {A} (c : call) (op : M A) :
  framed op -> framed (collaborator c op).
Proof.
  intros H w w' r E.
  destruct (collaborator_cases _ _ _ _ _ E) as
    [(e & _ & _ & _ & _ & Fr & _) | (w0 & w1 & E1 & _ & Fr & _ & ->)]; auto.
  apply frame_log_call; eapply frame_trans; eauto.
Qed.

Lemma read_only_collaborator {A} (c : call) (op : M A) :
  read_only op -> read_only (collaborator c op).
Proof.
  intros H w w' r E.
  destruct (collaborator_cases _ _ _ _ _ E) as
    [(e & _ & _ & _ & L & Fr & _) | (w0 & w1 & E1 & L & Fr & _ & ->)]; auto.
  destruct (H _ _ _ E1) as [Fr1 L1]; split.
  - apply frame_log_call; eapply frame_trans; eauto.
  - simpl; congruence.
Qed.

(** ** The lookups *)

Lemma read_only_sanitize (s : string) : read_only (sss_filter_sanitize s).
Proof. apply read_only_collaborator, read_only_ret. Qed.

Lemma read_only_sanitize_proto (proto : option string) :
  read_only (sanitize_proto proto).
Proof.
  destruct proto; simpl; [| apply read_only_ret].
  apply read_only_bind; [apply read_only_sanitize |].
  intros; apply read_only_ret.
Qed.

Lemma read_only_search (f : ldb_message -> bool) : read_only (ldb_search f).
Proof.
  apply read_only_collaborator; intros w w' r E; inversion E; subst.
  split; [apply frame_refl | reflexivity].
Qed.

Lemma read_only_found (res : ldb_result) : read_only (found res).
Proof. destruct res; [apply read_only_fail | apply read_only_ret]. Qed.

Lemma read_only_getservbyname (name : string) (proto : option string) :
  read_only (sysdb_getservbyname name proto).
Proof.
  unfold sysdb_getservbyname.
  apply read_only_bind; [apply read_only_sanitize | intros].
  apply read_only_bind; [apply read_only_sanitize_proto | intros].
  apply read_only_bind; [apply read_only_search | intros].
  apply read_only_found.
Qed.

Lemma read_only_getservbyport (port : Z) (proto : option string) :
  read_only (sysdb_getservbyport port proto).
Proof.
  unfold sysdb_getservbyport; destruct (port <=? 0); [apply read_only_fail |].
  apply read_only_bind; [apply read_only_sanitize_proto | intros].
  apply read_only_bind; [apply read_only_search | intros].
  apply read_only_found.
Qed.

Lemma sanitize_quiet (s : string) (w : sysdb_ctx) :
  faults w = [] ->
  sss_filter_sanitize s w = (log_call SSS_FILTER_SANITIZE EOK w, Ok s).
Proof.
  intros F; unfold sss_filter_sanitize; rewrite collaborator_quiet by exact F.
  reflexivity.
Qed.

Lemma search_quiet (f : ldb_message -> bool) (w : sysdb_ctx) :
  faults w = [] ->
  ldb_search f w = (log_call LDB_SEARCH EOK w, Ok (filter f (ldb w))).
Proof.
  intros F; unfold ldb_search; rewrite collaborator_quiet by exact F.
  reflexivity.
Qed.

Lemma sanitize_proto_quiet (proto : option string) (w : sysdb_ctx) :
  faults w = [] ->
  sanitize_proto proto w = (after_proto proto w, Ok proto).
Proof.
  intros F; destruct proto as [p |]; simpl; [| reflexivity].
  unfold bind; rewrite sanitize_quiet by exact F; reflexivity.
Qed.

Lemma after_proto_quiet (proto : option string) (w : sysdb_ctx) :
  faults w = [] -> faults (after_proto proto w) = [].
Proof. destruct proto; simpl; auto. Qed.

Lemma after_proto_ldb (proto : option string) (w : sysdb_ctx) :
  ldb (after_proto proto w) = ldb w.
Proof. destruct proto; reflexivity. Qed.

(** Without script a lookup by name is the filter over the entries. *)
Lemma getservbyname_quiet (name : string) (proto : option string)
  (w : sysdb_ctx) :
  faults w = [] ->
  sysdb_getservbyname name proto w =
  found (filter (SYSDB_SVC_BYNAME_FILTER proto name name) (ldb w))
    (log_call LDB_SEARCH EOK
       (after_proto proto (log_call SSS_FILTER_SANITIZE EOK w))).
Proof.
  intros F; unfold sysdb_getservbyname, bind.
  rewrite sanitize_quiet by exact F.
  rewrite sanitize_proto_quiet by exact F.
  rewrite search_quiet by (apply after_proto_quiet; exact F).
  rewrite after_proto_ldb; reflexivity.
Qed.

Lemma getservbyport_quiet (port : Z) (proto : option string)
  (w : sysdb_ctx) :
  faults w = [] -> 0 < port ->
  sysdb_getservbyport port proto w =
  found (filter (SYSDB_SVC_BYPORT_FILTER proto (to_uint port)) (ldb w))
    (log_call LDB_SEARCH EOK (after_proto proto w)).
Proof.
  intros F P; unfold sysdb_getservbyport, bind.
  destruct (port <=? 0) eqn:E; [apply Z.leb_le in E; lia |].
  rewrite sanitize_proto_quiet by exact F.
  rewrite search_quiet by (apply after_proto_quiet; exact F).
  rewrite after_proto_ldb; reflexivity.
Qed.

(** ** The writes keep the open transactions *)

Ltac frame_op :=
  let E := fresh "E" in
  intros ? ? ? E;
  repeat match type of E with
         | context [if ?b then _ else _] => destruct b
         | context [match ?x with _ => _ end] => destruct x
         end;
  inversion E; subst; unfold frame; simpl; auto.

Lemma framed_add (msg : ldb_message) : framed (ldb_add msg).
Proof. apply framed_collaborator; frame_op. Qed.

Lemma framed_modify (msg : ldb_message) : framed (ldb_modify msg).
Proof. apply framed_collaborator; frame_op. Qed.

Lemma framed_delete (d : ldb_dn) : framed (ldb_delete d).
Proof. apply framed_collaborator; frame_op. Qed.

Lemma framed_delete_entry (d : ldb_dn) (flag : bool) :
  framed (sysdb_delete_entry d flag).
Proof. apply framed_delete. Qed.

Lemma framed_delete_entries (flag : bool) (msgs : ldb_result) :
  framed (delete_entries flag msgs).
Proof.
  induction msgs as [| m rest IH]; simpl; [apply framed_ret |].
  apply framed_bind; [apply framed_delete_entry | intros; exact IH].
Qed.

Lemma framed_remove_alias (d : ldb_dn) (alias : string) :
  framed (sysdb_svc_remove_alias d alias).
Proof. apply framed_modify. Qed.

Lemma framed_svc_update (d : ldb_dn) (port : Z) (al pr : list string) :
  framed (sysdb_svc_update d port al pr).
Proof.
  unfold sysdb_svc_update; destruct pr; [apply framed_fail | apply framed_modify].
Qed.

Lemma framed_dn_sanitize (s : string) : framed (sysdb_dn_sanitize s).
Proof. apply framed_collaborator, framed_ret. Qed.

Lemma framed_svc_add (pn : string) (port : Z) (al pr : list string) :
  framed (sysdb_svc_add pn port al pr).
Proof.
  intros w w' r; unfold sysdb_svc_add, sysdb_svc_dn.
  destruct (sysdb_dn_sanitize pn w) as [w1 [clean | e]] eqn:S; intros E.
  - apply (frame_trans _ _ _ (framed_dn_sanitize pn w _ _ S)).
    revert E; apply framed_bind; [apply framed_add | intros; apply framed_ret].
  - inversion E; subst; apply (framed_dn_sanitize pn w _ _ S).
Qed.

Lemma framed_set_entry_attr (d : ldb_dn) (attrs : list ldb_message_element)
  (op : mod_op) : framed (sysdb_set_entry_attr d attrs op).
Proof.
  unfold sysdb_set_entry_attr; destruct attrs;
    [apply framed_fail | apply framed_modify].
Qed.

Lemma framed_or_enoent (lookup : M ldb_result) :
  framed lookup -> framed (or_enoent lookup).
Proof.
  intros H w w' r; unfold or_enoent.
  destruct (lookup w) as [w1 [res | e]] eqn:E.
  - intros E'; inversion E'; subst; eapply H; eauto.
  - destruct (e =? ENOENT); intros E'; inversion E'; subst; eapply H; eauto.
Qed.

Lemma framed_logged_only (m : M unit) : framed m -> framed (logged_only m).
Proof.
  intros H w w' r; unfold logged_only.
  destruct (m w) as [w1 r1] eqn:E; intros E'; inversion E'; subst.
  eapply H; eauto.
Qed.

Lemma framed_port_pass (pn : string) (port : Z) :
  framed (store_port_pass pn port).
Proof.
  unfold store_port_pass; apply framed_bind.
  - apply framed_or_enoent, read_only_framed, read_only_getservbyport.
  - intros [[| m [| m' rest]] |]; try apply framed_ret.
    + destruct (ldb_msg_find_attr_as_string m SYSDB_NAME) as [name |].
      * destruct (String.eqb name pn); [apply framed_ret |].
        apply framed_logged_only, framed_delete_entry.
      * apply framed_logged_only, framed_delete_entry.
    + apply (framed_delete_entries true (m :: m' :: rest)).
Qed.

Lemma framed_name_loop (pn : string) (msgs : ldb_result) :
  forall update_dn, framed (store_name_loop pn msgs update_dn).
Proof.
  induction msgs as [| m rest IH]; intros update_dn; simpl;
    [apply framed_ret |].
  destruct (ldb_msg_find_attr_as_string m SYSDB_NAME) as [name |].
  - destruct (String.eqb name pn).
    + destruct update_dn as [previous |]; [| apply IH].
      apply framed_bind; [apply framed_delete_entry | intros].
      apply framed_bind; [apply framed_delete_entry | intros; apply IH].
    + apply framed_bind; [apply framed_remove_alias | intros; apply IH].
  - apply framed_bind; [apply framed_delete_entry | intros; apply IH].
Qed.

Lemma framed_name_pass (pn : string) : framed (store_name_pass pn).
Proof.
  unfold store_name_pass; apply framed_bind.
  - apply framed_or_enoent, read_only_framed, read_only_getservbyname.
  - intros [res |]; [apply framed_name_loop | apply framed_ret].
Qed.

Lemma framed_passes (pn : string) (port : Z) : framed (store_passes pn port).
Proof.
  apply framed_bind; [apply framed_port_pass | intros; apply framed_name_pass].
Qed.

Lemma framed_apply (pn : string) (port : Z) (al pr : list string)
  (update_dn : option ldb_dn) : framed (store_apply pn port al pr update_dn).
Proof.
  destruct update_dn as [d |]; simpl; [| apply framed_svc_add].
  apply framed_bind; [apply framed_svc_update | intros; apply framed_ret].
Qed.

Lemma framed_timestamps (d : ldb_dn) (ct now : Z) :
  framed (store_timestamps d ct now).
Proof. apply framed_set_entry_attr. Qed.

Lemma framed_steps (pn : string) (port : Z) (al pr : list string)
  (ct now : Z) : framed (store_steps pn port al pr ct now).
Proof.
  apply framed_bind; [apply framed_passes | intros].
  apply framed_bind; [apply framed_apply | intros; apply framed_timestamps].
Qed.

(** ** The transaction around a write *)

Lemma transaction_start_cases (w w' : sysdb_ctx) (r : result unit) :
  sysdb_transaction_start w = (w', r) ->
  (exists e, r = Fail e /\ ldb w' = ldb w /\ txn w' = txn w
             /\ trace w' = (TRANSACTION_START, e) :: trace w)
  \/ (r = Ok tt /\ ldb w' = ldb w /\ txn w' = ldb w :: txn w
      /\ (faults w = [] -> faults w' = [])).
Proof.
  intros E; destruct (collaborator_cases _ _ _ _ _ E) as
    [(e & -> & _ & _ & L & Fr & T) | (w0 & w1 & E1 & L & Fr & _ & ->)].
  - left; exists e; repeat split; auto; apply Fr.
  - right; inversion E1; subst; simpl; rewrite L.
    destruct Fr as (T & _ & _ & F); rewrite T; auto.
Qed.

Lemma transaction_commit_cases (w w' : sysdb_ctx) (r : result unit) :
  sysdb_transaction_commit w = (w', r) ->
  ldb w' = ldb w
  /\ ((exists e, r = Fail e /\ txn w' = txn w)
      \/ (r = Ok tt /\ txn w' = tl (txn w))).
Proof.
  intros E; destruct (collaborator_cases _ _ _ _ _ E) as
    [(e & -> & _ & _ & L & Fr & T) | (w0 & w1 & E1 & L & Fr & _ & ->)].
  - split; [exact L | left; exists e; split; [reflexivity | apply Fr]].
  - destruct Fr as (T & _); destruct (txn w0) as [| saved open] eqn:X;
      inversion E1; subst; simpl; (split; [assumption |]).
    + left; exists EIO; split; [reflexivity | congruence].
    + right; rewrite <- T; auto.
Qed.

Lemma transaction_cancel_cases (w w' : sysdb_ctx) (r : result unit) :
  sysdb_transaction_cancel w = (w', r) ->
  (exists e, e <> EOK /\ trace w' = (TRANSACTION_CANCEL, e) :: trace w)
  \/ (trace w' = (TRANSACTION_CANCEL, EOK) :: trace w
      /\ exists saved open, txn w = saved :: open
                            /\ ldb w' = saved /\ txn w' = open).
Proof.
  intros E; destruct (collaborator_cases _ _ _ _ _ E) as
    [(e & -> & Ne & _ & L & Fr & T) | (w0 & w1 & E1 & L & Fr & T0 & ->)].
  - left; exists e; auto.
  - destruct Fr as (T & _); destruct (txn w0) as [| saved open] eqn:X;
      inversion E1; subst; simpl; rewrite T0.
    + left; exists EIO; split; [discriminate | reflexivity].
    + right; split; [reflexivity |]; exists saved, open; rewrite <- T; auto.
Qed.

(** What [done] does to a failed write whose transaction is open. *)
Lemma done_cancels (w w2 w' : sysdb_ctx) (r r' : result unit) :
  txn w2 = ldb w :: txn w ->
  done true r w2 = (w', r') ->
  (forall st, hd_error (trace w') = Some (TRANSACTION_CANCEL, st) -> st = EOK) ->
  r' = r /\ ldb w' = ldb w /\ txn w' = txn w
  /\ hd_error (trace w') = Some (TRANSACTION_CANCEL, EOK).
Proof.
  unfold done; intros T.
  destruct (sysdb_transaction_cancel w2) as [w3 r3] eqn:C.
  intros E H; inversion E; subst.
  destruct (transaction_cancel_cases _ _ _ C) as
    [(e & Ne & Tr) | (Tr & saved & open & X & L & T')].
  - exfalso; apply Ne, H; rewrite Tr; reflexivity.
  - rewrite T in X; inversion X; subst; rewrite Tr; auto.
Qed.

(** C1. Whenever [sysdb_store_service] returns an error, at any point
    of failure of the collaborators, and the cancel it then runs did not
    itself fail, the entries and the open transactions are those from
    before the call, and the last collaborator call is the successful
    cancel of the transaction, unless the transaction could not even be
    started (then the failed start is the last call and its error is
    the one returned). *)
Theorem store_service_atomic (pn : string) (port : Z) (al pr : list string)
  (ct now : Z) (w w' : sysdb_ctx) (e : errno) :
  sysdb_store_service pn port al pr ct now w = (w', Fail e) ->
  (forall st, hd_error (trace w') = Some (TRANSACTION_CANCEL, st) -> st = EOK) ->
  ldb w' = ldb w /\ txn w' = txn w
  /\ (hd_error (trace w') = Some (TRANSACTION_CANCEL, EOK)
      \/ hd_error (trace w') = Some (TRANSACTION_START, e)).
Proof.
  unfold sysdb_store_service.
  destruct (sysdb_transaction_start w) as [w1 r1] eqn:S.
  destruct (transaction_start_cases _ _ _ S) as
    [(e1 & -> & L & T & Tr) | (-> & L & T & _)].
  - simpl; intros E _; inversion E; subst.
    rewrite Tr; auto.
  - destruct (store_steps pn port al pr ct now w1) as [w2 [[] | e2]] eqn:B.
    + assert (T2 : txn w2 = ldb w :: txn w)
        by (destruct (framed_steps pn port al pr ct now w1 _ _ B) as (T2 & _); congruence).
      destruct (sysdb_transaction_commit w2) as [w3 [[] | e3]] eqn:C.
      * simpl; discriminate.
      * destruct (transaction_commit_cases _ _ _ C) as
          (L3 & [(e' & R & T3) | (R & _)]); [| discriminate].
        intros E H.
        destruct (done_cancels w w3 w' (Fail e3) _ (eq_trans T3 T2) E H)
          as (_ & ? & ? & ?); auto.
    + assert (T2 : txn w2 = ldb w :: txn w)
        by (destruct (framed_steps pn port al pr ct now w1 _ _ B) as (T2 & _); congruence).
      intros E H.
      destruct (done_cancels w w2 w' (Fail e2) _ T2 E H) as (_ & ? & ? & ?);
        auto.
Qed.

(** ** Runs *)

(** C2, at the failing input.  The delete of the entry that owns port
    100 fails, the write of svc-b still returns [EOK], and afterwards
    two entries carry port 100: a lookup of the port returns svc-a
    together with svc-b. *)
Theorem port_owner_survives :
  snd svc_b_stored = Ok tt
  /\ names_of (ldb (fst svc_b_stored)) = [Some "svc-a"; Some "svc-b"]
  /\ map (msg_values SYSDB_SVC_PORT) (ldb (fst svc_b_stored))
     = [["100"]; ["100"]]
  /\ names_found (snd (sysdb_getservbyport 100 None (fst svc_b_stored)))
     = Some [Some "svc-a"; Some "svc-b"].
Proof. vm_compute; repeat split. Qed.

(** C3, at the failing input.  The corrective delete of the stale owner
    of the port fails with [EIO]; the write goes on, commits and returns
    [EOK], and the stale owner is still there. *)
Theorem stale_owner_delete_failure_ignored :
  In (LDB_DELETE, EIO) (trace (fst ldap_ssl_stored))
  /\ snd ldap_ssl_stored = Ok tt
  /\ hd_error (trace (fst ldap_ssl_stored)) = Some (TRANSACTION_COMMIT, EOK)
  /\ txn (fst ldap_ssl_stored) = []
  /\ names_of (ldb (fst ldap_ssl_stored)) = [Some "ldaps"; Some "ldap-ssl"].
Proof.
  vm_compute; repeat split.
  repeat (first [left; reflexivity | right]).
Qed.

(** C10, at the failing input.  No transaction of the call was started,
    and what the cleanup does follows the value [in_transaction]
    happened to hold: with [true] it cancels, which here ends the
    transaction of the caller and takes its entry away; with [false] it
    does not. *)
Theorem delete_cleanup_reads_indeterminate_flag :
  let ran_true := sysdb_svc_delete true (Some "svc-a") 0 None start_fails in
  let ran_false := sysdb_svc_delete false (Some "svc-a") 0 None start_fails in
  trace (fst ran_true) = [(TRANSACTION_CANCEL, EOK); (TRANSACTION_START, EIO)]
  /\ txn (fst ran_true) = [] /\ ldb (fst ran_true) = []
  /\ snd ran_true = Fail EIO
  /\ trace (fst ran_false) = [(TRANSACTION_START, EIO)]
  /\ txn (fst ran_false) = txn start_fails
  /\ ldb (fst ran_false) = ldb start_fails
  /\ snd ran_false = Fail EIO.
Proof. vm_compute; repeat split. Qed.

(** Beside C3: when the port has two owners, the failed delete of one
    of them ends the write with the error, and the cancel restores the
    entries. *)
Lemma duplicate_port_delete_failure_aborts :
  let after := sysdb_store_service "three" 900 [] ["tcp"] 0 3000 port_twins in
  snd after = Fail EIO
  /\ In (LDB_DELETE, EIO) (trace (fst after))
  /\ hd_error (trace (fst after)) = Some (TRANSACTION_CANCEL, EOK)
  /\ ldb (fst after) = ldb port_twins.
Proof.
  vm_compute; repeat split.
  repeat (first [left; reflexivity | right]).
Qed.

(** Beside C10: line 676 clears [in_transaction] whatever the commit
    returned, so after a failed commit the cleanup does not cancel: the
    failed commit is the last call of the run. *)
Lemma delete_commit_failure_not_cancelled :
  let after := sysdb_svc_delete false (Some "svc-a") 0 None commit_fails in
  snd after = Fail EIO
  /\ hd_error (trace (fst after)) = Some (TRANSACTION_COMMIT, EIO).
Proof. vm_compute; repeat split. Qed.

(** Against C4 as stated: svc-a, stored with the alias foo, is stored
    again with no alias; the entry is updated and keeps the alias. *)
Lemma update_keeps_aliases :
  snd alias_dropped = Ok tt
  /\ names_of (ldb (fst alias_dropped)) = [Some "svc-a"]
  /\ map (msg_values SYSDB_NAME_ALIAS) (ldb (fst alias_dropped)) = [["foo"]]
  /\ map (msg_values SYSDB_NAME_ALIAS) (ldb (fst alias_dropped)) <> [[]].
Proof. vm_compute; repeat split; discriminate. Qed.

(** ** The Store without script *)

Lemma delete_quiet (d : ldb_dn) (w : sysdb_ctx) :
  faults w = [] ->
  ldb_delete d w =
  if existsb (dn_eqb d) (ldb w)
  then (log_call LDB_DELETE EOK
          (set_ldb (filter (fun m => negb (dn_eqb d m)) (ldb w)) w), Ok tt)
  else (log_call LDB_DELETE ENOENT w, Fail ENOENT).
Proof.
  intros F; unfold ldb_delete; rewrite collaborator_quiet by exact F.
  destruct (existsb (dn_eqb d) (ldb w)); reflexivity.
Qed.

Lemma transaction_start_quiet (w : sysdb_ctx) :
  faults w = [] ->
  sysdb_transaction_start w =
  (log_call TRANSACTION_START EOK (set_txn (ldb w :: txn w) w), Ok tt).
Proof.
  intros F; unfold sysdb_transaction_start.
  rewrite collaborator_quiet by exact F; reflexivity.
Qed.

Lemma transaction_commit_quiet (w : sysdb_ctx) (saved : list ldb_message)
  (open : list (list ldb_message)) :
  faults w = [] -> txn w = saved :: open ->
  sysdb_transaction_commit w =
  (log_call TRANSACTION_COMMIT EOK (set_txn open w), Ok tt).
Proof.
  intros F T; unfold sysdb_transaction_commit.
  rewrite collaborator_quiet by exact F; rewrite T; reflexivity.
Qed.

Lemma transaction_cancel_quiet (w : sysdb_ctx) (saved : list ldb_message)
  (open : list (list ldb_message)) :
  faults w = [] -> txn w = saved :: open ->
  sysdb_transaction_cancel w =
  (log_call TRANSACTION_CANCEL EOK (set_txn open (set_ldb saved w)), Ok tt).
Proof.
  intros F T; unfold sysdb_transaction_cancel.
  rewrite collaborator_quiet by exact F; rewrite T; reflexivity.
Qed.

(** ** Lists of entries *)

Lemma filter_filter {A} (f g : A -> bool) (l : list A) :
  filter f (filter g l) = filter (fun x => g x && f x) l.
Proof.
  induction l as [| x l IH]; simpl; [reflexivity |].
  destruct (g x); simpl; [destruct (f x) |]; rewrite IH; reflexivity.
Qed.

Lemma filter_all {A} (f : A -> bool) (l : list A) :
  (forall x, f x = true) -> filter f l = l.
Proof.
  intros H; induction l as [| x l IH]; simpl; [reflexivity |].
  rewrite H, IH; reflexivity.
Qed.

Lemma same_dn_same_entry (db : list ldb_message) (a b : ldb_message) :
  NoDup (map dn db) -> In a db -> In b db -> dn a = dn b -> a = b.
Proof.
  induction db as [| m db IH]; simpl; [tauto |].
  intros N Ha Hb E; inversion N as [| ? ? Nm Nd]; subst.
  destruct Ha as [-> | Ha], Hb as [-> | Hb]; auto.
  - exfalso; apply Nm; rewrite E; apply in_map; exact Hb.
  - exfalso; apply Nm; rewrite <- E; apply in_map; exact Ha.
Qed.

Lemma NoDup_dn_filter (f : ldb_message -> bool) (db : list ldb_message) :
  NoDup (map dn db) -> NoDup (map dn (filter f db)).
Proof.
  induction db as [| m db IH]; simpl; [auto |].
  intros N; inversion N as [| ? ? Nm Nd]; subst.
  destruct (f m); simpl; auto.
  constructor; auto.
  intros I; apply Nm; apply in_map_iff in I; destruct I as (x & E & I).
  apply filter_In in I; rewrite <- E; apply in_map; tauto.
Qed.

Lemma dn_present (d : ldb_dn) (db : list ldb_message) :
  existsb (dn_eqb d) db = true <-> exists m, In m db /\ dn m = d.
Proof.
  rewrite existsb_exists; unfold dn_eqb; split; intros (m & I & E);
    exists m; split; auto; apply String.eqb_eq; exact E.
Qed.

(** ** Removal *)

(** Without script, the loop deletes entries that are there and none of
    which shares its identifier with another. *)
Lemma delete_entries_quiet (flag : bool) (res : ldb_result) :
  forall w,
    faults w = [] -> NoDup (map dn res) ->
    (forall r, In r res -> existsb (dn_eqb (dn r)) (ldb w) = true) ->
    exists w',
      delete_entries flag res w = (w', Ok tt)
      /\ faults w' = [] /\ txn w' = txn w
      /\ ldb w' = filter (not_among res) (ldb w).
Proof.
  induction res as [| r rest IH]; intros w F N Hin; simpl.
  - exists w; repeat split; auto.
    symmetry; apply filter_all; reflexivity.
  - inversion N as [| ? ? Nr Nrest]; subst.
    unfold bind, sysdb_delete_entry; rewrite delete_quiet by exact F.
    rewrite (Hin r (or_introl eq_refl)).
    set (w1 := log_call LDB_DELETE EOK
                 (set_ldb (filter (fun m => negb (dn_eqb (dn r) m)) (ldb w)) w)).
    destruct (IH w1) as (w' & E & F' & T' & L'); auto.
    + intros r' I'.
      apply dn_present; simpl.
      destruct (proj1 (dn_present _ _) (Hin r' (or_intror I')))
        as (m & Im & Em).
      exists m; split; [| exact Em].
      apply filter_In; split; [exact Im |].
      unfold dn_eqb; rewrite Em.
      destruct (String.eqb_spec (dn r') (dn r)) as [E' |]; [| reflexivity].
      exfalso; apply Nr; rewrite <- E'; apply in_map; exact I'.
    + exists w'; repeat split; auto.
      rewrite L'; simpl; rewrite filter_filter.
      apply filter_ext; intros m; unfold not_among, dn_eqb; simpl.
      rewrite negb_orb; reflexivity.
Qed.

(** Among entries with distinct identifiers, an entry escapes the
    identifiers of the selected ones exactly when it is not selected. *)
Lemma not_among_selected (f : ldb_message -> bool) (db : list ldb_message) :
  NoDup (map dn db) ->
  filter (not_among (filter f db)) db = filter (fun m => negb (f m)) db.
Proof.
  intros N; apply filter_ext_in; intros m I; unfold not_among; f_equal.
  destruct (f m) eqn:Fm.
  - apply existsb_exists; exists m; split; [| apply String.eqb_refl].
    apply filter_In; auto.
  - destruct (existsb _ _) eqn:X; [| reflexivity].
    apply existsb_exists in X; destruct X as (r & Ir & Er).
    apply filter_In in Ir; destruct Ir as [Ir Fr].
    apply String.eqb_eq in Er.
    rewrite (same_dn_same_entry db m r N I Ir Er) in Fm; congruence.
Qed.

Lemma delete_lookup_quiet (name : option string) (port : Z)
  (proto : option string) (w : sysdb_ctx) :
  faults w = [] -> (name = None -> 0 < port) ->
  exists w',
    svc_delete_lookup name port proto w
    = found (filter (svc_selector name port proto) (ldb w)) w'
    /\ faults w' = [] /\ txn w' = txn w /\ ldb w' = ldb w.
Proof.
  intros F P; destruct name as [n |]; simpl.
  - rewrite getservbyname_quiet by exact F.
    eexists; split; [reflexivity |]; simpl.
    rewrite after_proto_ldb; destruct proto; simpl; auto.
  - rewrite getservbyport_quiet by auto.
    eexists; split; [reflexivity |]; simpl.
    rewrite after_proto_ldb; destruct proto; simpl; auto.
Qed.

Lemma found_nonempty (res : ldb_result) (w : sysdb_ctx) :
  res <> [] -> found res w = (w, Ok res).
Proof. destruct res; [congruence | reflexivity]. Qed.

(** Without script, a removal that selects nothing cancels its
    transaction and changes nothing. *)
Lemma svc_delete_nothing (indeterminate : bool) (name : option string)
  (port : Z) (proto : option string) (w : sysdb_ctx) :
  faults w = [] -> (name = None -> 0 < port) ->
  filter (svc_selector name port proto) (ldb w) = [] ->
  let after := sysdb_svc_delete indeterminate name port proto w in
  snd after = Ok tt /\ ldb (fst after) = ldb w /\ txn (fst after) = txn w.
Proof.
  intros F P Sel after; subst after; unfold sysdb_svc_delete.
  rewrite transaction_start_quiet by exact F.
  set (w1 := log_call TRANSACTION_START EOK (set_txn (ldb w :: txn w) w)).
  destruct (delete_lookup_quiet name port proto w1 F P)
    as (w2 & E & F2 & T2 & L2).
  simpl in E, T2, L2; unfold or_enoent; rewrite E, Sel; simpl.
  unfold done; rewrite (transaction_cancel_quiet w2 (ldb w) (txn w) F2 T2).
  simpl; auto.
Qed.

(** Without script and among distinct identifiers, a removal deletes
    the entries selected, commits, and keeps the others. *)
Lemma svc_delete_selected (indeterminate : bool) (name : option string)
  (port : Z) (proto : option string) (w : sysdb_ctx) :
  faults w = [] -> (name = None -> 0 < port) ->
  NoDup (map dn (ldb w)) ->
  filter (svc_selector name port proto) (ldb w) <> [] ->
  let after := sysdb_svc_delete indeterminate name port proto w in
  snd after = Ok tt
  /\ ldb (fst after)
     = filter (fun m => negb (svc_selector name port proto m)) (ldb w)
  /\ txn (fst after) = txn w.
Proof.
  intros F P N Sel after; subst after; unfold sysdb_svc_delete.
  rewrite transaction_start_quiet by exact F.
  set (w1 := log_call TRANSACTION_START EOK (set_txn (ldb w :: txn w) w)).
  destruct (delete_lookup_quiet name port proto w1 F P)
    as (w2 & E & F2 & T2 & L2).
  simpl in E, T2, L2; unfold or_enoent; rewrite E.
  rewrite found_nonempty by exact Sel.
  destruct (delete_entries_quiet false
              (filter (svc_selector name port proto) (ldb w)) w2 F2)
    as (w3 & D & F3 & T3 & L3).
  - apply NoDup_dn_filter; exact N.
  - intros r I; apply dn_present; exists r; split; [| reflexivity].
    rewrite L2; apply filter_In in I; tauto.
  - rewrite D.
    rewrite (transaction_commit_quiet w3 (ldb w) (txn w) F3) by congruence.
    simpl; repeat split.
    rewrite L3, L2; apply not_among_selected; exact N.
Qed.

(** C9.  When the collaborators do not fail and the entry is selected
    by a name or, as the data model has ports, by a positive port: if
    no entry matches,
    [sysdb_svc_delete] returns [EOK] and leaves the entries and the
    open transactions as they were; and, the identifiers of the entries
    being distinct, it returns [EOK] and leaves exactly the entries
    that do not match, so every match is deleted. *)
Theorem svc_delete_removes_matches (indeterminate : bool)
  (name : option string) (port : Z) (proto : option string)
  (w : sysdb_ctx) :
  faults w = [] ->
  (name = None -> 0 < port) ->
  let selected := svc_selector name port proto in
  let after := sysdb_svc_delete indeterminate name port proto w in
  (filter selected (ldb w) = [] ->
   snd after = Ok tt /\ ldb (fst after) = ldb w /\ txn (fst after) = txn w)
  /\ (NoDup (map dn (ldb w)) ->
      snd after = Ok tt
      /\ ldb (fst after) = filter (fun m => negb (selected m)) (ldb w)
      /\ txn (fst after) = txn w).
Proof.
  intros F P selected after; subst selected after; split.
  - apply svc_delete_nothing; assumption.
  - intros N.
    destruct (filter (svc_selector name port proto) (ldb w)) as [| m0 rest]
      eqn:Sel.
    + destruct (svc_delete_nothing indeterminate name port proto w F P Sel)
        as (R & L & T).
      repeat split; auto.
      rewrite L, <- (not_among_selected _ (ldb w) N), Sel.
      symmetry; apply filter_all; reflexivity.
    + apply svc_delete_selected; auto.
      rewrite Sel; discriminate.
Qed.

(** ** What the writes of the Store do *)

Lemma delete_cases (d : ldb_dn) (w w' : sysdb_ctx) (r : result unit) :
  ldb_delete d w = (w', r) ->
  (r = Ok tt /\ ldb w' = filter (fun m => negb (dn_eqb d m)) (ldb w))
  \/ (exists e, r = Fail e /\ ldb w' = ldb w).
Proof.
  intros E; destruct (collaborator_cases _ _ _ _ _ E) as
    [(e & -> & _ & _ & L & _) | (w0 & w1 & E1 & L & _ & _ & ->)].
  - right; exists e; auto.
  - destruct (existsb (dn_eqb d) (ldb w0)); inversion E1; subst; simpl.
    + left; rewrite L; auto.
    + right; exists ENOENT; auto.
Qed.

Lemma modify_cases (msg : ldb_message) (w w' : sysdb_ctx) (r : result unit) :
  ldb_modify msg w = (w', r) ->
  (r = Ok tt
   /\ modify_entries (dn msg) (elements msg) (ldb w) = Some (ldb w')
   /\ existsb (dn_eqb (dn msg)) (ldb w) = true)
  \/ (exists e, r = Fail e /\ ldb w' = ldb w).
Proof.
  intros E; destruct (collaborator_cases _ _ _ _ _ E) as
    [(e & -> & _ & _ & L & _) | (w0 & w1 & E1 & L & _ & _ & ->)].
  - right; exists e; auto.
  - rewrite <- L.
    destruct (existsb (dn_eqb (dn msg)) (ldb w0)).
    + destruct (modify_entries (dn msg) (elements msg) (ldb w0)) as [db' |];
        inversion E1; subst; simpl.
      * left; auto.
      * right; exists EIO; auto.
    + inversion E1; subst; right; exists ENOENT; auto.
Qed.

Lemma add_cases (msg : ldb_message) (w w' : sysdb_ctx) (r : result unit) :
  ldb_add msg w = (w', r) ->
  (r = Ok tt /\ ldb w' = ldb w ++ [msg]
   /\ existsb (dn_eqb (dn msg)) (ldb w) = false
   /\ existsb (fun el => is_nil (el_values el)) (elements msg) = false)
  \/ (exists e, r = Fail e /\ ldb w' = ldb w).
Proof.
  intros E; destruct (collaborator_cases _ _ _ _ _ E) as
    [(e & -> & _ & _ & L & _) | (w0 & w1 & E1 & L & _ & _ & ->)].
  - right; exists e; auto.
  - rewrite <- L.
    destruct (existsb (dn_eqb (dn msg)) (ldb w0)).
    + inversion E1; subst; right; exists EEXIST; auto.
    + destruct (existsb _ (elements msg)); inversion E1; subst; simpl.
      * right; exists EIO; auto.
      * left; auto.
Qed.

(** ** Attribute values through a change *)

Lemma attr_eqb_eq (a b : attr_name) : attr_eqb a b = true <-> a = b.
Proof. destruct a, b; simpl; split; intros; congruence. Qed.

Lemma attr_eqb_refl (a : attr_name) : attr_eqb a a = true.
Proof. destruct a; reflexivity. Qed.

Lemma attr_eqb_sym (a b : attr_name) : attr_eqb a b = attr_eqb b a.
Proof. destruct a, b; reflexivity. Qed.

Lemma el_find_remove (a b : attr_name) (els : list ldb_message_element) :
  el_find a (el_remove b els) = if attr_eqb a b then [] else el_find a els.
Proof.
  unfold el_find, el_remove, has_name.
  induction els as [| el els IH]; simpl.
  - destruct (attr_eqb a b); reflexivity.
  - destruct (attr_eqb (el_name el) b) eqn:Eb; simpl.
    + destruct (attr_eqb (el_name el) a) eqn:Ea; [| exact IH].
      apply attr_eqb_eq in Ea, Eb; subst; rewrite attr_eqb_refl in *.
      rewrite IH; reflexivity.
    + destruct (attr_eqb (el_name el) a) eqn:Ea; [| exact IH].
      apply attr_eqb_eq in Ea; subst.
      rewrite Eb; reflexivity.
Qed.

Lemma el_find_app (a : attr_name) (els more : list ldb_message_element) :
  el_find a (els ++ more)
  = match find (has_name a) els with
    | Some el => el_values el
    | None => el_find a more
    end.
Proof.
  unfold el_find; induction els as [| el els IH]; simpl; [reflexivity |].
  destruct (has_name a el); [reflexivity | exact IH].
Qed.

Lemma find_remove_same (a : attr_name) (els : list ldb_message_element) :
  find (has_name a) (el_remove a els) = None.
Proof.
  unfold el_remove; induction els as [| el els IH]; simpl; [reflexivity |].
  destruct (has_name a el) eqn:E; simpl; [exact IH | rewrite E; exact IH].
Qed.

Lemma el_find_set (flags : mod_op) (a b : attr_name) (vs : list string)
  (els : list ldb_message_element) :
  el_find a (el_set flags b vs els)
  = if attr_eqb a b then vs else el_find a els.
Proof.
  unfold el_set; destruct vs as [| v vs]; [apply el_find_remove |].
  rewrite el_find_app.
  destruct (attr_eqb a b) eqn:E.
  - apply attr_eqb_eq in E; subst b; rewrite find_remove_same.
    unfold el_find; simpl; unfold has_name; simpl.
    rewrite attr_eqb_refl; reflexivity.
  - pose proof (el_find_remove a b els) as R; rewrite E in R.
    unfold el_find in R at 1.
    destruct (find (has_name a) (el_remove b els)); [exact R |].
    unfold el_find at 1; simpl; unfold has_name; simpl.
    rewrite attr_eqb_sym, E; exact R.
Qed.

(** ** The entries through a modify *)

Lemma modify_entries_forward (d : ldb_dn) (mods : list ldb_message_element)
  (db db' : list ldb_message) (m : ldb_message) :
  modify_entries d mods db = Some db' -> In m db ->
  exists m', In m' db' /\ dn m' = dn m
             /\ if dn_eqb d m
                then apply_mods mods (elements m) = Some (elements m')
                else m' = m.
Proof.
  revert db'; induction db as [| x db IH]; simpl; [tauto |].
  intros db' E [-> | I].
  - destruct (dn_eqb d m) eqn:D.
    + destruct (apply_mods mods (elements m)) as [els |]; [| discriminate].
      simpl in E; destruct (modify_entries d mods db); inversion E; subst.
      eexists; split; [left; reflexivity |]; simpl; auto.
    + destruct (modify_entries d mods db); inversion E; subst.
      exists m; simpl; auto.
  - destruct (if dn_eqb d x then _ else _) as [x' |]; [| discriminate].
    destruct (modify_entries d mods db) as [rest |]; inversion E; subst.
    destruct (IH rest eq_refl I) as (m' & I' & R).
    exists m'; split; [right; exact I' | exact R].
Qed.

Lemma modify_entries_backward (d : ldb_dn) (mods : list ldb_message_element)
  (db db' : list ldb_message) (m' : ldb_message) :
  modify_entries d mods db = Some db' -> In m' db' ->
  exists m, In m db /\ dn m' = dn m
            /\ if dn_eqb d m
               then apply_mods mods (elements m) = Some (elements m')
               else m' = m.
Proof.
  revert db'; induction db as [| x db IH]; simpl.
  - intros db' E; inversion E; simpl; tauto.
  - intros db' E I.
    destruct (if dn_eqb d x then _ else _) as [x' |] eqn:X; [| discriminate].
    destruct (modify_entries d mods db) as [rest |]; inversion E; subst.
    destruct I as [<- | I].
    + exists x; split; [left; reflexivity |].
      destruct (dn_eqb d x).
      * destruct (apply_mods mods (elements x)); inversion X; subst; auto.
      * inversion X; subst; auto.
    + destruct (IH rest eq_refl I) as (m & Im & R).
      exists m; split; [right; exact Im | exact R].
Qed.

Lemma modify_entries_dn (d : ldb_dn) (mods : list ldb_message_element)
  (db db' : list ldb_message) :
  modify_entries d mods db = Some db' -> map dn db' = map dn db.
Proof.
  revert db'; induction db as [| x db IH]; simpl.
  - intros db' E; inversion E; reflexivity.
  - intros db' E.
    destruct (if dn_eqb d x then _ else _) as [x' |] eqn:X; [| discriminate].
    destruct (modify_entries d mods db) as [rest |]; inversion E; subst.
    simpl; rewrite (IH rest eq_refl); f_equal.
    destruct (dn_eqb d x); [| inversion X; reflexivity].
    destruct (apply_mods mods (elements x)); inversion X; reflexivity.
Qed.

Lemma modify_step (msg : ldb_message)
  (f : attr_name -> list string -> list string) (w w' : sysdb_ctx) :
  (forall els els',
      apply_mods (elements msg) els = Some els' -> rewritten f els els') ->
  ldb_modify msg w = (w', Ok tt) ->
  entries_step (dn msg) f (ldb w) (ldb w')
  /\ existsb (dn_eqb (dn msg)) (ldb w) = true
  /\ map dn (ldb w') = map dn (ldb w).
Proof.
  intros H E; destruct (modify_cases _ _ _ _ E) as
    [(_ & Md & X) | (e & R & _)]; [| discriminate].
  split; [| split; [exact X | eapply modify_entries_dn; eauto]].
  split.
  - intros m I.
    destruct (modify_entries_forward _ _ _ _ m Md I) as (m' & I' & D & R).
    exists m'; repeat split; auto.
    destruct (dn_eqb (dn msg) m); auto.
  - intros m' I'.
    destruct (modify_entries_backward _ _ _ _ m' Md I') as (m & I & D & R).
    exists m; repeat split; auto.
    destruct (dn_eqb (dn msg) m); auto.
Qed.

(** ** The messages the writes build *)

Lemma el_add_value_last (a : attr_name) (v : string) (flags : mod_op)
  (acc : list string) (els : list ldb_message_element) :
  lacks a els = true ->
  el_add_value a v (els ++ [mk_el flags a acc])
  = els ++ [mk_el flags a (acc ++ [v])].
Proof.
  unfold lacks; induction els as [| el els IH]; simpl; intros L.
  - unfold has_name; simpl; rewrite attr_eqb_refl; reflexivity.
  - apply andb_prop in L; destruct L as [N L].
    apply negb_true_iff in N; rewrite N, (IH L); reflexivity.
Qed.

Lemma add_strings_last (a : attr_name) (flags : mod_op) (d : ldb_dn)
  (els : list ldb_message_element) (vs : list string) :
  lacks a els = true ->
  forall acc,
    ldb_msg_add_strings a vs (mk_msg d (els ++ [mk_el flags a acc]))
    = mk_msg d (els ++ [mk_el flags a (acc ++ vs)]).
Proof.
  intros L; unfold ldb_msg_add_strings.
  induction vs as [| v vs IH]; intros acc; simpl.
  - rewrite app_nil_r; reflexivity.
  - unfold ldb_msg_add_string at 2; simpl.
    rewrite el_add_value_last by exact L.
    rewrite IH, <- app_assoc; reflexivity.
Qed.

Lemma add_strings_fresh (a : attr_name) (flags : mod_op) (vs : list string)
  (m : ldb_message) :
  lacks a (elements m) = true ->
  ldb_msg_add_strings a vs (ldb_msg_add_empty a flags m)
  = mk_msg (dn m) (elements m ++ [mk_el flags a vs]).
Proof.
  intros L; unfold ldb_msg_add_empty.
  rewrite (add_strings_last a flags (dn m) (elements m) vs L []).
  reflexivity.
Qed.

Lemma svc_update_msg_elements (d : ldb_dn) (port : Z)
  (al pr : list string) :
  svc_update_msg d port al pr
  = mk_msg d
      (mk_el SYSDB_MOD_REP SYSDB_SVC_PORT [fmt_decimal (to_ulong port)]
       :: alias_element SYSDB_MOD_REP al
       ++ [mk_el SYSDB_MOD_REP SYSDB_SVC_PROTO pr]).
Proof.
  unfold svc_update_msg; destruct al as [| a al].
  - rewrite add_strings_fresh by reflexivity; reflexivity.
  - rewrite (add_strings_fresh SYSDB_NAME_ALIAS) by reflexivity.
    rewrite add_strings_fresh by reflexivity; reflexivity.
Qed.

Lemma svc_add_msg_elements (d : ldb_dn) (pn : string) (port : Z)
  (al pr : list string) (created : Z) :
  svc_add_msg d pn port al pr created
  = mk_msg d
      (mk_el LDB_FLAG_MOD_ADD SYSDB_OBJECTCLASS [SYSDB_SVC_CLASS]
       :: mk_el LDB_FLAG_MOD_ADD SYSDB_NAME [pn]
       :: mk_el LDB_FLAG_MOD_ADD SYSDB_SVC_PORT [fmt_decimal (to_ulong port)]
       :: alias_element LDB_FLAG_MOD_ADD al
       ++ [mk_el LDB_FLAG_MOD_ADD SYSDB_SVC_PROTO pr;
           mk_el LDB_FLAG_MOD_ADD SYSDB_CREATE_TIME
             [fmt_decimal (to_ulong created)]]).
Proof.
  unfold svc_add_msg; destruct al as [| a al].
  - rewrite add_strings_fresh by reflexivity; reflexivity.
  - rewrite (add_strings_fresh SYSDB_NAME_ALIAS) by reflexivity.
    rewrite add_strings_fresh by reflexivity; reflexivity.
Qed.

(** ** What an update writes *)

Arguments el_set : simpl never.

Lemma svc_update_step (d : ldb_dn) (port : Z) (al pr : list string)
  (w w' : sysdb_ctx) :
  sysdb_svc_update d port al pr w = (w', Ok tt) ->
  entries_step d (updated_values port al pr) (ldb w) (ldb w')
  /\ existsb (dn_eqb d) (ldb w) = true
  /\ map dn (ldb w') = map dn (ldb w)
  /\ pr <> [].
Proof.
  unfold sysdb_svc_update; destruct pr as [| p pr]; [discriminate |].
  intros E; rewrite svc_update_msg_elements in E.
  apply modify_step with (f := updated_values port al (p :: pr)) in E.
  - simpl in E; destruct E as (S & X & D).
    split; [exact S | split; [exact X | split; [exact D | discriminate]]].
  - intros els els'; destruct al as [| a al]; simpl;
      intros A; inversion A; subst; intros x;
      repeat rewrite el_find_set; destruct x; reflexivity.
Qed.

Lemma timestamps_step (d : ldb_dn) (ct now : Z) (w w' : sysdb_ctx) :
  store_timestamps d ct now w = (w', Ok tt) ->
  entries_step d (stamped_values ct now) (ldb w) (ldb w')
  /\ existsb (dn_eqb d) (ldb w) = true
  /\ map dn (ldb w') = map dn (ldb w).
Proof.
  unfold store_timestamps, sysdb_set_entry_attr; simpl; intros E.
  apply modify_step with (f := stamped_values ct now) in E; [exact E |].
  intros els els'; simpl; intros A; inversion A; subst; intros x.
  repeat rewrite el_find_set; destruct x; reflexivity.
Qed.

Lemma remove_alias_step (d : ldb_dn) (alias : string) (w w' : sysdb_ctx) :
  sysdb_svc_remove_alias d alias w = (w', Ok tt) ->
  entries_step d (without_alias alias) (ldb w) (ldb w')
  /\ existsb (dn_eqb d) (ldb w) = true
  /\ map dn (ldb w') = map dn (ldb w).
Proof.
  unfold sysdb_svc_remove_alias; intros E.
  apply modify_step with (f := without_alias alias) in E; [exact E |].
  intros els els'; simpl; unfold apply_mod; simpl.
  destruct (mem alias (el_find SYSDB_NAME_ALIAS els) && true);
    [| discriminate].
  intros A; inversion A; subst; intros x.
  rewrite el_find_set; destruct x; reflexivity.
Qed.

(** ** The stages of a successful write *)

Lemma done_result (flag : bool) (r r' : result unit) (w w' : sysdb_ctx) :
  done flag r w = (w', r') -> r' = r.
Proof.
  unfold done; destruct flag; [| intros E; inversion E; reflexivity].
  destruct (sysdb_transaction_cancel w); intros E; inversion E; reflexivity.
Qed.

Lemma store_service_stages (pn : string) (port : Z) (al pr : list string)
  (ct now : Z) (w w' : sysdb_ctx) :
  sysdb_store_service pn port al pr ct now w = (w', Ok tt) ->
  exists w1 w2 w3 w4 update_dn d,
    sysdb_transaction_start w = (w1, Ok tt)
    /\ store_passes pn port w1 = (w2, Ok update_dn)
    /\ store_apply pn port al pr update_dn w2 = (w3, Ok d)
    /\ store_timestamps d ct now w3 = (w4, Ok tt)
    /\ sysdb_transaction_commit w4 = (w', Ok tt).
Proof.
  unfold sysdb_store_service.
  destruct (sysdb_transaction_start w) as [w1 [[] | e1]] eqn:S;
    [| intros E; apply done_result in E; discriminate].
  destruct (store_steps pn port al pr ct now w1) as [w4 [[] | e]] eqn:B;
    [| intros E; apply done_result in E; discriminate].
  destruct (sysdb_transaction_commit w4) as [w5 [[] | e]] eqn:C;
    [| intros E; apply done_result in E; discriminate].
  simpl; intros E; inversion E; subst w5.
  unfold store_steps, bind in B.
  destruct (store_passes pn port w1) as [w2 [update_dn | e]] eqn:P;
    [| discriminate].
  destruct (store_apply pn port al pr update_dn w2) as [w3 [d | e]] eqn:A;
    [| discriminate].
  exists w1, w2, w3, w4, update_dn, d; auto.
Qed.

Lemma commit_keeps_entries (w w' : sysdb_ctx) (r : result unit) :
  sysdb_transaction_commit w = (w', r) -> ldb w' = ldb w.
Proof. intros E; apply (transaction_commit_cases _ _ _ E). Qed.

Lemma step_forward (d : ldb_dn) (f : attr_name -> list string -> list string)
  (db db' : list ldb_message) (m : ldb_message) :
  entries_step d f db db' -> In m db -> dn m = d ->
  exists m', In m' db' /\ dn m' = d
             /\ forall a, msg_values a m' = f a (msg_values a m).
Proof.
  intros [Fw _] I D; destruct (Fw m I) as (m' & I' & D' & R).
  unfold dn_eqb in R; rewrite D, String.eqb_refl in R.
  exists m'; repeat split; auto; congruence.
Qed.

(** C4, as amended.  When a write that succeeds has found an entry to
    update (the two passes end with [update_dn] set to [d]), every entry
    of that identifier ends with the incoming port and the incoming
    protocols in place of its own, with the incoming aliases in place of
    its own when there is an incoming alias, and with its own aliases
    when the incoming list is empty; its name is kept. *)
Theorem update_replaces_port_and_protocols (pn : string) (port : Z)
  (al pr : list string) (ct now : Z) (w w' : sysdb_ctx) (d : ldb_dn)
  (m : ldb_message) :
  sysdb_store_service pn port al pr ct now w = (w', Ok tt) ->
  let passed := store_passes pn port (fst (sysdb_transaction_start w)) in
  snd passed = Ok (Some d) ->
  In m (ldb (fst passed)) -> dn m = d ->
  exists m',
    In m' (ldb w') /\ dn m' = d
    /\ msg_values SYSDB_SVC_PORT m' = [fmt_decimal (to_ulong port)]
    /\ msg_values SYSDB_SVC_PROTO m' = pr
    /\ msg_values SYSDB_NAME_ALIAS m'
       = match al with
         | [] => msg_values SYSDB_NAME_ALIAS m
         | _ => al
         end
    /\ msg_values SYSDB_NAME m' = msg_values SYSDB_NAME m.
Proof.
  intros E passed; subst passed.
  destruct (store_service_stages _ _ _ _ _ _ _ _ E)
    as (w1 & w2 & w3 & w4 & update_dn & d' & S & P & A & T & C).
  rewrite S; simpl; rewrite P; simpl.
  intros U I D; inversion U; subst update_dn.
  simpl in A; unfold bind in A.
  destruct (sysdb_svc_update d port al pr w2) as [w3' [[] | e]] eqn:Up;
    inversion A; subst w3' d'.
  destruct (svc_update_step _ _ _ _ _ _ Up) as (S3 & _).
  destruct (timestamps_step _ _ _ _ _ T) as (S4 & _).
  destruct (step_forward _ _ _ _ m S3 I D) as (m3 & I3 & D3 & V3).
  destruct (step_forward _ _ _ _ m3 S4 I3 D3) as (m4 & I4 & D4 & V4).
  exists m4; rewrite (commit_keeps_entries _ _ _ C).
  repeat split; auto; rewrite V4, V3; reflexivity.
Qed.

(** ** The entry a write applies *)

Lemma tracked_delete (pn : string) (d d' : ldb_dn) (db : list ldb_message) :
  tracked pn d db ->
  tracked pn d (filter (fun m => negb (dn_eqb d' m)) db).
Proof.
  intros [(m & I & D & N) | None].
  - destruct (String.eqb_spec d d') as [-> | Ne].
    + right; intros x Ix; apply filter_In in Ix; destruct Ix as [_ Ix].
      unfold dn_eqb in Ix; intros Dx; rewrite Dx, String.eqb_refl in Ix.
      discriminate.
    + left; exists m; repeat split; auto.
      apply filter_In; split; [exact I |].
      unfold dn_eqb; rewrite D.
      destruct (String.eqb_spec d d'); [contradiction | reflexivity].
  - right; intros x Ix; apply filter_In in Ix; apply None, Ix.
Qed.

Lemma tracked_step (pn : string) (d d' : ldb_dn)
  (f : attr_name -> list string -> list string)
  (db db' : list ldb_message) :
  entries_step d' f db db' ->
  (forall old, f SYSDB_NAME old = old) ->
  tracked pn d db -> tracked pn d db'.
Proof.
  intros [Fw Bw] Keep [(m & I & D & N) | None].
  - left; destruct (Fw m I) as (m' & I' & D' & R).
    exists m'; repeat split; auto; [congruence |].
    destruct (dn_eqb d' m); [| subst; exact N].
    unfold find_name, ldb_msg_find_attr_as_string, msg_values in *.
    rewrite (R SYSDB_NAME), Keep; exact N.
  - right; intros m' I'; destruct (Bw m' I') as (m & I & D & _).
    rewrite D; apply None, I.
Qed.

Lemma delete_entry_tracked (pn : string) (d : ldb_dn) (flag : bool)
  (w w' : sysdb_ctx) (r : result unit) :
  sysdb_delete_entry d flag w = (w', r) -> keeps_tracked pn w w'.
Proof.
  intros E d0 T; destruct (delete_cases _ _ _ _ E) as
    [(_ & ->) | (e & _ & ->)]; [apply tracked_delete |]; exact T.
Qed.

Lemma remove_alias_tracked (pn : string) (d : ldb_dn) (alias : string)
  (w w' : sysdb_ctx) :
  sysdb_svc_remove_alias d alias w = (w', Ok tt) -> keeps_tracked pn w w'.
Proof.
  intros E d0 T; destruct (remove_alias_step _ _ _ _ E) as (S & _).
  eapply tracked_step; eauto.
Qed.

Lemma name_loop_tracked (pn : string) (msgs : ldb_result) :
  forall update_dn w w' r,
    store_name_loop pn msgs update_dn w = (w', Ok r) ->
    (forall m, In m msgs -> find_name m = Some pn ->
               tracked pn (dn m) (ldb w)) ->
    (forall d, update_dn = Some d -> tracked pn d (ldb w)) ->
    forall d, r = Some d -> tracked pn d (ldb w').
Proof.
  induction msgs as [| m rest IH]; intros update_dn w w' r; simpl.
  - intros E _ U d R; inversion E; subst; auto.
  - fold (find_name m); destruct (find_name m) as [name |] eqn:N.
    + destruct (String.eqb_spec name pn) as [-> | Ne].
      * destruct update_dn as [previous |].
        -- unfold bind.
           destruct (sysdb_delete_entry previous true w)
             as [w1 [[] | e]] eqn:D1; [| discriminate].
           destruct (sysdb_delete_entry (dn m) true w1)
             as [w2 [[] | e]] eqn:D2; [| discriminate].
           intros E Hm _; eapply IH; eauto; [| discriminate].
           intros x Ix Nx.
           eapply delete_entry_tracked; eauto.
           eapply delete_entry_tracked; eauto.
        -- intros E Hm _; eapply IH; eauto.
           intros d0 U; inversion U; subst; auto.
      * unfold bind.
        destruct (sysdb_svc_remove_alias (dn m) pn w)
          as [w1 [[] | e]] eqn:R1; [| discriminate].
        intros E Hm U; eapply IH; eauto.
        -- intros x Ix Nx; eapply remove_alias_tracked; eauto.
        -- intros d0 U0; eapply remove_alias_tracked; eauto.
    + unfold bind.
      destruct (sysdb_delete_entry (dn m) true w)
        as [w1 [[] | e]] eqn:D1; [| discriminate].
      intros E Hm U; eapply IH; eauto.
      * intros x Ix Nx; eapply delete_entry_tracked; eauto.
      * intros d0 U0; eapply delete_entry_tracked; eauto.
Qed.

(** What a lookup returns when it returns entries. *)
Lemma sanitize_cases (s : string) (w w' : sysdb_ctx) (s' : string) :
  sss_filter_sanitize s w = (w', Ok s') -> s' = s /\ ldb w' = ldb w.
Proof.
  intros E; destruct (collaborator_cases _ _ _ _ _ E) as
    [(e & R & _) | (w0 & w1 & E1 & L & _ & _ & ->)]; [discriminate |].
  inversion E1; subst; auto.
Qed.

Lemma sanitize_proto_cases (proto : option string) (w w' : sysdb_ctx)
  (p' : option string) :
  sanitize_proto proto w = (w', Ok p') -> p' = proto /\ ldb w' = ldb w.
Proof.
  destruct proto as [p |]; simpl.
  - unfold bind; destruct (sss_filter_sanitize p w) as [w1 [s |]] eqn:S;
      [| discriminate].
    intros E; inversion E; subst.
    destruct (sanitize_cases _ _ _ _ S) as [-> L]; auto.
  - intros E; inversion E; auto.
Qed.

Lemma search_cases (f : ldb_message -> bool) (w w' : sysdb_ctx)
  (res : ldb_result) :
  ldb_search f w = (w', Ok res) -> res = filter f (ldb w) /\ ldb w' = ldb w.
Proof.
  intros E; destruct (collaborator_cases _ _ _ _ _ E) as
    [(e & R & _) | (w0 & w1 & E1 & L & _ & _ & ->)]; [discriminate |].
  inversion E1; subst; rewrite L; auto.
Qed.

Lemma found_cases (res res' : ldb_result) (w w' : sysdb_ctx) :
  found res w = (w', Ok res') -> res' = res /\ w' = w /\ res <> [].
Proof.
  destruct res; simpl; intros E; inversion E; subst.
  repeat split; discriminate.
Qed.

Lemma getservbyname_cases (name : string) (proto : option string)
  (w w' : sysdb_ctx) (res : ldb_result) :
  sysdb_getservbyname name proto w = (w', Ok res) ->
  res = filter (SYSDB_SVC_BYNAME_FILTER proto name name) (ldb w)
  /\ ldb w' = ldb w /\ res <> [].
Proof.
  unfold sysdb_getservbyname, bind.
  destruct (sss_filter_sanitize name w) as [w1 [s |]] eqn:S; [| discriminate].
  destruct (sanitize_cases _ _ _ _ S) as [-> L1].
  destruct (sanitize_proto proto w1) as [w2 [p |]] eqn:P; [| discriminate].
  destruct (sanitize_proto_cases _ _ _ _ P) as [-> L2].
  destruct (ldb_search _ w2) as [w3 [found_res |]] eqn:Q; [| discriminate].
  destruct (search_cases _ _ _ _ Q) as [-> L3].
  intros E; destruct (found_cases _ _ _ _ E) as (-> & -> & Ne).
  rewrite L3, L2, L1 in *; auto.
Qed.

Lemma getservbyport_cases (port : Z) (proto : option string)
  (w w' : sysdb_ctx) (res : ldb_result) :
  sysdb_getservbyport port proto w = (w', Ok res) ->
  res = filter (SYSDB_SVC_BYPORT_FILTER proto (to_uint port)) (ldb w)
  /\ ldb w' = ldb w /\ res <> [] /\ 0 < port.
Proof.
  unfold sysdb_getservbyport, bind.
  destruct (port <=? 0) eqn:Pos; [discriminate |]; apply Z.leb_gt in Pos.
  destruct (sanitize_proto proto w) as [w2 [p |]] eqn:P; [| discriminate].
  destruct (sanitize_proto_cases _ _ _ _ P) as [-> L2].
  destruct (ldb_search _ w2) as [w3 [found_res |]] eqn:Q; [| discriminate].
  destruct (search_cases _ _ _ _ Q) as [-> L3].
  intros E; destruct (found_cases _ _ _ _ E) as (-> & -> & Ne).
  rewrite L3, L2 in *; auto.
Qed.

Lemma found_result (res : ldb_result) (w : sysdb_ctx) :
  (snd (found res w) = Fail ENOENT <-> res = [])
  /\ (res <> [] -> snd (found res w) = Ok res).
Proof.
  destruct res; simpl; split; try tauto; split; intros; congruence.
Qed.

(** C8. [sysdb_getservbyport] answers [EINVAL] to a port that is not
    positive without calling a collaborator (the context is returned as
    it was); both lookups leave the entries and the open transactions as
    they were on every run; whenever a lookup returns entries, they are
    all the entries that match, and there is one at least; and when the
    collaborators do not fail, each lookup answers [ENOENT] exactly when
    the search matches no entry and otherwise returns the matches. *)
Theorem lookup_answers :
  (forall port proto w,
      port <= 0 -> sysdb_getservbyport port proto w = (w, Fail EINVAL))
  /\ (forall port proto w,
         ldb (fst (sysdb_getservbyport port proto w)) = ldb w
         /\ txn (fst (sysdb_getservbyport port proto w)) = txn w)
  /\ (forall name proto w,
         ldb (fst (sysdb_getservbyname name proto w)) = ldb w
         /\ txn (fst (sysdb_getservbyname name proto w)) = txn w)
  /\ (forall port proto w res,
         snd (sysdb_getservbyport port proto w) = Ok res ->
         res = filter (SYSDB_SVC_BYPORT_FILTER proto (to_uint port)) (ldb w)
         /\ res <> [])
  /\ (forall name proto w res,
         snd (sysdb_getservbyname name proto w) = Ok res ->
         res = filter (SYSDB_SVC_BYNAME_FILTER proto name name) (ldb w)
         /\ res <> [])
  /\ (forall port proto w,
         faults w = [] -> 0 < port ->
         let matches :=
           filter (SYSDB_SVC_BYPORT_FILTER proto (to_uint port)) (ldb w) in
         (snd (sysdb_getservbyport port proto w) = Fail ENOENT
          <-> matches = [])
         /\ (matches <> [] ->
             snd (sysdb_getservbyport port proto w) = Ok matches))
  /\ (forall name proto w,
         faults w = [] ->
         let matches :=
           filter (SYSDB_SVC_BYNAME_FILTER proto name name) (ldb w) in
         (snd (sysdb_getservbyname name proto w) = Fail ENOENT
          <-> matches = [])
         /\ (matches <> [] ->
             snd (sysdb_getservbyname name proto w) = Ok matches)).
Proof.
  split; [| split; [| split; [| split; [| split; [| split]]]]].
  - intros port proto w P; unfold sysdb_getservbyport.
    destruct (port <=? 0) eqn:E; [reflexivity |].
    apply Z.leb_gt in E; lia.
  - intros port proto w.
    destruct (sysdb_getservbyport port proto w) as [w' r] eqn:E.
    destruct (read_only_getservbyport _ _ _ _ _ E) as [Fr L].
    split; [exact L | apply Fr].
  - intros name proto w.
    destruct (sysdb_getservbyname name proto w) as [w' r] eqn:E.
    destruct (read_only_getservbyname _ _ _ _ _ E) as [Fr L].
    split; [exact L | apply Fr].
  - intros port proto w res.
    destruct (sysdb_getservbyport port proto w) as [w' r] eqn:E.
    simpl; intros ->.
    destruct (getservbyport_cases _ _ _ _ _ E) as (R & _ & Ne & _); auto.
  - intros name proto w res.
    destruct (sysdb_getservbyname name proto w) as [w' r] eqn:E.
    simpl; intros ->.
    destruct (getservbyname_cases _ _ _ _ _ E) as (R & _ & Ne); auto.
  - intros port proto w F P matches; subst matches.
    rewrite getservbyport_quiet by assumption; apply found_result.
  - intros name proto w F matches; subst matches.
    rewrite getservbyname_quiet by assumption; apply found_result.
Qed.

Lemma or_enoent_cases (lookup : M ldb_result) (w w' : sysdb_ctx)
  (r : option ldb_result) :
  or_enoent lookup w = (w', Ok r) ->
  match r with
  | Some res => lookup w = (w', Ok res)
  | None => lookup w = (w', Fail ENOENT)
  end.
Proof.
  unfold or_enoent; destruct (lookup w) as [w1 [res | e]].
  - intros E; inversion E; reflexivity.
  - destruct (e =? ENOENT) eqn:Ee; intros E; inversion E; subst.
    apply Z.eqb_eq in Ee; subst; reflexivity.
Qed.

Lemma name_pass_tracked (pn : string) (w w' : sysdb_ctx) (d : ldb_dn) :
  store_name_pass pn w = (w', Ok (Some d)) -> tracked pn d (ldb w').
Proof.
  unfold store_name_pass, bind.
  destruct (or_enoent (sysdb_getservbyname pn None) w)
    as [w1 [[res |] | e]] eqn:Q; try discriminate.
  apply or_enoent_cases in Q.
  destruct (getservbyname_cases _ _ _ _ _ Q) as (R & L & _).
  intros E; eapply name_loop_tracked; eauto; [| discriminate].
  intros m I N; left; exists m; repeat split; auto.
  rewrite L; rewrite R in I; apply filter_In in I; tauto.
Qed.

Lemma passes_tracked (pn : string) (port : Z) (w w' : sysdb_ctx)
  (d : ldb_dn) :
  store_passes pn port w = (w', Ok (Some d)) -> tracked pn d (ldb w').
Proof.
  unfold store_passes, bind.
  destruct (store_port_pass pn port w) as [w1 [[] | e]]; [| discriminate].
  apply name_pass_tracked.
Qed.

(** The port pass only goes on with a positive port. *)
Lemma port_pass_positive (pn : string) (port : Z) (w w' : sysdb_ctx) :
  store_port_pass pn port w = (w', Ok tt) -> 0 < port.
Proof.
  unfold store_port_pass, bind.
  destruct (or_enoent (sysdb_getservbyport port None) w)
    as [w1 [r | e]] eqn:Q; [| discriminate].
  intros _; revert Q; unfold or_enoent, sysdb_getservbyport.
  destruct (port <=? 0) eqn:Pos; [| apply Z.leb_gt in Pos; auto].
  simpl; discriminate.
Qed.

Lemma passes_positive (pn : string) (port : Z) (w w' : sysdb_ctx)
  (update_dn : option ldb_dn) :
  store_passes pn port w = (w', Ok update_dn) -> 0 < port.
Proof.
  unfold store_passes, bind.
  destruct (store_port_pass pn port w) as [w1 [[] | e]] eqn:P;
    [| discriminate].
  intros _; eapply port_pass_positive; eauto.
Qed.

Lemma svc_add_cases (pn : string) (port : Z) (al pr : list string)
  (w w' : sysdb_ctx) (d : ldb_dn) :
  sysdb_svc_add pn port al pr w = (w', Ok d) ->
  exists created,
    ldb w' = ldb w ++ [svc_add_msg d pn port al pr created]
    /\ existsb (dn_eqb d) (ldb w) = false
    /\ pr <> [].
Proof.
  unfold sysdb_svc_add, sysdb_svc_dn.
  destruct (sysdb_dn_sanitize pn w) as [w1 [clean | e]] eqn:S;
    [| discriminate].
  unfold bind.
  destruct (ldb_add _ w1) as [w2 [[] | e]] eqn:A; [| discriminate].
  intros E; inversion E; subst.
  destruct (add_cases _ _ _ _ A) as [(_ & L & X & V) | (e & R & _)];
    [| discriminate].
  assert (L1 : ldb w1 = ldb w).
  { destruct (collaborator_cases _ _ _ _ _ S) as
      [(e & R & _) | (w0 & w3 & E1 & L0 & _ & _ & ->)]; [discriminate |].
    inversion E1; subst; exact L0. }
  exists (clock w1); rewrite L, L1 in *; repeat split; auto.
  - rewrite svc_add_msg_elements in X; exact X.
  - intros ->; rewrite svc_add_msg_elements in V.
    destruct al; simpl in V; discriminate.
Qed.

Lemma svc_add_msg_applied (d : ldb_dn) (pn : string) (port : Z)
  (al pr : list string) (created : Z) :
  applied_entry pn port pr d (svc_add_msg d pn port al pr created).
Proof.
  rewrite svc_add_msg_elements; destruct al; repeat split.
Qed.

Lemma apply_applied (pn : string) (port : Z) (al pr : list string)
  (update_dn : option ldb_dn) (w w' : sysdb_ctx) (d : ldb_dn) :
  store_apply pn port al pr update_dn w = (w', Ok d) ->
  (forall d0, update_dn = Some d0 -> tracked pn d0 (ldb w)) ->
  pr <> [] /\ exists m, In m (ldb w') /\ applied_entry pn port pr d m.
Proof.
  destruct update_dn as [d0 |]; simpl.
  - unfold bind.
    destruct (sysdb_svc_update d0 port al pr w) as [w1 [[] | e]] eqn:U;
      [| discriminate].
    intros E T; inversion E; subst.
    destruct (svc_update_step _ _ _ _ _ _ U) as (S & X & _ & Ne).
    split; [exact Ne |].
    destruct (T d eq_refl) as [(m & I & D & N) | None].
    + destruct (step_forward _ _ _ _ m S I D) as (m' & I' & D' & V).
      exists m'; split; [exact I' |].
      unfold applied_entry, find_name, ldb_msg_find_attr_as_string in *.
      repeat split; auto; rewrite V; auto.
    + exfalso; apply dn_present in X; destruct X as (m & I & D).
      exact (None m I D).
  - intros E _; destruct (svc_add_cases _ _ _ _ _ _ _ E)
      as (created & L & _ & Ne).
    split; [exact Ne |].
    exists (svc_add_msg d pn port al pr created); split.
    + rewrite L; apply in_or_app; right; left; reflexivity.
    + apply svc_add_msg_applied.
Qed.

(** The record a successful write leaves. *)
Lemma store_service_applied (pn : string) (port : Z) (al pr : list string)
  (ct now : Z) (w w' : sysdb_ctx) :
  sysdb_store_service pn port al pr ct now w = (w', Ok tt) ->
  0 < port /\ pr <> []
  /\ exists m d,
       In m (ldb w') /\ applied_entry pn port pr d m
       /\ msg_values SYSDB_LAST_UPDATE m = [fmt_decimal now]
       /\ msg_values SYSDB_CACHE_EXPIRE m
          = [fmt_decimal (cache_expire ct now)].
Proof.
  intros E; destruct (store_service_stages _ _ _ _ _ _ _ _ E)
    as (w1 & w2 & w3 & w4 & update_dn & d & S & P & A & T & C).
  split; [eapply passes_positive; eauto |].
  destruct (apply_applied _ _ _ _ _ _ _ _ A) as (Ne & m & I & D & N & Vp & Vr).
  { intros d0 ->; eapply passes_tracked; eauto. }
  split; [exact Ne |].
  destruct (timestamps_step _ _ _ _ _ T) as (S4 & _).
  destruct (step_forward _ _ _ _ m S4 I D) as (m4 & I4 & D4 & V4).
  exists m4, d; rewrite (commit_keeps_entries _ _ _ C).
  unfold applied_entry, find_name, ldb_msg_find_attr_as_string in *.
  repeat split; auto; rewrite V4; auto.
Qed.

(** An entry that carries a name and a protocol is found by that name. *)
Lemma named_entry_matches (pn : string) (m : ldb_message) :
  find_name m = Some pn -> msg_values SYSDB_SVC_PROTO m <> [] ->
  SYSDB_SVC_BYNAME_FILTER None pn pn m = true.
Proof.
  unfold find_name, ldb_msg_find_attr_as_string, SYSDB_SVC_BYNAME_FILTER.
  unfold proto_filter; intros N Pr.
  destruct (msg_values SYSDB_SVC_PROTO m); [congruence |]; simpl.
  destruct (msg_values SYSDB_NAME m) as [| n names]; [discriminate |].
  inversion N; subst; unfold mem at 2; simpl; rewrite String.eqb_refl.
  apply orb_true_r.
Qed.




(** ** Aliases against primary names *)

Lemma mem_In (v : string) (vs : list string) : mem v vs = true <-> In v vs.
Proof.
  unfold mem; rewrite existsb_exists; split.
  - intros (x & I & E); apply String.eqb_eq in E; subst; exact I.
  - intros I; exists v; split; [exact I | apply String.eqb_refl].
Qed.

Lemma offending_matches (pn : string) (m : ldb_message) :
  offending pn m -> SYSDB_SVC_BYNAME_FILTER None pn pn m = true.
Proof.
  intros (Pr & _ & Al); unfold SYSDB_SVC_BYNAME_FILTER, proto_filter.
  destruct (msg_values SYSDB_SVC_PROTO m); [congruence |]; simpl.
  apply orb_true_iff; left; apply mem_In; exact Al.
Qed.

Lemma delete_entry_ok (d : ldb_dn) (flag : bool) (w w' : sysdb_ctx) :
  sysdb_delete_entry d flag w = (w', Ok tt) ->
  ldb w' = filter (fun m => negb (dn_eqb d m)) (ldb w).
Proof.
  intros E; destruct (delete_cases _ _ _ _ E) as [(_ & L) | (e & R & _)];
    [exact L | discriminate].
Qed.

Lemma named_only_delete (pn : string) (d d' : ldb_dn)
  (db : list ldb_message) :
  named_only pn d db ->
  named_only pn d (filter (fun m => negb (dn_eqb d' m)) db).
Proof. intros H m I; apply filter_In in I; apply H, I. Qed.

Lemma named_only_step (pn : string) (d d' : ldb_dn)
  (f : attr_name -> list string -> list string)
  (db db' : list ldb_message) :
  entries_step d' f db db' ->
  (forall old, f SYSDB_NAME old = old) ->
  named_only pn d db -> named_only pn d db'.
Proof.
  intros [_ Bw] Keep H m' I' D'; destruct (Bw m' I') as (m & I & D & R).
  assert (N : find_name m = Some pn) by (apply H; congruence).
  destruct (dn_eqb d' m); [| subst; exact N].
  unfold find_name, ldb_msg_find_attr_as_string, msg_values in *.
  rewrite (R SYSDB_NAME), Keep; exact N.
Qed.

(** A change that keeps names, aliases and protocols makes no entry
    offending. *)
Lemma offending_step (pn : string) (d : ldb_dn)
  (f : attr_name -> list string -> list string)
  (db db' : list ldb_message) :
  entries_step d f db db' ->
  (forall old, f SYSDB_NAME old = old) ->
  (forall old, f SYSDB_NAME_ALIAS old = old) ->
  (forall old, f SYSDB_SVC_PROTO old = old) ->
  (forall m, In m db -> ~ offending pn m) ->
  forall m', In m' db' -> ~ offending pn m'.
Proof.
  intros [_ Bw] Kn Ka Kp H m' I' O; destruct (Bw m' I') as (m & I & D & R).
  apply (H m I); destruct (dn_eqb d m); [| subst; exact O].
  unfold offending, find_name, ldb_msg_find_attr_as_string, msg_values in *.
  rewrite (R SYSDB_NAME), (R SYSDB_NAME_ALIAS), (R SYSDB_SVC_PROTO) in O.
  rewrite Kn, Ka, Kp in O; exact O.
Qed.

Lemma name_loop_demotes (pn : string) (msgs : ldb_result) :
  forall update_dn w w' r,
    store_name_loop pn msgs update_dn w = (w', Ok r) ->
    (forall m, In m (ldb w) -> offending pn m -> In m msgs) ->
    (forall x, In x msgs -> find_name x = Some pn ->
               named_only pn (dn x) (ldb w)) ->
    (forall d, update_dn = Some d -> named_only pn d (ldb w)) ->
    (forall m, In m (ldb w') -> ~ offending pn m)
    /\ (forall d, r = Some d -> named_only pn d (ldb w')).
Proof.
  induction msgs as [| x rest IH]; intros update_dn w w' r; simpl.
  - intros E J _ U; inversion E; subst; split; [| exact U].
    intros m I O; exact (J m I O).
  - fold (find_name x); destruct (find_name x) as [name |] eqn:N.
    + destruct (String.eqb_spec name pn) as [-> | Ne].
      * destruct update_dn as [previous |].
        -- unfold bind.
           destruct (sysdb_delete_entry previous true w)
             as [w1 [[] | e]] eqn:D1; [| discriminate].
           destruct (sysdb_delete_entry (dn x) true w1)
             as [w2 [[] | e]] eqn:D2; [| discriminate].
           apply delete_entry_ok in D1, D2.
           intros E J Hx _; eapply IH; eauto; [| | discriminate].
           ++ intros m I O; rewrite D2 in I; apply filter_In in I.
              destruct I as [I Dm]; rewrite D1 in I; apply filter_In in I.
              destruct (J m (proj1 I) O) as [<- | Ir]; [| exact Ir].
              unfold dn_eqb in Dm; rewrite String.eqb_refl in Dm.
              discriminate.
           ++ intros y Iy Ny; rewrite D2, D1.
              apply named_only_delete, named_only_delete; auto.
        -- intros E J Hx _; eapply IH; eauto.
           ++ intros m I O; destruct (J m I O) as [<- | Ir]; [| exact Ir].
              destruct O as (_ & O & _); congruence.
           ++ intros d U; inversion U; subst; auto.
      * unfold bind.
        destruct (sysdb_svc_remove_alias (dn x) pn w)
          as [w1 [[] | e]] eqn:R1; [| discriminate].
        destruct (remove_alias_step _ _ _ _ R1) as (S & _).
        intros E J Hx U; eapply IH; eauto.
        -- intros m' I' O; destruct S as [_ Bw].
           destruct (Bw m' I') as (m & I & D & R).
           destruct (dn_eqb (dn x) m) eqn:Dx.
           ++ exfalso; destruct O as (_ & _ & O).
              unfold msg_values in O; rewrite (R SYSDB_NAME_ALIAS) in O.
              simpl in O; apply filter_In in O; destruct O as [_ O].
              unfold mem in O; simpl in O; rewrite String.eqb_refl in O.
              discriminate.
           ++ subst m'; destruct (J m I O) as [<- | Ir]; [| exact Ir].
              unfold dn_eqb in Dx; rewrite String.eqb_refl in Dx.
              discriminate.
        -- intros y Iy Ny; eapply named_only_step; eauto.
        -- intros d U0; eapply named_only_step; eauto.
    + unfold bind.
      destruct (sysdb_delete_entry (dn x) true w)
        as [w1 [[] | e]] eqn:D1; [| discriminate].
      apply delete_entry_ok in D1.
      intros E J Hx U; eapply IH; eauto.
      * intros m I O; rewrite D1 in I; apply filter_In in I.
        destruct I as [I Dm].
        destruct (J m I O) as [<- | Ir]; [| exact Ir].
        unfold dn_eqb in Dm; rewrite String.eqb_refl in Dm; discriminate.
      * intros y Iy Ny; rewrite D1; apply named_only_delete; auto.
      * intros d U0; rewrite D1; apply named_only_delete; auto.
Qed.

Lemma shrinks_refl (w w' : sysdb_ctx) : ldb w' = ldb w -> shrinks w w'.
Proof.
  intros L; exists (fun _ => true); rewrite L; symmetry.
  apply filter_all; reflexivity.
Qed.

Lemma shrinks_trans (w1 w2 w3 : sysdb_ctx) :
  shrinks w1 w2 -> shrinks w2 w3 -> shrinks w1 w3.
Proof.
  intros [g1 L1] [g2 L2]; exists (fun m => g1 m && g2 m).
  rewrite L2, L1; apply filter_filter.
Qed.

Lemma delete_entry_shrinks (d : ldb_dn) (flag : bool) (w w' : sysdb_ctx)
  (r : result unit) :
  sysdb_delete_entry d flag w = (w', r) -> shrinks w w'.
Proof.
  intros E; destruct (delete_cases _ _ _ _ E) as [(_ & L) | (e & _ & L)].
  - eexists; exact L.
  - apply shrinks_refl; exact L.
Qed.

Lemma delete_entries_shrinks (flag : bool) (msgs : ldb_result) :
  forall w w' r, delete_entries flag msgs w = (w', r) -> shrinks w w'.
Proof.
  induction msgs as [| m rest IH]; intros w w' r; simpl.
  - intros E; inversion E; subst; apply shrinks_refl; reflexivity.
  - unfold bind.
    destruct (sysdb_delete_entry (dn m) flag w) as [w1 [[] | e]] eqn:D;
      intros E.
    + eapply shrinks_trans; [eapply delete_entry_shrinks | eapply IH]; eauto.
    + inversion E; subst; eapply delete_entry_shrinks; eauto.
Qed.

Lemma port_pass_shrinks (pn : string) (port : Z) (w w' : sysdb_ctx)
  (r : result unit) :
  store_port_pass pn port w = (w', r) -> shrinks w w'.
Proof.
  unfold store_port_pass, bind.
  destruct (or_enoent (sysdb_getservbyport port None) w)
    as [w1 [found_res | e]] eqn:Q.
  - assert (L : ldb w1 = ldb w).
    { revert Q; unfold or_enoent.
      destruct (sysdb_getservbyport port None w) as [w0 [res | e]] eqn:G;
        destruct (read_only_getservbyport _ _ _ _ _ G) as [_ L0].
      - intros E; inversion E; subst; exact L0.
      - destruct (e =? ENOENT); intros E; inversion E; subst; exact L0. }
    intros E; apply (shrinks_trans w w1 w'); [apply shrinks_refl; exact L |].
    destruct found_res as [[| m [| m' rest]] |];
      try (inversion E; subst; apply shrinks_refl; reflexivity).
    + revert E; unfold logged_only.
      destruct (ldb_msg_find_attr_as_string m SYSDB_NAME) as [name |];
        [destruct (String.eqb name pn) |].
      * intros E; inversion E; subst; apply shrinks_refl; reflexivity.
      * destruct (sysdb_delete_entry (dn m) true w1) as [w2 r2] eqn:D.
        intros E; inversion E; subst; eapply delete_entry_shrinks; eauto.
      * destruct (sysdb_delete_entry (dn m) true w1) as [w2 r2] eqn:D.
        intros E; inversion E; subst; eapply delete_entry_shrinks; eauto.
    + eapply delete_entries_shrinks; eauto.
  - intros E; inversion E; subst.
    revert Q; unfold or_enoent.
    destruct (sysdb_getservbyport port None w) as [w0 [res | e0]] eqn:G;
      destruct (read_only_getservbyport _ _ _ _ _ G) as [_ L0].
    + discriminate.
    + destruct (e0 =? ENOENT); intros E'; inversion E'; subst.
      apply shrinks_refl; exact L0.
Qed.

Lemma filter_nil_none {A} (f : A -> bool) (l : list A) (x : A) :
  filter f l = [] -> In x l -> f x = false.
Proof.
  intros Z I; destruct (f x) eqn:Fx; [| reflexivity].
  assert (In x (filter f l)) as I' by (apply filter_In; auto).
  rewrite Z in I'; destruct I'.
Qed.

(** Without script and with distinct identifiers, the name pass leaves
    no entry offending, and names the entry to update. *)
Lemma name_pass_demotes (pn : string) (w w' : sysdb_ctx)
  (r : option ldb_dn) :
  faults w = [] -> NoDup (map dn (ldb w)) ->
  store_name_pass pn w = (w', Ok r) ->
  (forall m, In m (ldb w') -> ~ offending pn m)
  /\ (forall d, r = Some d -> named_only pn d (ldb w')).
Proof.
  intros F N; unfold store_name_pass, bind, or_enoent.
  rewrite getservbyname_quiet by exact F.
  destruct (filter (SYSDB_SVC_BYNAME_FILTER None pn pn) (ldb w))
    as [| x rest] eqn:Q.
  - simpl; intros E; inversion E; subst; simpl; split; [| discriminate].
    intros m I O; apply offending_matches in O.
    rewrite (filter_nil_none _ _ m Q I) in O; discriminate.
  - simpl found; unfold ret at 1; cbv iota beta.
    intros E; eapply name_loop_demotes in E; eauto; cbn [ldb log_call].
    + intros m I O; rewrite <- Q; apply filter_In; split; [exact I |].
      apply offending_matches; exact O.
    + intros y Iy Ny m I D.
      rewrite <- Q in Iy; apply filter_In in Iy.
      rewrite (same_dn_same_entry (ldb w) m y N I (proj1 Iy) D); exact Ny.
    + discriminate.
Qed.

(** ** An entry that stays *)

Lemma present_delete (a : ldb_message) (d : ldb_dn) (db : list ldb_message) :
  d <> dn a -> present a db ->
  present a (filter (fun m => negb (dn_eqb d m)) db).
Proof.
  intros Ne (a' & I & D & N & P); exists a'; repeat split; auto.
  apply filter_In; split; [exact I |].
  unfold dn_eqb; rewrite D.
  destruct (String.eqb_spec (dn a) d); [congruence | reflexivity].
Qed.

Lemma present_step (a : ldb_message) (d : ldb_dn)
  (f : attr_name -> list string -> list string)
  (db db' : list ldb_message) :
  entries_step d f db db' ->
  (forall old, f SYSDB_NAME old = old) ->
  (forall old, old <> [] -> f SYSDB_SVC_PROTO old <> []) ->
  present a db -> present a db'.
Proof.
  intros [Fw _] Kn Kp (a' & I & D & N & P).
  destruct (Fw a' I) as (a'' & I' & D' & R).
  exists a''; split; [exact I' | split; [congruence |]].
  destruct (dn_eqb d a'); [| subst; auto].
  unfold find_name, ldb_msg_find_attr_as_string, msg_values in *.
  rewrite (R SYSDB_NAME), (R SYSDB_SVC_PROTO), Kn; auto.
Qed.

Lemma delete_entry_keeps (a : ldb_message) (d : ldb_dn) (flag : bool)
  (w w' : sysdb_ctx) (r : result unit) :
  sysdb_delete_entry d flag w = (w', r) ->
  d <> dn a -> In a (ldb w) -> In a (ldb w').
Proof.
  intros D Ne I; destruct (delete_cases _ _ _ _ D) as
    [(_ & ->) | (e & _ & ->)]; [| exact I].
  apply filter_In; split; [exact I |]; unfold dn_eqb.
  destruct (String.eqb_spec (dn a) d); [congruence | reflexivity].
Qed.

Lemma delete_entries_keeps (a : ldb_message) (flag : bool)
  (msgs : ldb_result) :
  forall w w' r,
    delete_entries flag msgs w = (w', r) ->
    (forall x, In x msgs -> dn x <> dn a) ->
    In a (ldb w) -> In a (ldb w').
Proof.
  induction msgs as [| x rest IH]; intros w w' r; simpl.
  - intros E; inversion E; subst; auto.
  - unfold bind.
    destruct (sysdb_delete_entry (dn x) flag w) as [w1 r1] eqn:D.
    intros E H I.
    assert (I1 : In a (ldb w1))
      by (eapply delete_entry_keeps; eauto).
    destruct r1 as [[] | e].
    + eapply IH; eauto.
    + inversion E; subst; auto.
Qed.

(** Among distinct identifiers, the port pass keeps an entry that does
    not claim the port. *)
Lemma port_pass_keeps (a : ldb_message) (pn : string) (port : Z)
  (w w' : sysdb_ctx) (r : result unit) :
  store_port_pass pn port w = (w', r) ->
  NoDup (map dn (ldb w)) -> In a (ldb w) ->
  SYSDB_SVC_BYPORT_FILTER None (to_uint port) a = false ->
  In a (ldb w').
Proof.
  intros E N Ia Fa; revert E; unfold store_port_pass, bind.
  destruct (or_enoent (sysdb_getservbyport port None) w)
    as [w1 [found_res | e]] eqn:Q.
  - apply or_enoent_cases in Q; destruct found_res as [res |].
    + destruct (getservbyport_cases _ _ _ _ _ Q) as (R & L & _).
      assert (Other : forall x, In x res -> dn x <> dn a).
      { intros x Ix Dx; rewrite R in Ix; apply filter_In in Ix.
        rewrite (same_dn_same_entry (ldb w) x a N (proj1 Ix) Ia Dx) in Ix.
        destruct Ix; congruence. }
      assert (P : In a (ldb w1)) by (rewrite L; exact Ia).
      destruct res as [| m [| m' rest]].
      * intros E; inversion E; subst; exact P.
      * unfold logged_only.
        destruct (ldb_msg_find_attr_as_string m SYSDB_NAME) as [name |];
          [destruct (String.eqb name pn) |].
        -- intros E; inversion E; subst; exact P.
        -- destruct (sysdb_delete_entry (dn m) true w1) as [w2 r2] eqn:D.
           intros E; inversion E; subst.
           eapply delete_entry_keeps; eauto.
           apply Other; left; reflexivity.
        -- destruct (sysdb_delete_entry (dn m) true w1) as [w2 r2] eqn:D.
           intros E; inversion E; subst.
           eapply delete_entry_keeps; eauto.
           apply Other; left; reflexivity.
      * intros E; eapply delete_entries_keeps; eauto.
    + intros E; inversion E; subst.
      destruct (read_only_getservbyport _ _ _ _ _ Q) as [_ L].
      rewrite L; exact Ia.
  - intros E; inversion E; subst; revert Q; unfold or_enoent.
    destruct (sysdb_getservbyport port None w) as [w0 [res | e0]] eqn:G;
      destruct (read_only_getservbyport _ _ _ _ _ G) as [_ L0].
    + discriminate.
    + destruct (e0 =? ENOENT); intros E'; inversion E'; subst.
      rewrite L0; exact Ia.
Qed.

(** The name pass keeps an entry whose name is another one. *)
Lemma name_loop_keeps (a : ldb_message) (pn : string) (msgs : ldb_result) :
  forall update_dn w w' r,
    store_name_loop pn msgs update_dn w = (w', Ok r) ->
    (forall x, In x msgs -> dn x = dn a ->
               exists n, find_name x = Some n /\ n <> pn) ->
    (forall d, update_dn = Some d -> d <> dn a) ->
    present a (ldb w) -> present a (ldb w').
Proof.
  induction msgs as [| x rest IH]; intros update_dn w w' r; simpl.
  - intros E; inversion E; subst; auto.
  - fold (find_name x); destruct (find_name x) as [name |] eqn:Nx.
    + destruct (String.eqb_spec name pn) as [-> | Ne].
      * assert (Dx : (forall y, x = y \/ In y rest -> dn y = dn a ->
                        exists n, find_name y = Some n /\ n <> pn) ->
                     dn x <> dn a).
        { intros H D; destruct (H x (or_introl eq_refl) D) as (n & Hn & Nn).
          congruence. }
        destruct update_dn as [previous |].
        -- unfold bind.
           destruct (sysdb_delete_entry previous true w)
             as [w1 [[] | e]] eqn:D1; [| discriminate].
           destruct (sysdb_delete_entry (dn x) true w1)
             as [w2 [[] | e]] eqn:D2; [| discriminate].
           apply delete_entry_ok in D1, D2.
           intros E H U P; eapply IH; eauto; [discriminate |].
           rewrite D2, D1; apply present_delete; auto.
           apply present_delete; auto.
        -- intros E H U P; eapply IH; eauto.
           intros d Ud; inversion Ud; subst; auto.
      * unfold bind.
        destruct (sysdb_svc_remove_alias (dn x) pn w)
          as [w1 [[] | e]] eqn:R1; [| discriminate].
        destruct (remove_alias_step _ _ _ _ R1) as (S & _).
        intros E H U P; eapply IH; eauto.
        eapply present_step; eauto.
    + unfold bind.
      destruct (sysdb_delete_entry (dn x) true w)
        as [w1 [[] | e]] eqn:D1; [| discriminate].
      apply delete_entry_ok in D1.
      intros E H U P; eapply IH; eauto.
      rewrite D1; apply present_delete; auto.
      intros D; destruct (H x (or_introl eq_refl) D) as (n & Hn & _).
      congruence.
Qed.

Lemma present_self (a : ldb_message) (db : list ldb_message) :
  In a db -> msg_values SYSDB_SVC_PROTO a <> [] -> present a db.
Proof. intros I P; exists a; auto. Qed.

Lemma name_pass_keeps (a : ldb_message) (pn na : string)
  (w w' : sysdb_ctx) (r : option ldb_dn) :
  store_name_pass pn w = (w', Ok r) ->
  NoDup (map dn (ldb w)) -> In a (ldb w) ->
  find_name a = Some na -> na <> pn ->
  msg_values SYSDB_SVC_PROTO a <> [] ->
  present a (ldb w').
Proof.
  intros E N Ia Na Ne Pa; revert E; unfold store_name_pass, bind.
  destruct (or_enoent (sysdb_getservbyname pn None) w)
    as [w1 [found_res | e]] eqn:Q; [| discriminate].
  apply or_enoent_cases in Q; destruct found_res as [res |].
  - destruct (getservbyname_cases _ _ _ _ _ Q) as (R & L & _).
    intros E; eapply name_loop_keeps; eauto.
    + intros x Ix Dx; rewrite R in Ix; apply filter_In in Ix.
      rewrite (same_dn_same_entry (ldb w) x a N (proj1 Ix) Ia Dx).
      exists na; auto.
    + discriminate.
    + rewrite L; apply present_self; auto.
  - intros E; inversion E; subst.
    destruct (read_only_getservbyname _ _ _ _ _ Q) as [_ L].
    rewrite L; apply present_self; auto.
Qed.

Lemma add_msg_named (d : ldb_dn) (pn : string) (port : Z)
  (al pr : list string) (created : Z) :
  find_name (svc_add_msg d pn port al pr created) = Some pn.
Proof. apply (svc_add_msg_applied d pn port al pr created). Qed.

Lemma apply_demotes (pn : string) (port : Z) (al pr : list string)
  (update_dn : option ldb_dn) (w w' : sysdb_ctx) (d : ldb_dn) :
  store_apply pn port al pr update_dn w = (w', Ok d) ->
  (forall m, In m (ldb w) -> ~ offending pn m) ->
  (forall d0, update_dn = Some d0 -> named_only pn d0 (ldb w)) ->
  forall m, In m (ldb w') -> ~ offending pn m.
Proof.
  destruct update_dn as [d0 |]; simpl.
  - unfold bind.
    destruct (sysdb_svc_update d0 port al pr w) as [w1 [[] | e]] eqn:U;
      [| discriminate].
    intros E H T m' I' O; inversion E; subst.
    destruct (svc_update_step _ _ _ _ _ _ U) as ([_ Bw] & _).
    destruct (Bw m' I') as (m & I & D & R).
    destruct (dn_eqb d m) eqn:Dm; [| subst; exact (H m I O)].
    unfold dn_eqb in Dm; apply String.eqb_eq in Dm.
    destruct O as (_ & O & _); apply O.
    pose proof (T d eq_refl m I Dm) as Nm.
    unfold find_name, ldb_msg_find_attr_as_string, msg_values in *.
    rewrite (R SYSDB_NAME); exact Nm.
  - intros E H _ m' I' O.
    destruct (svc_add_cases _ _ _ _ _ _ _ E) as (created & L & _).
    rewrite L in I'; apply in_app_or in I'; destruct I' as [I' | [<- | []]].
    + exact (H m' I' O).
    + destruct O as (_ & O & _); apply O, add_msg_named.
Qed.

Lemma apply_keeps (a : ldb_message) (pn : string) (port : Z)
  (al pr : list string) (update_dn : option ldb_dn) (w w' : sysdb_ctx)
  (d : ldb_dn) :
  store_apply pn port al pr update_dn w = (w', Ok d) ->
  present a (ldb w) -> present a (ldb w').
Proof.
  destruct update_dn as [d0 |]; simpl.
  - unfold bind.
    destruct (sysdb_svc_update d0 port al pr w) as [w1 [[] | e]] eqn:U;
      [| discriminate].
    intros E P; inversion E; subst.
    destruct (svc_update_step _ _ _ _ _ _ U) as (S & _ & _ & Ne).
    eapply present_step; eauto.
  - intros E (a' & I & R).
    destruct (svc_add_cases _ _ _ _ _ _ _ E) as (created & L & _).
    exists a'; split; [| exact R].
    rewrite L; apply in_or_app; left; exact I.
Qed.

Lemma commit_stays_quiet (w w' : sysdb_ctx) (r : result unit) :
  sysdb_transaction_commit w = (w', r) -> faults w = [] -> faults w' = [].
Proof.
  intros E F; destruct (collaborator_cases _ _ _ _ _ E) as
    [(e & _ & _ & Fn & _) | (w0 & w1 & E1 & _ & Fr & _ & ->)];
    [congruence |].
  destruct Fr as (_ & _ & _ & Fq); specialize (Fq F).
  destruct (txn w0); inversion E1; subst; exact Fq.
Qed.

(** C6.  The collaborators do not fail, the identifiers of the entries
    are distinct, and an entry [a] named [na] and seen by the lookups
    has [pn] among its aliases.  After a successful write of the name
    [pn]: no entry seen by the lookups and not named [pn] has [pn]
    among its aliases; unless it claimed the port written, [a] is still
    there under its identifier and its name, without the alias [pn]; and
    an entry named [pn] exists and is returned by a lookup of [pn]. *)
Theorem alias_demoted (pn na : string) (port : Z) (al pr : list string)
  (ct now : Z) (w w' : sysdb_ctx) (a : ldb_message) :
  faults w = [] -> NoDup (map dn (ldb w)) ->
  In a (ldb w) -> find_name a = Some na -> na <> pn ->
  In pn (msg_values SYSDB_NAME_ALIAS a) ->
  msg_values SYSDB_SVC_PROTO a <> [] ->
  sysdb_store_service pn port al pr ct now w = (w', Ok tt) ->
  (forall a', In a' (ldb w') ->
              msg_values SYSDB_SVC_PROTO a' <> [] ->
              find_name a' <> Some pn ->
              ~ In pn (msg_values SYSDB_NAME_ALIAS a'))
  /\ (SYSDB_SVC_BYPORT_FILTER None (to_uint port) a = false ->
      exists a', In a' (ldb w') /\ dn a' = dn a /\ find_name a' = Some na
                 /\ ~ In pn (msg_values SYSDB_NAME_ALIAS a'))
  /\ (exists m res,
        In m (ldb w') /\ find_name m = Some pn
        /\ snd (sysdb_getservbyname pn None w') = Ok res /\ In m res).
Proof.
  intros F N Ia Na Ne Al Pa E.
  destruct (store_service_applied _ _ _ _ _ _ _ _ E)
    as (_ & Npr & m & dm & Im & (_ & Nm & _ & Vr) & _).
  destruct (store_service_stages _ _ _ _ _ _ _ _ E)
    as (w1 & w2 & w3 & w4 & update_dn & d & S & P & A & T & C).
  destruct (transaction_start_cases _ _ _ S) as
    [(e & R & _) | (_ & L1 & _ & F1)]; [discriminate |].
  specialize (F1 F).
  unfold store_passes, bind in P.
  destruct (store_port_pass pn port w1) as [wp [[] | e]] eqn:Pp;
    [| discriminate].
  assert (Fp : faults wp = [])
    by (apply (framed_port_pass pn port _ _ _ Pp); exact F1).
  assert (Np : NoDup (map dn (ldb wp))).
  { destruct (port_pass_shrinks _ _ _ _ _ Pp) as [g Lg].
    rewrite Lg, L1; apply NoDup_dn_filter; exact N. }
  destruct (name_pass_demotes pn wp w2 update_dn Fp Np P) as [Off Named].
  assert (F2 : faults w2 = [])
    by (apply (framed_name_pass pn _ _ _ P); exact Fp).
  assert (F3 : faults w3 = [])
    by (apply (framed_apply pn port al pr update_dn _ _ _ A); exact F2).
  assert (F4 : faults w4 = [])
    by (apply (framed_timestamps d ct now _ _ _ T); exact F3).
  assert (F' : faults w' = []) by (eapply commit_stays_quiet; eauto).
  pose proof (commit_keeps_entries _ _ _ C) as L'.
  destruct (timestamps_step _ _ _ _ _ T) as (S4 & _).
  assert (Off' : forall x, In x (ldb w') -> ~ offending pn x).
  { rewrite L'; eapply offending_step; eauto.
    eapply apply_demotes; eauto. }
  split; [| split].
  - intros a' I' Pr' Nn' Al'; apply (Off' a' I'); repeat split; auto.
  - intros Fa.
    assert (Iap : In a (ldb wp)).
    { eapply port_pass_keeps; eauto; rewrite L1; auto. }
    assert (P2 : present a (ldb w2)) by (eapply name_pass_keeps; eauto).
    assert (P3 : present a (ldb w3)) by (eapply apply_keeps; eauto).
    assert (P4 : present a (ldb w4)).
    { eapply present_step; eauto. }
    destruct P4 as (a' & I' & D' & N' & Pr').
    rewrite <- L' in I'; exists a'; repeat split; auto; [congruence |].
    intros Al'; apply (Off' a' I'); repeat split; auto; congruence.
  - exists m; eexists; repeat split; auto.
    + rewrite getservbyname_quiet by exact F'.
      rewrite found_nonempty; [reflexivity |].
      intros Z; apply (filter_nil_none _ _ m Z) in Im.
      rewrite named_entry_matches in Im; congruence.
    + apply filter_In; split; [exact Im |].
      apply named_entry_matches; congruence.
Qed.

(** ** Two entries of one name *)

Lemma dn_sanitize_quiet (s : string) (w : sysdb_ctx) :
  faults w = [] ->
  sysdb_dn_sanitize s w = (log_call SYSDB_DN_SANITIZE EOK w, Ok s).
Proof.
  intros F; unfold sysdb_dn_sanitize; rewrite collaborator_quiet by exact F.
  reflexivity.
Qed.

Lemma add_quiet (msg : ldb_message) (w : sysdb_ctx) :
  faults w = [] ->
  existsb (dn_eqb (dn msg)) (ldb w) = false ->
  existsb (fun el => is_nil (el_values el)) (elements msg) = false ->
  ldb_add msg w = (log_call LDB_ADD EOK (set_ldb (ldb w ++ [msg]) w), Ok tt).
Proof.
  intros F X V; unfold ldb_add; rewrite collaborator_quiet by exact F.
  rewrite X, V; reflexivity.
Qed.

Lemma modify_quiet (msg : ldb_message) (w : sysdb_ctx)
  (db' : list ldb_message) :
  faults w = [] ->
  existsb (dn_eqb (dn msg)) (ldb w) = true ->
  modify_entries (dn msg) (elements msg) (ldb w) = Some db' ->
  ldb_modify msg w = (log_call LDB_MODIFY EOK (set_ldb db' w), Ok tt).
Proof.
  intros F X Md; unfold ldb_modify; rewrite collaborator_quiet by exact F.
  rewrite X, Md; reflexivity.
Qed.

Lemma dn_eqb_self (m : ldb_message) : dn_eqb (dn m) m = true.
Proof. apply String.eqb_refl. Qed.

Lemma dn_eqb_other (m m' : ldb_message) :
  dn m <> dn m' -> dn_eqb (dn m) m' = false.
Proof.
  intros Ne; unfold dn_eqb.
  destruct (String.eqb_spec (dn m') (dn m)); [congruence | reflexivity].
Qed.

Section Pair.

Variables (pn : string) (r1 r2 : ldb_message).
Hypothesis distinct : dn r1 <> dn r2.
Hypothesis named1 : find_name r1 = Some pn.
Hypothesis named2 : find_name r2 = Some pn.

Lemma delete_pair (w : sysdb_ctx) :
  faults w = [] -> ldb w = [r1; r2] ->
  exists w',
    (sysdb_delete_entry (dn r1) true ;;
     sysdb_delete_entry (dn r2) true) w = (w', Ok tt)
    /\ faults w' = [] /\ ldb w' = [].
Proof.
  intros F L; unfold bind, sysdb_delete_entry.
  rewrite delete_quiet by exact F.
  rewrite L; simpl; rewrite dn_eqb_self; simpl.
  rewrite (dn_eqb_other r1 r2 distinct); simpl.
  rewrite delete_quiet by exact F.
  simpl; rewrite dn_eqb_self; simpl.
  eexists; repeat split; exact F.
Qed.

Lemma port_pass_on_pair (port : Z) (w : sysdb_ctx) :
  faults w = [] -> ldb w = [r1; r2] -> 0 < port ->
  exists w',
    store_port_pass pn port w = (w', Ok tt)
    /\ faults w' = [] /\ (ldb w' = [r1; r2] \/ ldb w' = []).
Proof.
  intros F L Pos; unfold store_port_pass, bind, or_enoent.
  rewrite getservbyport_quiet by assumption.
  rewrite L; simpl filter.
  destruct (SYSDB_SVC_BYPORT_FILTER None (to_uint port) r1);
    destruct (SYSDB_SVC_BYPORT_FILTER None (to_uint port) r2);
    simpl found; try unfold ret at 1; try unfold fail at 1;
    cbv iota beta.
  - destruct (delete_pair (log_call LDB_SEARCH EOK w) F L)
      as (w' & E & F' & L').
    simpl delete_entries.
    replace (delete_entries true [r1; r2])
      with (sysdb_delete_entry (dn r1) true ;;
            sysdb_delete_entry (dn r2) true ;; ret tt)
      by reflexivity.
    unfold bind in *.
    destruct (sysdb_delete_entry (dn r1) true (log_call LDB_SEARCH EOK w))
      as [wa [[] | e]]; [| discriminate].
    destruct (sysdb_delete_entry (dn r2) true wa) as [wb [[] | e]];
      inversion E; subst.
    exists w'; auto.
  - fold (find_name r1); rewrite named1, String.eqb_refl.
    eexists; split; [reflexivity |]; simpl; auto.
  - fold (find_name r2); rewrite named2, String.eqb_refl.
    eexists; split; [reflexivity |]; simpl; auto.
  - simpl; eexists; split; [reflexivity |]; simpl; auto.
Qed.

Lemma name_pass_on_pair (w : sysdb_ctx) :
  faults w = [] ->
  msg_values SYSDB_SVC_PROTO r1 <> [] ->
  msg_values SYSDB_SVC_PROTO r2 <> [] ->
  ldb w = [r1; r2] \/ ldb w = [] ->
  exists w',
    store_name_pass pn w = (w', Ok None) /\ faults w' = [] /\ ldb w' = [].
Proof.
  intros F P1 P2 L; unfold store_name_pass, bind, or_enoent.
  rewrite getservbyname_quiet by assumption.
  destruct L as [L | L]; rewrite L; simpl filter.
  - rewrite (named_entry_matches pn r1 named1 P1).
    rewrite (named_entry_matches pn r2 named2 P2).
    simpl found; unfold ret at 1; cbv iota beta.
    simpl store_name_loop; fold (find_name r1) (find_name r2).
    rewrite named1, named2, String.eqb_refl.
    set (ws := log_call LDB_SEARCH EOK
                 (log_call SSS_FILTER_SANITIZE EOK w)).
    destruct (delete_pair ws F L) as (w' & E & F' & L').
    unfold bind in *.
    destruct (sysdb_delete_entry (dn r1) true ws) as [wa [[] | e]];
      [| discriminate].
    destruct (sysdb_delete_entry (dn r2) true wa) as [wb [[] | e]];
      inversion E; subst.
    exists w'; auto.
  - simpl; eexists; split; [reflexivity |]; simpl; auto.
Qed.

End Pair.

Lemma stamped_named (pn : string) (ct now : Z) (m : ldb_message) :
  find_name m = Some pn -> find_name (stamped ct now m) = Some pn.
Proof.
  unfold find_name, ldb_msg_find_attr_as_string, msg_values, stamped; simpl.
  rewrite !el_find_set; simpl; auto.
Qed.

Lemma apply_on_empty (pn : string) (port : Z) (al pr : list string)
  (w : sysdb_ctx) :
  faults w = [] -> ldb w = [] -> pr <> [] ->
  let d := SYSDB_TMPL_SVC pn (domain w) in
  store_apply pn port al pr None w
  = (log_call LDB_ADD EOK
       (set_ldb [svc_add_msg d pn port al pr (clock w)]
          (log_call SYSDB_DN_SANITIZE EOK w)), Ok d).
Proof.
  intros F L Npr d; subst d; simpl.
  unfold sysdb_svc_add, sysdb_svc_dn.
  rewrite dn_sanitize_quiet by exact F.
  unfold bind; rewrite add_quiet.
  - simpl; rewrite L; reflexivity.
  - exact F.
  - simpl; rewrite L; reflexivity.
  - rewrite svc_add_msg_elements.
    destruct al, pr; simpl; congruence.
Qed.

Lemma timestamps_on_single (ct now : Z) (m : ldb_message) (w : sysdb_ctx) :
  faults w = [] -> ldb w = [m] ->
  store_timestamps (dn m) ct now w
  = (log_call LDB_MODIFY EOK (set_ldb [stamped ct now m] w), Ok tt).
Proof.
  intros F L; unfold store_timestamps, sysdb_set_entry_attr; simpl.
  apply modify_quiet; [exact F | |]; rewrite L; simpl;
    rewrite dn_eqb_self; reflexivity.
Qed.

(** C5.  The collaborators do not fail and the entries are exactly two,
    of different identifiers, both named [pn] and seen by the lookups.
    A write of [pn], with a positive port and with a protocol, returns
    [EOK] and leaves exactly one entry: the one newly added under the
    identifier made from [pn], named [pn], created at the time of the
    call, with the two times of the write. *)
Theorem duplicate_names_repaired (pn : string) (port : Z)
  (al pr : list string) (ct now : Z) (w : sysdb_ctx)
  (r1 r2 : ldb_message) :
  faults w = [] -> ldb w = [r1; r2] -> dn r1 <> dn r2 ->
  find_name r1 = Some pn -> find_name r2 = Some pn ->
  msg_values SYSDB_SVC_PROTO r1 <> [] ->
  msg_values SYSDB_SVC_PROTO r2 <> [] ->
  0 < port -> pr <> [] ->
  let after := sysdb_store_service pn port al pr ct now w in
  let added :=
    svc_add_msg (SYSDB_TMPL_SVC pn (domain w)) pn port al pr (clock w) in
  snd after = Ok tt
  /\ ldb (fst after) = [stamped ct now added]
  /\ find_name (stamped ct now added) = Some pn
  /\ txn (fst after) = txn w.
Proof.
  intros F L D N1 N2 P1 P2 Pos Npr after added; subst after.
  unfold sysdb_store_service.
  rewrite transaction_start_quiet by exact F.
  set (w1 := log_call TRANSACTION_START EOK (set_txn (ldb w :: txn w) w)).
  destruct (port_pass_on_pair pn r1 r2 D N1 N2 port w1 F L Pos)
    as (wp & Ep & Fp & Lp).
  destruct (name_pass_on_pair pn r1 r2 D N1 N2 wp Fp P1 P2 Lp)
    as (w2 & En & F2 & L2).
  destruct (framed_port_pass pn port _ _ _ Ep) as (Tp & Dp & Cp & _).
  destruct (framed_name_pass pn _ _ _ En) as (T2 & D2 & C2 & _).
  unfold store_steps, store_passes, bind.
  rewrite Ep, En, (apply_on_empty pn port al pr w2 F2 L2 Npr).
  replace (domain w2) with (domain w) by (rewrite D2, Dp; reflexivity).
  replace (clock w2) with (clock w) by (rewrite C2, Cp; reflexivity).
  fold added.
  replace (SYSDB_TMPL_SVC pn (domain w)) with (dn added)
    by (unfold added; rewrite svc_add_msg_elements; reflexivity).
  rewrite timestamps_on_single by (simpl; auto).
  rewrite (transaction_commit_quiet _ (ldb w) (txn w))
    by (simpl; auto; rewrite T2, Tp; reflexivity).
  simpl; repeat split.
  apply stamped_named, add_msg_named.
Qed.

(** ** The ports stay unique when no collaborator fails *)

Lemma cache_invariant_filter (g : ldb_message -> bool)
  (db : list ldb_message) :
  cache_invariant db -> cache_invariant (filter g db).
Proof.
  intros (N & V & U); split; [apply NoDup_dn_filter; exact N | split].
  - intros m I; apply filter_In in I; apply V, I.
  - intros m1 m2 q I1 I2; apply filter_In in I1, I2.
    apply U; tauto.
Qed.

Lemma cache_invariant_step (d : ldb_dn)
  (f : attr_name -> list string -> list string)
  (db db' : list ldb_message) :
  entries_step d f db db' -> map dn db' = map dn db ->
  (forall old, f SYSDB_SVC_PORT old = old) ->
  (forall old, old <> [] -> f SYSDB_SVC_PROTO old <> []) ->
  cache_invariant db -> cache_invariant db'.
Proof.
  intros [_ Bw] Md Kport Kproto (N & V & U).
  assert (Back : forall m', In m' db' ->
            exists m, In m db /\ dn m' = dn m
                      /\ msg_values SYSDB_SVC_PORT m'
                         = msg_values SYSDB_SVC_PORT m
                      /\ msg_values SYSDB_SVC_PROTO m' <> []).
  { intros m' I'; destruct (Bw m' I') as (m & I & D & R).
    exists m; split; [exact I | split; [exact D |]].
    destruct (dn_eqb d m); [| subst; auto].
    unfold msg_values; rewrite (R SYSDB_SVC_PORT), (R SYSDB_SVC_PROTO).
    rewrite Kport; split; [reflexivity | apply Kproto, V, I]. }
  split; [rewrite Md; exact N | split].
  - intros m' I'; destruct (Back m' I') as (m & _ & _ & _ & P); exact P.
  - intros m1 m2 q I1 I2 Q1 Q2.
    destruct (Back m1 I1) as (x1 & Ix1 & D1 & P1 & _).
    destruct (Back m2 I2) as (x2 & Ix2 & D2 & P2 & _).
    rewrite D1, D2; apply (U x1 x2 q); congruence.
Qed.

Lemma name_loop_invariant (pn : string) (msgs : ldb_result) :
  forall update_dn w w' r,
    store_name_loop pn msgs update_dn w = (w', Ok r) ->
    cache_invariant (ldb w) -> cache_invariant (ldb w').
Proof.
  induction msgs as [| x rest IH]; intros update_dn w w' r; simpl.
  - intros E; inversion E; subst; auto.
  - destruct (ldb_msg_find_attr_as_string x SYSDB_NAME) as [name |].
    + destruct (String.eqb name pn).
      * destruct update_dn as [previous |]; [| apply IH].
        unfold bind.
        destruct (sysdb_delete_entry previous true w)
          as [w1 [[] | e]] eqn:D1; [| discriminate].
        destruct (sysdb_delete_entry (dn x) true w1)
          as [w2 [[] | e]] eqn:D2; [| discriminate].
        apply delete_entry_ok in D1, D2.
        intros E H; eapply IH; eauto.
        rewrite D2, D1; apply cache_invariant_filter, cache_invariant_filter.
        exact H.
      * unfold bind.
        destruct (sysdb_svc_remove_alias (dn x) pn w)
          as [w1 [[] | e]] eqn:R1; [| discriminate].
        destruct (remove_alias_step _ _ _ _ R1) as (S & _ & Md).
        intros E H; eapply IH; eauto.
        eapply cache_invariant_step; eauto.
    + unfold bind.
      destruct (sysdb_delete_entry (dn x) true w)
        as [w1 [[] | e]] eqn:D1; [| discriminate].
      apply delete_entry_ok in D1.
      intros E H; eapply IH; eauto.
      rewrite D1; apply cache_invariant_filter; exact H.
Qed.

Lemma claims_port_matches (port : Z) (m : ldb_message) :
  msg_values SYSDB_SVC_PROTO m <> [] -> claims_port port m ->
  SYSDB_SVC_BYPORT_FILTER None port m = true.
Proof.
  intros V C; unfold SYSDB_SVC_BYPORT_FILTER, proto_filter.
  destruct (msg_values SYSDB_SVC_PROTO m); [congruence |]; simpl.
  apply mem_In; exact C.
Qed.

(** Without script, after the port pass every entry that claims the
    port is named [pn]. *)
Lemma port_pass_claimants (pn : string) (port : Z) (w w' : sysdb_ctx) :
  faults w = [] -> cache_invariant (ldb w) ->
  store_port_pass pn port w = (w', Ok tt) ->
  forall m, In m (ldb w') -> claims_port (to_uint port) m ->
            find_name m = Some pn.
Proof.
  intros F (N & V & _) E.
  pose proof (port_pass_positive _ _ _ _ E) as Pos.
  revert E; unfold store_port_pass, bind, or_enoent.
  rewrite getservbyport_quiet by assumption.
  set (ws := log_call LDB_SEARCH EOK (after_proto None w)).
  assert (Claim : forall m, In m (ldb w) -> claims_port (to_uint port) m ->
            In m (filter (SYSDB_SVC_BYPORT_FILTER None (to_uint port))
                    (ldb w))).
  { intros m I C; apply filter_In; split; [exact I |].
    apply claims_port_matches; auto. }
  destruct (filter (SYSDB_SVC_BYPORT_FILTER None (to_uint port)) (ldb w))
    as [| x [| y rest]] eqn:Q; simpl found;
    try unfold ret at 1; try unfold fail at 1; cbv iota beta.
  - simpl; intros E; inversion E; subst; simpl.
    intros m I C; destruct (Claim m I C).
  - fold (find_name x); unfold logged_only, sysdb_delete_entry.
    assert (Del : forall wd,
              ldb_delete (dn x) ws = (wd, Ok tt) ->
              forall m, In m (ldb wd) -> claims_port (to_uint port) m ->
                        find_name m = Some pn).
    { intros wd D m I C.
      destruct (delete_cases _ _ _ _ D) as [(_ & L) | (e & R & _)];
        [| discriminate].
      rewrite L in I; apply filter_In in I; destruct I as [I Dm].
      destruct (Claim m I C) as [<- | []].
      rewrite dn_eqb_self in Dm; discriminate. }
    assert (There : existsb (dn_eqb (dn x)) (ldb ws) = true).
    { apply dn_present; exists x; split; [| reflexivity].
      assert (In x (x :: [])) as Ix by (left; reflexivity).
      rewrite <- Q in Ix; apply filter_In in Ix; apply Ix. }
    destruct (find_name x) as [name |] eqn:Nx;
      [destruct (String.eqb_spec name pn) as [-> | Ne] |].
    + intros E; inversion E; subst; simpl.
      intros m I C; destruct (Claim m I C) as [<- | []]; exact Nx.
    + rewrite delete_quiet, There by exact F.
      intros E; inversion E; subst.
      apply (Del _ ltac:(rewrite delete_quiet, There by exact F; reflexivity)).
    + rewrite delete_quiet, There by exact F.
      intros E; inversion E; subst.
      apply (Del _ ltac:(rewrite delete_quiet, There by exact F; reflexivity)).
  - destruct (delete_entries_quiet true (x :: y :: rest) ws F)
      as (wd & D & _ & _ & L).
    + rewrite <- Q; apply NoDup_dn_filter; exact N.
    + intros r I; apply dn_present; exists r; split; [| reflexivity].
      rewrite <- Q in I; apply filter_In in I; apply I.
    + rewrite D; intros E; inversion E; subst.
      intros m I C; rewrite L in I; apply filter_In in I.
      destruct I as [I Nm]; exfalso.
      unfold not_among in Nm; apply negb_true_iff in Nm.
      assert (existsb (fun r => String.eqb (dn m) (dn r)) (x :: y :: rest)
              = true) as X; [| congruence].
      apply existsb_exists; exists m; split; [| apply String.eqb_refl].
      apply (Claim m I C).
Qed.

(** Through the name pass, an entry that claims the port is still to
    be examined and named [pn], or it is the entry to update. *)
Lemma name_loop_claimants (pn : string) (port : Z) (msgs : ldb_result) :
  forall update_dn w w' r,
    store_name_loop pn msgs update_dn w = (w', Ok r) ->
    NoDup (map dn msgs) ->
    (forall d, update_dn = Some d -> ~ In d (map dn msgs)) ->
    (forall m, In m (ldb w) -> claims_port port m ->
               (In m msgs /\ find_name m = Some pn)
               \/ update_dn = Some (dn m)) ->
    forall m, In m (ldb w') -> claims_port port m -> r = Some (dn m).
Proof.
  induction msgs as [| x rest IH]; intros update_dn w w' r; simpl.
  - intros E _ _ H m I C; inversion E; subst.
    destruct (H m I C) as [[[] _] | U]; exact U.
  - intros E N; inversion N as [| ? ? Nx Nrest]; subst; revert E.
    fold (find_name x); destruct (find_name x) as [name |] eqn:Name.
    + destruct (String.eqb_spec name pn) as [-> | Ne].
      * destruct update_dn as [previous |].
        -- unfold bind.
           destruct (sysdb_delete_entry previous true w)
             as [w1 [[] | e]] eqn:D1; [| discriminate].
           destruct (sysdb_delete_entry (dn x) true w1)
             as [w2 [[] | e]] eqn:D2; [| discriminate].
           apply delete_entry_ok in D1, D2.
           intros E U H; eapply IH; eauto; [discriminate |].
           intros m I C; left.
           rewrite D2 in I; apply filter_In in I; destruct I as [I Dx].
           rewrite D1 in I; apply filter_In in I; destruct I as [I Dp].
           destruct (H m I C) as [[[<- | Ir] Nm] | Um]; auto.
           ++ rewrite dn_eqb_self in Dx; discriminate.
           ++ inversion Um; subst previous.
              rewrite dn_eqb_self in Dp; discriminate.
        -- intros E _ H; eapply IH; eauto.
           ++ intros d Ud; inversion Ud; subst; exact Nx.
           ++ intros m I C; destruct (H m I C) as [[[<- | Ir] Nm] | Um];
                auto; discriminate.
      * unfold bind.
        destruct (sysdb_svc_remove_alias (dn x) pn w)
          as [w1 [[] | e]] eqn:R1; [| discriminate].
        destruct (remove_alias_step _ _ _ _ R1) as ([_ Bw] & _).
        intros E U H; eapply IH; eauto.
        -- intros d Ud I; apply (U d Ud); right; exact I.
        -- intros m' I' C'; destruct (Bw m' I') as (m & I & D & R).
           destruct (dn_eqb (dn x) m) eqn:Dx.
           ++ exfalso; unfold dn_eqb in Dx; apply String.eqb_eq in Dx.
              assert (C : claims_port port m).
              { unfold claims_port, msg_values in *.
                rewrite (R SYSDB_SVC_PORT) in C'; exact C'. }
              destruct (H m I C) as [[[<- | Ir] Nm] | Um].
              ** congruence.
              ** apply Nx; rewrite <- Dx; apply in_map; exact Ir.
              ** apply (U (dn m) Um); left; congruence.
           ++ subst m'; destruct (H m I C') as [[[<- | Ir] Nm] | Um]; auto.
              rewrite dn_eqb_self in Dx; discriminate.
    + unfold bind.
      destruct (sysdb_delete_entry (dn x) true w)
        as [w1 [[] | e]] eqn:D1; [| discriminate].
      apply delete_entry_ok in D1.
      intros E U H; eapply IH; eauto.
      * intros d Ud I; apply (U d Ud); right; exact I.
      * intros m I C; rewrite D1 in I; apply filter_In in I.
        destruct I as [I Dx].
        destruct (H m I C) as [[[<- | Ir] Nm] | Um]; auto.
        rewrite dn_eqb_self in Dx; discriminate.
Qed.

Lemma passes_claimants (pn : string) (port : Z) (w w' : sysdb_ctx)
  (update_dn : option ldb_dn) :
  faults w = [] -> cache_invariant (ldb w) ->
  store_passes pn port w = (w', Ok update_dn) ->
  cache_invariant (ldb w')
  /\ (forall m, In m (ldb w') -> claims_port (to_uint port) m ->
                update_dn = Some (dn m)).
Proof.
  intros F Inv; unfold store_passes, bind.
  destruct (store_port_pass pn port w) as [wp [[] | e]] eqn:Pp;
    [| discriminate].
  assert (Fp : faults wp = [])
    by (apply (framed_port_pass pn port _ _ _ Pp); exact F).
  assert (Invp : cache_invariant (ldb wp)).
  { destruct (port_pass_shrinks _ _ _ _ _ Pp) as [g Lg].
    rewrite Lg; apply cache_invariant_filter; exact Inv. }
  pose proof (port_pass_claimants pn port w wp F Inv Pp) as Named.
  unfold store_name_pass, bind, or_enoent.
  rewrite getservbyname_quiet by exact Fp.
  assert (Claim : forall m, In m (ldb wp) -> claims_port (to_uint port) m ->
            In m (filter (SYSDB_SVC_BYNAME_FILTER None pn pn) (ldb wp))
            /\ find_name m = Some pn).
  { intros m I C; split; [| apply (Named m I C)].
    apply filter_In; split; [exact I |].
    apply named_entry_matches; [apply (Named m I C) |].
    destruct Invp as (_ & V & _); apply V, I. }
  assert (Nres : NoDup (map dn (filter (SYSDB_SVC_BYNAME_FILTER None pn pn)
                                  (ldb wp))))
    by (apply NoDup_dn_filter, Invp).
  destruct (filter (SYSDB_SVC_BYNAME_FILTER None pn pn) (ldb wp))
    as [| x rest] eqn:Q.
  - simpl; intros E; inversion E; subst; simpl; split; [exact Invp |].
    intros m I C; destruct (Claim m I C) as [[] _].
  - simpl found; unfold ret at 1; cbv iota beta.
    intros E; split.
    + eapply name_loop_invariant in E; eauto.
    + intros m I C.
      apply (name_loop_claimants pn (to_uint port) (x :: rest) None _ w'
               update_dn E Nres); auto; discriminate.
Qed.

Lemma NoDup_dn_added (db : list ldb_message) (msg : ldb_message) :
  NoDup (map dn db) -> existsb (dn_eqb (dn msg)) db = false ->
  NoDup (map dn (db ++ [msg])).
Proof.
  intros N X; rewrite map_app; simpl.
  apply NoDup_app; [exact N | repeat constructor; tauto |].
  intros d Id [<- | []].
  apply in_map_iff in Id; destruct Id as (m & D & I).
  assert (existsb (dn_eqb (dn msg)) db = true) as X'; [| congruence].
  apply dn_present; exists m; auto.
Qed.

Lemma apply_unique (pn : string) (port : Z) (al pr : list string)
  (update_dn : option ldb_dn) (w w' : sysdb_ctx) (d : ldb_dn) :
  store_apply pn port al pr update_dn w = (w', Ok d) ->
  to_ulong port = to_uint port ->
  cache_invariant (ldb w) ->
  (forall m, In m (ldb w) -> claims_port (to_uint port) m ->
             update_dn = Some (dn m)) ->
  cache_invariant (ldb w')
  /\ (forall m, In m (ldb w') -> claims_port (to_uint port) m -> dn m = d).
Proof.
  intros E Same (N & V & U) H; revert E.
  destruct update_dn as [d0 |]; simpl.
  - unfold bind.
    destruct (sysdb_svc_update d0 port al pr w) as [w1 [[] | e]] eqn:Up;
      [| discriminate].
    intros E; inversion E; subst.
    destruct (svc_update_step _ _ _ _ _ _ Up) as ([_ Bw] & _ & Md & Ne).
    assert (Back : forall m', In m' (ldb w') ->
              dn m' = d
              /\ msg_values SYSDB_SVC_PORT m'
                 = [fmt_decimal (to_uint port)]
              /\ msg_values SYSDB_SVC_PROTO m' <> []
              \/ In m' (ldb w) /\ dn m' <> d).
    { intros m' I'; destruct (Bw m' I') as (m & I & D & R).
      destruct (dn_eqb d m) eqn:Dm.
      - left; unfold dn_eqb in Dm; apply String.eqb_eq in Dm.
        unfold msg_values; rewrite (R SYSDB_SVC_PORT), (R SYSDB_SVC_PROTO).
        simpl; rewrite Same; repeat split; congruence.
      - right; subst m'; split; [exact I |].
        intros Eq; unfold dn_eqb in Dm; rewrite Eq, String.eqb_refl in Dm.
        discriminate. }
    assert (Owner : forall m, In m (ldb w) -> dn m <> d ->
              In (fmt_decimal (to_uint port)) (msg_values SYSDB_SVC_PORT m) ->
              False).
    { intros m I Nd C; specialize (H m I C); inversion H; congruence. }
    split; [split; [rewrite Md; exact N | split] |].
    + intros m' I'; destruct (Back m' I') as [(_ & _ & P) | [I _]]; auto.
    + intros m1 m2 q I1 I2 Q1 Q2.
      destruct (Back m1 I1) as [(D1 & P1 & _) | [J1 D1]];
        destruct (Back m2 I2) as [(D2 & P2 & _) | [J2 D2]].
      * congruence.
      * exfalso; rewrite P1 in Q1; destruct Q1 as [<- | []].
        exact (Owner m2 J2 D2 Q2).
      * exfalso; rewrite P2 in Q2; destruct Q2 as [<- | []].
        exact (Owner m1 J1 D1 Q1).
      * apply (U m1 m2 q); auto.
    + intros m' I' C; destruct (Back m' I') as [(D & _) | [I Nd]]; auto.
      exfalso; exact (Owner m' I Nd C).
  - intros E; destruct (svc_add_cases _ _ _ _ _ _ _ E)
      as (created & L & X & Ne).
    set (msg := svc_add_msg d pn port al pr created) in *.
    destruct (svc_add_msg_applied d pn port al pr created)
      as (Dm & Nm & Pm & Rm); fold msg in Dm, Nm, Pm, Rm.
    assert (None_claims : forall m, In m (ldb w) ->
              In (fmt_decimal (to_uint port)) (msg_values SYSDB_SVC_PORT m) ->
              False).
    { intros m I C; specialize (H m I C); discriminate. }
    rewrite L; split; [split; [| split] |].
    + apply NoDup_dn_added; [exact N | rewrite Dm; exact X].
    + intros m I; apply in_app_or in I; destruct I as [I | [<- | []]];
        [apply V, I | congruence].
    + intros m1 m2 q I1 I2 Q1 Q2.
      apply in_app_or in I1, I2.
      destruct I1 as [I1 | [<- | []]]; destruct I2 as [I2 | [<- | []]].
      * apply (U m1 m2 q); auto.
      * exfalso; rewrite Pm, Same in Q2; destruct Q2 as [<- | []].
        exact (None_claims m1 I1 Q1).
      * exfalso; rewrite Pm, Same in Q1; destruct Q1 as [<- | []].
        exact (None_claims m2 I2 Q2).
      * reflexivity.
    + intros m I C; apply in_app_or in I; destruct I as [I | [<- | []]];
        [exfalso; exact (None_claims m I C) | exact Dm].
Qed.

(** X1.  When no collaborator fails, a successful write keeps a cache
    in order, and afterwards an entry that claims the port written is
    named [pn]; the earlier owner of the port is gone. *)
Theorem port_unique_without_failure (pn : string) (port : Z)
  (al pr : list string) (ct now : Z) (w w' : sysdb_ctx) :
  faults w = [] -> cache_invariant (ldb w) -> port < 2 ^ 31 ->
  sysdb_store_service pn port al pr ct now w = (w', Ok tt) ->
  cache_invariant (ldb w')
  /\ (forall m, In m (ldb w') -> claims_port port m ->
                find_name m = Some pn).
Proof.
  intros F Inv Small E.
  destruct (store_service_stages _ _ _ _ _ _ _ _ E)
    as (w1 & w2 & w3 & w4 & update_dn & d & S & P & A & T & C).
  pose proof (passes_positive _ _ _ _ _ P) as Pos.
  destruct (transaction_start_cases _ _ _ S) as
    [(e & R & _) | (_ & L1 & _ & F1)]; [discriminate |].
  specialize (F1 F); rewrite <- L1 in Inv.
  assert (Uint : to_uint port = port)
    by (unfold to_uint; apply Z.mod_small; lia).
  assert (Ulong : to_ulong port = to_uint port)
    by (rewrite Uint; unfold to_ulong; apply Z.mod_small; lia).
  destruct (passes_claimants pn port w1 w2 update_dn F1 Inv P) as [Inv2 Cl2].
  destruct (apply_unique _ _ _ _ _ _ _ _ A Ulong Inv2 Cl2) as [Inv3 Cl3].
  destruct (apply_applied _ _ _ _ _ _ _ _ A) as (_ & m3 & I3 & D3 & N3 & _).
  { intros d0 ->; eapply passes_tracked; eauto. }
  destruct (timestamps_step _ _ _ _ _ T) as (S4 & _ & Md4).
  destruct (step_forward _ _ _ _ m3 S4 I3 D3) as (m4 & I4 & D4 & V4).
  assert (Inv4 : cache_invariant (ldb w4))
    by (eapply cache_invariant_step; eauto).
  pose proof (commit_keeps_entries _ _ _ C) as L'.
  rewrite L' in *; split; [exact Inv4 |].
  intros m I Cm.
  assert (Dm : dn m = d).
  { destruct S4 as [_ Bw]; destruct (Bw m I) as (x & Ix & Dx & R).
    rewrite Dx; apply Cl3; [exact Ix |].
    rewrite Uint; destruct (dn_eqb d x); [| subst; exact Cm].
    unfold claims_port, msg_values in *.
    rewrite (R SYSDB_SVC_PORT) in Cm; exact Cm. }
  destruct Inv4 as (N4 & _).
  rewrite (same_dn_same_entry (ldb w4) m m4 N4 I I4) by congruence.
  unfold find_name, ldb_msg_find_attr_as_string in *.
  rewrite V4; exact N3.
Qed.

(** ** The theorems at work *)

Lemma store_service_atomic_witness :
  let after := sysdb_store_service "svc-b" 100 [] ["tcp"] 3600 6000
                 search_fails in
  after = (fst after, Fail EIO)
  /\ In (LDB_DELETE, EOK) (firstn 5 (trace (fst after)))
  /\ ldb (fst after) = ldb search_fails
  /\ txn (fst after) = txn search_fails
  /\ (hd_error (trace (fst after)) = Some (TRANSACTION_CANCEL, EOK)
      \/ hd_error (trace (fst after)) = Some (TRANSACTION_START, EIO)).
Proof.
  intros after.
  assert (E : after = (fst after, Fail EIO)) by (vm_compute; reflexivity).
  split; [exact E |].
  split; [vm_compute; repeat (first [left; reflexivity | right]) |].
  apply (store_service_atomic "svc-b" 100 [] ["tcp"] 3600 6000
           search_fails (fst after) EIO E).
  intros st H; vm_compute in H; inversion H; reflexivity.
Defined.

Lemma lookup_answers_witness :
  sysdb_getservbyport 0 (Some "tcp") ldaps_stored = (ldaps_stored, Fail EINVAL)
  /\ snd (sysdb_getservbyport 636 None ldaps_stored)
     = Ok (filter (SYSDB_SVC_BYPORT_FILTER None (to_uint 636))
             (ldb ldaps_stored))
  /\ snd (sysdb_getservbyname "ldaps" (Some "udp") ldaps_stored)
     = Fail ENOENT.
Proof.
  destruct lookup_answers as (Inval & _ & _ & _ & _ & ByPort & ByName).
  split; [apply Inval; discriminate |].
  split.
  - apply (proj2 (ByPort 636 None ldaps_stored eq_refl eq_refl)).
    vm_compute; discriminate.
  - apply (proj2 (proj1 (ByName "ldaps" (Some "udp") ldaps_stored eq_refl))).
    reflexivity.
Defined.

Lemma svc_delete_removes_matches_witness :
  let by_port := sysdb_svc_delete false None 100 None svc_a_stored in
  let by_name := sysdb_svc_delete false (Some "nonexistent") 0 None
                   svc_a_stored in
  (snd by_port = Ok tt /\ ldb (fst by_port) = []
   /\ txn (fst by_port) = txn svc_a_stored)
  /\ (snd by_name = Ok tt /\ ldb (fst by_name) = ldb svc_a_stored
      /\ txn (fst by_name) = txn svc_a_stored).
Proof.
  split.
  - assert (P : @None string = None -> 0 < 100) by reflexivity.
    destruct (svc_delete_removes_matches false None 100 None svc_a_stored
                eq_refl P) as [_ H].
    apply H; vm_compute; constructor; [intros [] | constructor].
  - assert (P : Some "nonexistent" = None -> 0 < 0) by discriminate.
    destruct (svc_delete_removes_matches false (Some "nonexistent") 0 None
                svc_a_stored eq_refl P) as [H _].
    apply H; reflexivity.
Defined.

Lemma update_replaces_port_and_protocols_witness :
  snd svc_a_updated = Ok tt
  /\ msg_values SYSDB_NAME_ALIAS svc_a_entry = ["foo"]
  /\ exists m',
       In m' (ldb (fst svc_a_updated)) /\ dn m' = dn svc_a_entry
       /\ msg_values SYSDB_SVC_PORT m' = ["101"]
       /\ msg_values SYSDB_SVC_PROTO m' = ["udp"]
       /\ msg_values SYSDB_NAME_ALIAS m' = ["bar"]
       /\ msg_values SYSDB_NAME m' = ["svc-a"].
Proof.
  split; [reflexivity | split; [reflexivity |]].
  apply (update_replaces_port_and_protocols
           "svc-a" 101 ["bar"] ["udp"] 3600 6000 with_alias
           (fst svc_a_updated) (dn svc_a_entry) svc_a_entry).
  - vm_compute; reflexivity.
  - vm_compute; reflexivity.
  - vm_compute; left; reflexivity.
  - reflexivity.
Defined.

Lemma duplicate_names_repaired_witness :
  let after := sysdb_store_service "svc-x" 700 [] ["tcp"] 60 3000 seeded in
  snd after = Ok tt
  /\ names_of (ldb (fst after)) = [Some "svc-x"]
  /\ map (msg_values SYSDB_CREATE_TIME) (ldb (fst after)) = [["2000"]].
Proof.
  intros after.
  destruct (duplicate_names_repaired "svc-x" 700 [] ["tcp"] 60 3000 seeded
              svc_x_first svc_x_second)
    as (R & L & N & T); try reflexivity; try discriminate.
  fold after in R, L; split; [exact R |].
  rewrite L; split; reflexivity.
Defined.

Lemma alias_demoted_witness :
  snd foo_stored = Ok tt
  /\ msg_values SYSDB_NAME_ALIAS svc_a_entry = ["foo"]
  /\ exists a' m res,
       In a' (ldb (fst foo_stored)) /\ dn a' = dn svc_a_entry
       /\ find_name a' = Some "svc-a"
       /\ ~ In "foo" (msg_values SYSDB_NAME_ALIAS a')
       /\ In m (ldb (fst foo_stored)) /\ find_name m = Some "foo"
       /\ snd (sysdb_getservbyname "foo" None (fst foo_stored)) = Ok res
       /\ In m res.
Proof.
  split; [reflexivity | split; [reflexivity |]].
  destruct (alias_demoted "foo" "svc-a" 200 [] ["tcp"] 3600 6000
              with_alias (fst foo_stored) svc_a_entry)
    as (_ & Kept & m & res & Im & Nm & Q & Ir).
  - reflexivity.
  - vm_compute; constructor; [intros [] | constructor].
  - vm_compute; left; reflexivity.
  - reflexivity.
  - discriminate.
  - vm_compute; left; reflexivity.
  - discriminate.
  - vm_compute; reflexivity.
  - destruct Kept as (a' & Ia & Da & Na & Al); [reflexivity |].
    exists a', m, res; repeat split; assumption.
Defined.


(** * Further properties *)

(** ** Transactions are not left open *)

Lemma commit_trace (w w' : sysdb_ctx) (r : result unit) :
  sysdb_transaction_commit w = (w', r) ->
  hd_error (trace w') = Some (TRANSACTION_COMMIT, status r).
Proof.
  intros E; destruct (collaborator_cases _ _ _ _ _ E) as
    [(e & -> & _ & _ & _ & _ & T) | (w0 & w1 & _ & _ & _ & _ & ->)].
  - rewrite T; reflexivity.
  - reflexivity.
Qed.

Lemma cancel_entries (w w' : sysdb_ctx) (r : result unit) :
  sysdb_transaction_cancel w = (w', r) ->
  ldb w' = ldb w
  \/ exists saved open, txn w = saved :: open /\ ldb w' = saved.
Proof.
  intros E; destruct (collaborator_cases _ _ _ _ _ E) as
    [(e & _ & _ & _ & L & _) | (w0 & w1 & E1 & L & Fr & _ & ->)].
  - left; exact L.
  - destruct Fr as (T & _); destruct (txn w0) as [| saved open] eqn:X;
      inversion E1; subst; simpl.
    + left; exact L.
    + right; exists saved, open; rewrite <- T; auto.
Qed.

Lemma cancel_stays_quiet (w w' : sysdb_ctx) (r : result unit) :
  sysdb_transaction_cancel w = (w', r) -> faults w = [] -> faults w' = [].
Proof.
  intros E F; destruct (collaborator_cases _ _ _ _ _ E) as
    [(e & _ & _ & Fn & _) | (w0 & w1 & E1 & _ & Fr & _ & ->)];
    [congruence |].
  destruct Fr as (_ & _ & _ & Fq); specialize (Fq F).
  destruct (txn w0); inversion E1; subst; exact Fq.
Qed.

(** X2.  A write that returns [EOK] has committed: the open
    transactions are those from before the call, and the last
    collaborator call is the successful commit. *)
Theorem store_success_commits (pn : string) (port : Z) (al pr : list string)
  (ct now : Z) (w w' : sysdb_ctx) :
  sysdb_store_service pn port al pr ct now w = (w', Ok tt) ->
  txn w' = txn w
  /\ hd_error (trace w') = Some (TRANSACTION_COMMIT, EOK).
Proof.
  intros E; destruct (store_service_stages _ _ _ _ _ _ _ _ E)
    as (w1 & w2 & w3 & w4 & update_dn & d & S & P & A & T & C).
  destruct (transaction_start_cases _ _ _ S) as
    [(e & R & _) | (_ & _ & T1 & _)]; [discriminate |].
  destruct (framed_passes pn port _ _ _ P) as (T2 & _).
  destruct (framed_apply pn port al pr update_dn _ _ _ A) as (T3 & _).
  destruct (framed_timestamps d ct now _ _ _ T) as (T4 & _).
  split; [| apply (commit_trace _ _ _ C)].
  destruct (transaction_commit_cases _ _ _ C) as
    (_ & [(e & R & _) | (_ & T')]); [discriminate |].
  rewrite T', T4, T3, T2, T1; reflexivity.
Qed.

(** ** A port that is not positive *)

(** X3.  A write of a port that is not positive never returns [EOK];
    when the collaborators do not fail it returns the [EINVAL] of the
    port lookup and leaves the entries and the open transactions as
    they were. *)
Theorem store_refuses_nonpositive_port (pn : string) (port : Z)
  (al pr : list string) (ct now : Z) (w : sysdb_ctx) :
  port <= 0 ->
  snd (sysdb_store_service pn port al pr ct now w) <> Ok tt
  /\ (faults w = [] ->
      snd (sysdb_store_service pn port al pr ct now w) = Fail EINVAL
      /\ ldb (fst (sysdb_store_service pn port al pr ct now w)) = ldb w
      /\ txn (fst (sysdb_store_service pn port al pr ct now w)) = txn w).
Proof.
  intros Neg; split.
  - destruct (sysdb_store_service pn port al pr ct now w) as [w' r] eqn:E.
    simpl; intros ->.
    destruct (store_service_applied _ _ _ _ _ _ _ _ E) as (Pos & _); lia.
  - intros F; unfold sysdb_store_service.
    rewrite transaction_start_quiet by exact F.
    unfold store_steps, store_passes, store_port_pass, bind, or_enoent.
    unfold sysdb_getservbyport.
    destruct (port <=? 0) eqn:P; [| apply Z.leb_gt in P; lia].
    simpl; unfold done.
    rewrite (transaction_cancel_quiet _ (ldb w) (txn w)) by (simpl; auto).
    simpl; auto.
Qed.

(** ** Removal *)

Lemma read_only_delete_lookup (name : option string) (port : Z)
  (proto : option string) : read_only (svc_delete_lookup name port proto).
Proof.
  destruct name; simpl;
    [apply read_only_getservbyname | apply read_only_getservbyport].
Qed.

Lemma or_enoent_read_only (lookup : M ldb_result) (w w' : sysdb_ctx)
  (r : result (option ldb_result)) :
  read_only lookup -> or_enoent lookup w = (w', r) ->
  frame w w' /\ ldb w' = ldb w.
Proof.
  intros H; unfold or_enoent.
  destruct (lookup w) as [w1 [res | e]] eqn:E.
  - intros E'; inversion E'; subst; eapply H; eauto.
  - destruct (e =? ENOENT); intros E'; inversion E'; subst; eapply H; eauto.
Qed.

(** What [done] leaves of the entries when the transaction of the call
    is the innermost one. *)
Lemma done_entries (flag : bool) (r r' : result unit) (w w2 w' : sysdb_ctx) :
  txn w2 = ldb w :: txn w ->
  done flag r w2 = (w', r') ->
  ldb w' = ldb w2 \/ ldb w' = ldb w.
Proof.
  unfold done; intros T; destruct flag.
  - destruct (sysdb_transaction_cancel w2) as [w3 r3] eqn:C.
    intros E; inversion E; subst.
    destruct (cancel_entries _ _ _ C) as [L | (saved & open & X & L)];
      [left; exact L | right].
    rewrite T in X; inversion X; congruence.
  - intros E; inversion E; subst; left; reflexivity.
Qed.

(** X4.  Once its transaction is started, a removal only takes entries
    away: whatever it returns, the entries afterwards are entries from
    before the call, unchanged. *)
Theorem svc_delete_only_removes (indeterminate : bool)
  (name : option string) (port : Z) (proto : option string)
  (w w' : sysdb_ctx) (r : result unit) :
  snd (sysdb_transaction_start w) = Ok tt ->
  sysdb_svc_delete indeterminate name port proto w = (w', r) ->
  exists keep, ldb w' = filter keep (ldb w).
Proof.
  unfold sysdb_svc_delete.
  destruct (sysdb_transaction_start w) as [w1 r1] eqn:S; simpl; intros ->.
  destruct (transaction_start_cases _ _ _ S) as
    [(e & R & _) | (_ & L1 & T1 & _)]; [discriminate |].
  destruct (or_enoent (svc_delete_lookup name port proto) w1)
    as [w2 r2] eqn:Q.
  destruct (or_enoent_read_only _ _ _ _
              (read_only_delete_lookup name port proto) Q) as [(T2 & _) L2].
  assert (Tw2 : txn w2 = ldb w :: txn w) by congruence.
  assert (Same : forall flag r0 r0' wz,
            done flag r0 w2 = (wz, r0') ->
            exists keep, ldb wz = filter keep (ldb w)).
  { intros flag r0 r0' wz D; apply (shrinks_refl w wz).
    destruct (done_entries _ _ _ w _ _ Tw2 D); congruence. }
  destruct r2 as [[res |] | e];
    [| apply (Same true (Ok tt)) | apply (Same true (Fail e))].
  destruct (delete_entries false res w2) as [w3 r3] eqn:D.
  destruct (delete_entries_shrinks _ _ _ _ _ D) as [g Lg].
  destruct (framed_delete_entries false res _ _ _ D) as (T3 & _).
  assert (Shrunk : shrinks w w3).
  { exists g; rewrite Lg, L2, L1; reflexivity. }
  destruct r3 as [[] | e].
  - destruct (sysdb_transaction_commit w3) as [w4 r4] eqn:C.
    simpl; intros E; inversion E; subst.
    destruct Shrunk as [k Lk]; exists k.
    rewrite (commit_keeps_entries _ _ _ C); exact Lk.
  - intros E.
    destruct (done_entries true (Fail e) r w w3 w' (eq_trans T3 Tw2) E)
      as [L | L].
    + destruct Shrunk as [k Lk]; exists k; congruence.
    + apply (shrinks_refl w w'); exact L.
Qed.

(** X5.  A removal whose transaction was started and that fails before
    its commit changes nothing, when the cancel it runs succeeds: the
    entries and the open transactions are those from before the call. *)
Theorem svc_delete_failure_rolls_back (indeterminate : bool)
  (name : option string) (port : Z) (proto : option string)
  (w w' : sysdb_ctx) (e : errno) :
  snd (sysdb_transaction_start w) = Ok tt ->
  sysdb_svc_delete indeterminate name port proto w = (w', Fail e) ->
  hd_error (trace w') = Some (TRANSACTION_CANCEL, EOK) ->
  ldb w' = ldb w /\ txn w' = txn w.
Proof.
  unfold sysdb_svc_delete.
  destruct (sysdb_transaction_start w) as [w1 r1] eqn:S; simpl; intros ->.
  destruct (transaction_start_cases _ _ _ S) as
    [(e1 & R & _) | (_ & L1 & T1 & _)]; [discriminate |].
  destruct (or_enoent (svc_delete_lookup name port proto) w1)
    as [w2 r2] eqn:Q.
  destruct (or_enoent_read_only _ _ _ _
              (read_only_delete_lookup name port proto) Q) as [(T2 & _) L2].
  assert (Tw2 : txn w2 = ldb w :: txn w) by congruence.
  assert (Cancelled : forall wz r0 r0',
            txn wz = ldb w :: txn w ->
            done true r0 wz = (w', r0') ->
            hd_error (trace w') = Some (TRANSACTION_CANCEL, EOK) ->
            ldb w' = ldb w /\ txn w' = txn w).
  { intros wz r0 r0' Tz D H.
    destruct (done_cancels w wz w' r0 r0' Tz D) as (_ & L & T & _); auto.
    intros st Hst; rewrite H in Hst; inversion Hst; reflexivity. }
  destruct r2 as [[res |] | e2].
  - destruct (delete_entries false res w2) as [w3 [[] | e3]] eqn:D.
    + destruct (sysdb_transaction_commit w3) as [w4 r4] eqn:C.
      simpl; intros E H; inversion E; subst.
      rewrite (commit_trace _ _ _ C) in H; discriminate.
    + destruct (framed_delete_entries false res _ _ _ D) as (T3 & _).
      apply (Cancelled w3 (Fail e3)); congruence.
  - intros E; apply (done_result true (Ok tt)) in E; discriminate.
  - apply (Cancelled w2 (Fail e2)); exact Tw2.
Qed.


(** ** The calls of a run *)

















Lemma filter_disjoint {A} (f : A -> bool) (l : list A) :
  filter f (filter (fun x => negb (f x)) l) = [].
Proof.
  rewrite filter_filter; induction l as [| x l IH]; simpl; [reflexivity |].
  destruct (f x); simpl; exact IH.
Qed.

Lemma filter_all_in {A} (f : A -> bool) (l : list A) :
  (forall x, In x l -> f x = true) -> filter f l = l.
Proof.
  induction l as [| x l IH]; intros H; simpl; [reflexivity |].
  rewrite (H x (or_introl eq_refl)), IH; [reflexivity |].
  intros y I; apply H; right; exact I.
Qed.

(** Without script and among distinct identifiers, a removal returns
    [EOK], leaves the script empty and keeps the entries it did not
    select. *)
Lemma svc_delete_quiet_run (indeterminate : bool) (name : option string)
  (port : Z) (proto : option string) (w : sysdb_ctx) :
  faults w = [] -> (name = None -> 0 < port) ->
  NoDup (map dn (ldb w)) ->
  exists w',
    sysdb_svc_delete indeterminate name port proto w = (w', Ok tt)
    /\ faults w' = []
    /\ ldb w'
       = filter (fun m => negb (svc_selector name port proto m)) (ldb w).
Proof.
  intros F P N; unfold sysdb_svc_delete.
  rewrite transaction_start_quiet by exact F.
  set (w1 := log_call TRANSACTION_START EOK (set_txn (ldb w :: txn w) w)).
  destruct (delete_lookup_quiet name port proto w1 F P)
    as (w2 & E & F2 & T2 & L2).
  simpl in E, T2, L2; unfold or_enoent; rewrite E.
  destruct (filter (svc_selector name port proto) (ldb w)) as [| x rest] eqn:Sel.
  - simpl; unfold done.
    rewrite (transaction_cancel_quiet w2 (ldb w) (txn w) F2 T2).
    eexists; split; [reflexivity |]; simpl; split; [exact F2 |].
    symmetry; apply filter_all_in.
    intros m I; rewrite (filter_nil_none _ _ m Sel I); reflexivity.
  - rewrite found_nonempty by discriminate.
    destruct (delete_entries_quiet false (x :: rest) w2 F2)
      as (w3 & D & F3 & T3 & L3).
    + rewrite <- Sel; apply NoDup_dn_filter; exact N.
    + intros r I; apply dn_present; exists r; split; [| reflexivity].
      rewrite L2, <- Sel in *; apply filter_In in I; tauto.
    + rewrite D.
      rewrite (transaction_commit_quiet w3 (ldb w) (txn w) F3) by congruence.
      eexists; split; [reflexivity |]; simpl; split; [exact F3 |].
      rewrite L3, L2, <- Sel; apply not_among_selected; exact N.
Qed.

(** Beside C9, outside the data model: with no name given, a port that
    is not positive is refused with the [EINVAL] of the lookup, and the
    cancel leaves the entries and the open transactions as they were. *)
Lemma delete_refuses_nonpositive_port (indeterminate : bool) (port : Z)
  (proto : option string) (w : sysdb_ctx) :
  faults w = [] -> port <= 0 ->
  let after := sysdb_svc_delete indeterminate None port proto w in
  snd after = Fail EINVAL
  /\ ldb (fst after) = ldb w /\ txn (fst after) = txn w.
Proof.
  intros F Neg after; subst after; unfold sysdb_svc_delete.
  rewrite transaction_start_quiet by exact F.
  unfold or_enoent, svc_delete_lookup, sysdb_getservbyport.
  destruct (port <=? 0) eqn:P; [| apply Z.leb_gt in P; lia].
  simpl; unfold done.
  rewrite (transaction_cancel_quiet _ (ldb w) (txn w)) by (simpl; auto).
  simpl; auto.
Qed.

(** X7.  When the collaborators do not fail and the identifiers of the
    entries are distinct, a lookup that follows a removal, by the same
    name or positive port and the same protocol, answers [ENOENT]. *)
Theorem delete_then_lookup_enoent (indeterminate : bool)
  (name : option string) (port : Z) (proto : option string)
  (w : sysdb_ctx) :
  faults w = [] -> (name = None -> 0 < port) ->
  NoDup (map dn (ldb w)) ->
  let after := fst (sysdb_svc_delete indeterminate name port proto w) in
  snd (match name with
       | Some n => sysdb_getservbyname n proto after
       | None => sysdb_getservbyport port proto after
       end) = Fail ENOENT.
Proof.
  intros F P N after; subst after.
  destruct (svc_delete_quiet_run indeterminate name port proto w F P N)
    as (w' & -> & F' & L'); simpl fst.
  destruct (delete_lookup_quiet name port proto w' F' P) as (w2 & E & _).
  assert (H : snd (svc_delete_lookup name port proto w') = Fail ENOENT).
  { rewrite E, L'.
    rewrite (filter_disjoint (svc_selector name port proto)); reflexivity. }
  destruct name; exact H.
Qed.

(** ** Adding an entry *)

Lemma svc_add_shape (pn : string) (port : Z) (al pr : list string)
  (w w' : sysdb_ctx) (d : ldb_dn) :
  sysdb_svc_add pn port al pr w = (w', Ok d) ->
  d = SYSDB_TMPL_SVC pn (domain w)
  /\ ldb w' = ldb w ++ [svc_add_msg d pn port al pr (clock w)]
  /\ existsb (dn_eqb d) (ldb w) = false
  /\ pr <> [].
Proof.
  intros E.
  destruct (svc_add_cases _ _ _ _ _ _ _ E) as (created & L & X & Ne).
  revert E L; unfold sysdb_svc_add, sysdb_svc_dn.
  destruct (sysdb_dn_sanitize pn w) as [w1 [clean | e]] eqn:S;
    [| discriminate].
  destruct (framed_dn_sanitize pn w _ _ S) as (_ & Dm & Ck & _).
  assert (clean = pn).
  { destruct (collaborator_cases _ _ _ _ _ S) as
      [(e & R & _) | (w0 & w3 & E1 & _)]; [discriminate |].
    inversion E1; reflexivity. }
  subst clean; unfold bind.
  destruct (ldb_add _ w1) as [w2 [[] | e]] eqn:A; [| discriminate].
  intros E L; inversion E; subst.
  destruct (add_cases _ _ _ _ A) as [(_ & L2 & _) | (e & R & _)];
    [| discriminate].
  rewrite <- Ck; repeat split; auto.
  assert (L1 : ldb w1 = ldb w).
  { destruct (collaborator_cases _ _ _ _ _ S) as
      [(e & R & _) | (w0 & w3 & E1 & L0 & _ & _ & ->)]; [discriminate |].
    inversion E1; subst; exact L0. }
  rewrite L2, L1; reflexivity.
Qed.

Lemma svc_add_msg_values (d : ldb_dn) (pn : string) (port : Z)
  (al pr : list string) (created : Z) :
  let msg := svc_add_msg d pn port al pr created in
  msg_values SYSDB_NAME msg = [pn]
  /\ msg_values SYSDB_NAME_ALIAS msg = al
  /\ msg_values SYSDB_SVC_PORT msg = [fmt_decimal (to_ulong port)]
  /\ msg_values SYSDB_SVC_PROTO msg = pr
  /\ msg_values SYSDB_CREATE_TIME msg = [fmt_decimal (to_ulong created)].
Proof.
  intros msg; subst msg; rewrite svc_add_msg_elements.
  destruct al; repeat split.
Qed.

Lemma proto_filter_given (proto : option string) (m : ldb_message) :
  match proto with
  | Some p => In p (msg_values SYSDB_SVC_PROTO m)
  | None => msg_values SYSDB_SVC_PROTO m <> []
  end ->
  proto_filter proto m = true.
Proof.
  destruct proto as [p |]; simpl.
  - apply mem_In.
  - destruct (msg_values SYSDB_SVC_PROTO m); [congruence | reflexivity].
Qed.

(** X8.  An entry that [sysdb_svc_add] has added is stored under the
    identifier made from its name and the domain, and a lookup that
    meets no failing collaborator returns it for its name and for each
    of its aliases, with any of its protocols or with none given. *)
Theorem svc_add_found_by_name (pn : string) (port : Z)
  (al pr : list string) (w w' : sysdb_ctx) (d : ldb_dn)
  (n : string) (proto : option string) :
  sysdb_svc_add pn port al pr w = (w', Ok d) ->
  faults w' = [] ->
  n = pn \/ In n al ->
  match proto with Some p => In p pr | None => True end ->
  d = SYSDB_TMPL_SVC pn (domain w)
  /\ exists res,
       snd (sysdb_getservbyname n proto w') = Ok res
       /\ In (svc_add_msg d pn port al pr (clock w)) res.
Proof.
  intros E F Hn Hp.
  destruct (svc_add_shape _ _ _ _ _ _ _ E) as (D & L & _ & Ne).
  split; [exact D |].
  destruct (svc_add_msg_values d pn port al pr (clock w))
    as (Vn & Va & _ & Vr & _).
  rewrite getservbyname_quiet by exact F.
  set (msg := svc_add_msg d pn port al pr (clock w)) in *.
  assert (I : In msg (filter (SYSDB_SVC_BYNAME_FILTER proto n n) (ldb w'))).
  { apply filter_In; split.
    - rewrite L; apply in_or_app; right; left; reflexivity.
    - unfold SYSDB_SVC_BYNAME_FILTER; rewrite proto_filter_given.
      + rewrite Vn, Va; apply orb_true_iff.
        destruct Hn as [-> | Hn]; [right | left; apply mem_In; exact Hn].
        apply mem_In; left; reflexivity.
      + rewrite Vr; destruct proto; [exact Hp | exact Ne]. }
  eexists; split; [| exact I].
  rewrite found_nonempty; [reflexivity |].
  intros Nil; rewrite Nil in I; destruct I.
Qed.

(** X9.  An entry that [sysdb_svc_add] has added with a positive port,
    which fits an [int] as the parameter does, is returned by a lookup
    of this port that meets no failing collaborator, with any of its
    protocols or with none given. *)
Theorem svc_add_found_by_port (pn : string) (port : Z)
  (al pr : list string) (w w' : sysdb_ctx) (d : ldb_dn)
  (proto : option string) :
  sysdb_svc_add pn port al pr w = (w', Ok d) ->
  faults w' = [] ->
  0 < port < 2 ^ 31 ->
  match proto with Some p => In p pr | None => True end ->
  exists res,
    snd (sysdb_getservbyport port proto w') = Ok res
    /\ In (svc_add_msg d pn port al pr (clock w)) res.
Proof.
  intros E F Hport Hp.
  destruct (svc_add_shape _ _ _ _ _ _ _ E) as (D & L & _ & Ne).
  destruct (svc_add_msg_values d pn port al pr (clock w))
    as (_ & _ & Vp & Vr & _).
  rewrite getservbyport_quiet by (auto; lia).
  set (msg := svc_add_msg d pn port al pr (clock w)) in *.
  assert (I : In msg (filter (SYSDB_SVC_BYPORT_FILTER proto (to_uint port))
                        (ldb w'))).
  { apply filter_In; split.
    - rewrite L; apply in_or_app; right; left; reflexivity.
    - unfold SYSDB_SVC_BYPORT_FILTER; rewrite proto_filter_given.
      + rewrite Vp; apply mem_In; left.
        unfold to_ulong, to_uint; rewrite !Z.mod_small by lia; reflexivity.
      + rewrite Vr; destruct proto; [exact Hp | exact Ne]. }
  eexists; split; [| exact I].
  rewrite found_nonempty; [reflexivity |].
  intros Nil; rewrite Nil in I; destruct I.
Qed.

(** X10.  [sysdb_svc_add] adds nothing when it fails; it answers
    [ENOMEM] when the name cannot be escaped, whatever the error of the
    escaping; and it never succeeds while an entry holds the identifier
    made from the name: the collaborators not failing, it then answers
    [EEXIST]. *)
Theorem svc_add_failure (pn : string) (port : Z) (al pr : list string)
  (w : sysdb_ctx) :
  let after := sysdb_svc_add pn port al pr w in
  (forall e, snd after = Fail e ->
             ldb (fst after) = ldb w /\ txn (fst after) = txn w)
  /\ (forall e, snd (sysdb_dn_sanitize pn w) = Fail e ->
                snd after = Fail ENOMEM)
  /\ (existsb (dn_eqb (SYSDB_TMPL_SVC pn (domain w))) (ldb w) = true ->
      (forall d, snd after <> Ok d)
      /\ (faults w = [] -> snd after = Fail EEXIST)).
Proof.
  intros after; subst after; split; [| split].
  - intros e.
    destruct (sysdb_svc_add pn port al pr w) as [w' r] eqn:E; simpl.
    intros ->; split; [| apply (framed_svc_add pn port al pr _ _ _ E)].
    revert E; unfold sysdb_svc_add, sysdb_svc_dn.
    destruct (sysdb_dn_sanitize pn w) as [w1 r1] eqn:S.
    assert (L1 : ldb w1 = ldb w).
    { destruct (collaborator_cases _ _ _ _ _ S) as
        [(e1 & _ & _ & _ & L & _) | (w0 & w3 & E1 & L0 & _ & _ & ->)];
        [exact L |].
      inversion E1; subst; exact L0. }
    destruct r1 as [clean | e1].
    + unfold bind.
      destruct (ldb_add _ w1) as [w2 [[] | e2]] eqn:A; [discriminate |].
      intros E; inversion E; subst.
      destruct (add_cases _ _ _ _ A) as [(R & _) | (e' & _ & L2)];
        [discriminate | congruence].
    + intros E; inversion E; subst; exact L1.
  - intros e; unfold sysdb_svc_add, sysdb_svc_dn.
    destruct (sysdb_dn_sanitize pn w) as [w1 r1]; simpl.
    intros ->; reflexivity.
  - intros X; split.
    + intros d.
      destruct (sysdb_svc_add pn port al pr w) as [w' r] eqn:E; simpl.
      intros ->.
      destruct (svc_add_shape _ _ _ _ _ _ _ E) as (D & _ & X' & _).
      congruence.
    + intros F; unfold sysdb_svc_add, sysdb_svc_dn.
      rewrite dn_sanitize_quiet by exact F.
      unfold bind, ldb_add; rewrite collaborator_quiet by exact F.
      cbn [ldb log_call domain]; rewrite svc_add_msg_elements.
      cbn [dn]; rewrite X; reflexivity.
Qed.

(** ** What a write leaves alone *)

Lemma step_keeps (d : ldb_dn) (f : attr_name -> list string -> list string)
  (db db' : list ldb_message) (a : ldb_message) :
  entries_step d f db db' -> In a db -> d <> dn a -> In a db'.
Proof.
  intros [Fw _] I Ne; destruct (Fw a I) as (a' & I' & _ & R).
  unfold dn_eqb in R.
  destruct (String.eqb_spec (dn a) d); [congruence | subst; exact I'].
Qed.

(** The name pass does not touch an entry whose identifier is not among
    those found, and does not choose it for the update. *)
Lemma name_loop_untouched (a : ldb_message) (pn : string)
  (msgs : ldb_result) :
  forall update_dn w w' r,
    store_name_loop pn msgs update_dn w = (w', Ok r) ->
    (forall x, In x msgs -> dn x <> dn a) ->
    (forall d, update_dn = Some d -> d <> dn a) ->
    In a (ldb w) ->
    In a (ldb w') /\ (forall d, r = Some d -> d <> dn a).
Proof.
  induction msgs as [| x rest IH]; intros update_dn w w' r; simpl.
  - intros E _ U I; inversion E; subst; auto.
  - intros E H; revert E.
    assert (Hx : dn x <> dn a) by (apply H; left; reflexivity).
    assert (Hrest : forall y, In y rest -> dn y <> dn a)
      by (intros y Iy; apply H; right; exact Iy).
    destruct (ldb_msg_find_attr_as_string x SYSDB_NAME) as [name |].
    + destruct (String.eqb name pn).
      * destruct update_dn as [previous |].
        -- unfold bind.
           destruct (sysdb_delete_entry previous true w)
             as [w1 [[] | e]] eqn:D1; [| discriminate].
           destruct (sysdb_delete_entry (dn x) true w1)
             as [w2 [[] | e]] eqn:D2; [| discriminate].
           intros E U I; eapply IH; eauto; [discriminate |].
           eapply delete_entry_keeps; eauto.
           eapply delete_entry_keeps; eauto.
        -- intros E _ I; eapply IH; eauto.
           intros d Ud; inversion Ud; subst; exact Hx.
      * unfold bind.
        destruct (sysdb_svc_remove_alias (dn x) pn w)
          as [w1 [[] | e]] eqn:R1; [| discriminate].
        destruct (remove_alias_step _ _ _ _ R1) as (S & _).
        intros E U I; eapply IH; eauto.
        eapply step_keeps; eauto.
    + unfold bind.
      destruct (sysdb_delete_entry (dn x) true w)
        as [w1 [[] | e]] eqn:D1; [| discriminate].
      intros E U I; eapply IH; eauto.
      eapply delete_entry_keeps; eauto.
Qed.

Lemma name_pass_untouched (a : ldb_message) (pn : string)
  (w w' : sysdb_ctx) (r : option ldb_dn) :
  store_name_pass pn w = (w', Ok r) ->
  NoDup (map dn (ldb w)) -> In a (ldb w) ->
  SYSDB_SVC_BYNAME_FILTER None pn pn a = false ->
  In a (ldb w') /\ (forall d, r = Some d -> d <> dn a).
Proof.
  intros E N Ia Fa; revert E; unfold store_name_pass, bind.
  destruct (or_enoent (sysdb_getservbyname pn None) w)
    as [w1 [found_res | e]] eqn:Q; [| discriminate].
  apply or_enoent_cases in Q; destruct found_res as [res |].
  - destruct (getservbyname_cases _ _ _ _ _ Q) as (R & L & _).
    intros E; eapply name_loop_untouched; eauto.
    + intros x Ix Dx; rewrite R in Ix; apply filter_In in Ix.
      rewrite (same_dn_same_entry (ldb w) x a N (proj1 Ix) Ia Dx) in Ix.
      destruct Ix; congruence.
    + discriminate.
    + rewrite L; exact Ia.
  - intros E; inversion E; subst.
    destruct (read_only_getservbyname _ _ _ _ _ Q) as [_ L].
    rewrite L; split; [exact Ia | discriminate].
Qed.

Lemma apply_untouched (a : ldb_message) (pn : string) (port : Z)
  (al pr : list string) (update_dn : option ldb_dn) (w w' : sysdb_ctx)
  (d : ldb_dn) :
  store_apply pn port al pr update_dn w = (w', Ok d) ->
  (forall d0, update_dn = Some d0 -> d0 <> dn a) ->
  In a (ldb w) ->
  In a (ldb w') /\ d <> dn a.
Proof.
  destruct update_dn as [d0 |]; simpl.
  - unfold bind.
    destruct (sysdb_svc_update d0 port al pr w) as [w1 [[] | e]] eqn:U;
      [| discriminate].
    intros E H I; inversion E; subst.
    destruct (svc_update_step _ _ _ _ _ _ U) as (S & _).
    split; [| apply H; reflexivity].
    eapply step_keeps; eauto.
  - intros E _ I.
    destruct (svc_add_cases _ _ _ _ _ _ _ E) as (created & L & X & _).
    split; [rewrite L; apply in_or_app; left; exact I |].
    intros D.
    assert (existsb (dn_eqb d) (ldb w) = true) as X'; [| congruence].
    apply dn_present; exists a; auto.
Qed.

(** X11.  A write that succeeds leaves alone the entries it has no
    business with: among distinct identifiers, an entry that the lookup
    of the port does not return, nor the lookup of the name, is still
    there afterwards, unchanged, whichever collaborator calls failed on
    the way. *)
Theorem store_keeps_unrelated (pn : string) (port : Z)
  (al pr : list string) (ct now : Z) (w w' : sysdb_ctx)
  (a : ldb_message) :
  NoDup (map dn (ldb w)) -> In a (ldb w) ->
  SYSDB_SVC_BYPORT_FILTER None (to_uint port) a = false ->
  SYSDB_SVC_BYNAME_FILTER None pn pn a = false ->
  sysdb_store_service pn port al pr ct now w = (w', Ok tt) ->
  In a (ldb w').
Proof.
  intros N Ia Fp Fn E.
  destruct (store_service_stages _ _ _ _ _ _ _ _ E)
    as (w1 & w2 & w3 & w4 & update_dn & d & S & P & A & T & C).
  destruct (transaction_start_cases _ _ _ S) as
    [(e & R & _) | (_ & L1 & _)]; [discriminate |].
  rewrite <- L1 in N, Ia.
  revert P; unfold store_passes, bind.
  destruct (store_port_pass pn port w1) as [wp [[] | e]] eqn:Pp;
    [| discriminate].
  intros Pn.
  assert (Ip : In a (ldb wp)) by (eapply port_pass_keeps; eauto).
  assert (Np : NoDup (map dn (ldb wp))).
  { destruct (port_pass_shrinks _ _ _ _ _ Pp) as [g Lg].
    rewrite Lg; apply NoDup_dn_filter; exact N. }
  destruct (name_pass_untouched a pn _ _ _ Pn Np Ip Fn) as [I2 U2].
  destruct (apply_untouched a _ _ _ _ _ _ _ _ A U2 I2) as [I3 D3].
  destruct (timestamps_step _ _ _ _ _ T) as (S4 & _).
  rewrite (commit_keeps_entries _ _ _ C).
  eapply step_keeps; eauto.
Qed.

(** X13.  After a write that succeeds, for a port that fits an [int], a
    lookup of the port that meets no failing collaborator returns an
    entry named [pn] that carries the protocols written; the lookup
    may be narrowed to any of these protocols. *)
Theorem store_then_lookup_by_port (pn : string) (port : Z)
  (al pr : list string) (ct now : Z) (w w' : sysdb_ctx)
  (proto : option string) :
  sysdb_store_service pn port al pr ct now w = (w', Ok tt) ->
  port < 2 ^ 31 -> faults w' = [] ->
  match proto with Some p => In p pr | None => True end ->
  exists res m,
    snd (sysdb_getservbyport port proto w') = Ok res
    /\ In m res /\ find_name m = Some pn
    /\ msg_values SYSDB_SVC_PROTO m = pr.
Proof.
  intros E Small F Hp.
  destruct (store_service_applied _ _ _ _ _ _ _ _ E)
    as (Pos & Ne & m & d & I & (D & N & Vp & Vr) & _).
  rewrite getservbyport_quiet by assumption.
  assert (Im : In m (filter (SYSDB_SVC_BYPORT_FILTER proto (to_uint port))
                       (ldb w'))).
  { apply filter_In; split; [exact I |].
    unfold SYSDB_SVC_BYPORT_FILTER; rewrite proto_filter_given.
    - rewrite Vp; apply mem_In; left.
      unfold to_ulong, to_uint; rewrite !Z.mod_small by lia; reflexivity.
    - rewrite Vr; destruct proto; [exact Hp | exact Ne]. }
  exists (filter (SYSDB_SVC_BYPORT_FILTER proto (to_uint port)) (ldb w')), m.
  split; [| auto].
  rewrite found_nonempty; [reflexivity |].
  intros Nil; rewrite Nil in Im; destruct Im.
Qed.

(** ** One entry per name *)

(** Through the name pass, an entry named [pn] is still to be examined,
    or it is the entry to update. *)
Lemma name_loop_named (pn : string) (msgs : ldb_result) :
  forall update_dn w w' r,
    store_name_loop pn msgs update_dn w = (w', Ok r) ->
    NoDup (map dn msgs) ->
    (forall d, update_dn = Some d -> ~ In d (map dn msgs)) ->
    (forall m, In m (ldb w) -> find_name m = Some pn ->
               In m msgs \/ update_dn = Some (dn m)) ->
    forall m, In m (ldb w') -> find_name m = Some pn -> r = Some (dn m).
Proof.
  induction msgs as [| x rest IH]; intros update_dn w w' r; simpl.
  - intros E _ _ H m I C; inversion E; subst.
    destruct (H m I C) as [[] | U]; exact U.
  - intros E N; inversion N as [| ? ? Nx Nrest]; subst; revert E.
    fold (find_name x); destruct (find_name x) as [name |] eqn:Name.
    + destruct (String.eqb_spec name pn) as [-> | Ne].
      * destruct update_dn as [previous |].
        -- unfold bind.
           destruct (sysdb_delete_entry previous true w)
             as [w1 [[] | e]] eqn:D1; [| discriminate].
           destruct (sysdb_delete_entry (dn x) true w1)
             as [w2 [[] | e]] eqn:D2; [| discriminate].
           apply delete_entry_ok in D1, D2.
           intros E U H; eapply IH; eauto; [discriminate |].
           intros m I C; left.
           rewrite D2 in I; apply filter_In in I; destruct I as [I Dx].
           rewrite D1 in I; apply filter_In in I; destruct I as [I Dp].
           destruct (H m I C) as [[<- | Ir] | Um]; auto.
           ++ rewrite dn_eqb_self in Dx; discriminate.
           ++ inversion Um; subst previous.
              rewrite dn_eqb_self in Dp; discriminate.
        -- intros E _ H; eapply IH; eauto.
           ++ intros d Ud; inversion Ud; subst; exact Nx.
           ++ intros m I C; destruct (H m I C) as [[<- | Ir] | Um];
                auto; discriminate.
      * unfold bind.
        destruct (sysdb_svc_remove_alias (dn x) pn w)
          as [w1 [[] | e]] eqn:R1; [| discriminate].
        destruct (remove_alias_step _ _ _ _ R1) as ([_ Bw] & _).
        intros E U H; eapply IH; eauto.
        -- intros d Ud I; apply (U d Ud); right; exact I.
        -- intros m' I' C'; destruct (Bw m' I') as (m & I & D & R).
           destruct (dn_eqb (dn x) m) eqn:Dx.
           ++ exfalso; unfold dn_eqb in Dx; apply String.eqb_eq in Dx.
              assert (C : find_name m = Some pn).
              { unfold find_name, ldb_msg_find_attr_as_string, msg_values
                  in *.
                rewrite (R SYSDB_NAME) in C'; exact C'. }
              destruct (H m I C) as [[<- | Ir] | Um].
              ** congruence.
              ** apply Nx; rewrite <- Dx; apply in_map; exact Ir.
              ** apply (U (dn m) Um); left; congruence.
           ++ subst m'; destruct (H m I C') as [[<- | Ir] | Um]; auto.
              rewrite dn_eqb_self in Dx; discriminate.
    + unfold bind.
      destruct (sysdb_delete_entry (dn x) true w)
        as [w1 [[] | e]] eqn:D1; [| discriminate].
      apply delete_entry_ok in D1.
      intros E U H; eapply IH; eauto.
      * intros d Ud I; apply (U d Ud); right; exact I.
      * intros m I C; rewrite D1 in I; apply filter_In in I.
        destruct I as [I Dx].
        destruct (H m I C) as [[<- | Ir] | Um]; auto.
        rewrite dn_eqb_self in Dx; discriminate.
Qed.

Lemma passes_named (pn : string) (port : Z) (w w' : sysdb_ctx)
  (update_dn : option ldb_dn) :
  faults w = [] -> cache_invariant (ldb w) ->
  store_passes pn port w = (w', Ok update_dn) ->
  forall m, In m (ldb w') -> find_name m = Some pn ->
            update_dn = Some (dn m).
Proof.
  intros F Inv; unfold store_passes, bind.
  destruct (store_port_pass pn port w) as [wp [[] | e]] eqn:Pp;
    [| discriminate].
  assert (Fp : faults wp = [])
    by (apply (framed_port_pass pn port _ _ _ Pp); exact F).
  assert (Invp : cache_invariant (ldb wp)).
  { destruct (port_pass_shrinks _ _ _ _ _ Pp) as [g Lg].
    rewrite Lg; apply cache_invariant_filter; exact Inv. }
  unfold store_name_pass, bind, or_enoent.
  rewrite getservbyname_quiet by exact Fp.
  assert (Claim : forall m, In m (ldb wp) -> find_name m = Some pn ->
            In m (filter (SYSDB_SVC_BYNAME_FILTER None pn pn) (ldb wp))).
  { intros m I C; apply filter_In; split; [exact I |].
    apply named_entry_matches; [exact C |].
    destruct Invp as (_ & V & _); apply V, I. }
  assert (Nres : NoDup (map dn (filter (SYSDB_SVC_BYNAME_FILTER None pn pn)
                                  (ldb wp))))
    by (apply NoDup_dn_filter, Invp).
  destruct (filter (SYSDB_SVC_BYNAME_FILTER None pn pn) (ldb wp))
    as [| x rest] eqn:Q.
  - simpl; intros E; inversion E; subst; simpl.
    intros m I C; destruct (Claim m I C).
  - simpl found; unfold ret at 1; cbv iota beta.
    intros E m I C.
    apply (name_loop_named pn (x :: rest) None _ w' update_dn E Nres);
      auto; discriminate.
Qed.

Lemma apply_named (pn : string) (port : Z) (al pr : list string)
  (update_dn : option ldb_dn) (w w' : sysdb_ctx) (d : ldb_dn) :
  store_apply pn port al pr update_dn w = (w', Ok d) ->
  (forall m, In m (ldb w) -> find_name m = Some pn ->
             update_dn = Some (dn m)) ->
  forall m, In m (ldb w') -> find_name m = Some pn -> dn m = d.
Proof.
  destruct update_dn as [d0 |]; simpl.
  - unfold bind.
    destruct (sysdb_svc_update d0 port al pr w) as [w1 [[] | e]] eqn:U;
      [| discriminate].
    intros E H m' I' C'; inversion E; subst.
    destruct (svc_update_step _ _ _ _ _ _ U) as ([_ Bw] & _).
    destruct (Bw m' I') as (m & I & D & R).
    destruct (dn_eqb d m) eqn:Dm.
    + unfold dn_eqb in Dm; apply String.eqb_eq in Dm; congruence.
    + subst m'; specialize (H m I C'); inversion H; reflexivity.
  - intros E H m I C.
    destruct (svc_add_cases _ _ _ _ _ _ _ E) as (created & L & _).
    rewrite L in I; apply in_app_or in I; destruct I as [I | [<- | []]].
    + specialize (H m I C); discriminate.
    + apply (svc_add_msg_applied d pn port al pr created).
Qed.

Lemma apply_distinct (pn : string) (port : Z) (al pr : list string)
  (update_dn : option ldb_dn) (w w' : sysdb_ctx) (d : ldb_dn) :
  store_apply pn port al pr update_dn w = (w', Ok d) ->
  NoDup (map dn (ldb w)) -> NoDup (map dn (ldb w')).
Proof.
  destruct update_dn as [d0 |]; simpl.
  - unfold bind.
    destruct (sysdb_svc_update d0 port al pr w) as [w1 [[] | e]] eqn:U;
      [| discriminate].
    intros E N; inversion E; subst.
    destruct (svc_update_step _ _ _ _ _ _ U) as (_ & _ & Md & _).
    rewrite Md; exact N.
  - intros E N.
    destruct (svc_add_cases _ _ _ _ _ _ _ E) as (created & L & X & _).
    rewrite L; apply NoDup_dn_added; [exact N |].
    rewrite (proj1 (svc_add_msg_applied d pn port al pr created)); exact X.
Qed.

(** X14.  When no collaborator fails, a successful write to a cache in
    order leaves exactly one entry named [pn]: the duplicates of the
    name are gone. *)
Theorem store_name_unique (pn : string) (port : Z) (al pr : list string)
  (ct now : Z) (w w' : sysdb_ctx) :
  faults w = [] -> cache_invariant (ldb w) ->
  sysdb_store_service pn port al pr ct now w = (w', Ok tt) ->
  exists m,
    In m (ldb w') /\ find_name m = Some pn
    /\ forall m', In m' (ldb w') -> find_name m' = Some pn -> m' = m.
Proof.
  intros F Inv E.
  destruct (store_service_stages _ _ _ _ _ _ _ _ E)
    as (w1 & w2 & w3 & w4 & update_dn & d & S & P & A & T & C).
  destruct (transaction_start_cases _ _ _ S) as
    [(e & R & _) | (_ & L1 & _ & F1)]; [discriminate |].
  specialize (F1 F); rewrite <- L1 in Inv.
  destruct (passes_claimants pn port w1 w2 update_dn F1 Inv P) as [Inv2 _].
  pose proof (passes_named pn port w1 w2 update_dn F1 Inv P) as Nm2.
  pose proof (apply_named _ _ _ _ _ _ _ _ A Nm2) as Nm3.
  assert (N3 : NoDup (map dn (ldb w3)))
    by (eapply apply_distinct; eauto; apply Inv2).
  destruct (apply_applied _ _ _ _ _ _ _ _ A) as (_ & m3 & I3 & D3 & N3' & _).
  { intros d0 ->; eapply passes_tracked; eauto. }
  destruct (timestamps_step _ _ _ _ _ T) as (S4 & _ & Md4).
  destruct (step_forward _ _ _ _ m3 S4 I3 D3) as (m4 & I4 & D4 & V4).
  pose proof (commit_keeps_entries _ _ _ C) as L'.
  rewrite L'; exists m4; split; [exact I4 | split].
  - unfold find_name, ldb_msg_find_attr_as_string in *.
    rewrite V4; exact N3'.
  - intros m' I' C'.
    apply (same_dn_same_entry (ldb w4)); auto; [rewrite Md4; exact N3 |].
    rewrite D4; destruct S4 as [_ Bw].
    destruct (Bw m' I') as (x & Ix & Dx & R).
    destruct (dn_eqb d x) eqn:Dm.
    + unfold dn_eqb in Dm; apply String.eqb_eq in Dm; congruence.
    + subst m'; apply Nm3; assumption.
Qed.

(** ** A first write *)

Lemma modify_entries_absent (d : ldb_dn) (mods : list ldb_message_element)
  (db : list ldb_message) :
  existsb (dn_eqb d) db = false -> modify_entries d mods db = Some db.
Proof.
  induction db as [| m rest IH]; simpl; [reflexivity |].
  intros X; apply orb_false_iff in X; destruct X as [Xm Xr].
  rewrite Xm, (IH Xr); reflexivity.
Qed.

Lemma modify_entries_last (mods els' : list ldb_message_element)
  (db : list ldb_message) (m : ldb_message) :
  existsb (dn_eqb (dn m)) db = false ->
  apply_mods mods (elements m) = Some els' ->
  modify_entries (dn m) mods (db ++ [m]) = Some (db ++ [mk_msg (dn m) els']).
Proof.
  intros X A; induction db as [| x rest IH]; simpl.
  - rewrite dn_eqb_self, A; reflexivity.
  - simpl in X; apply orb_false_iff in X; destruct X as [Xm Xr].
    rewrite Xm, (IH Xr); reflexivity.
Qed.

Lemma timestamps_on_last (ct now : Z) (m : ldb_message)
  (db : list ldb_message) (w : sysdb_ctx) :
  faults w = [] -> ldb w = db ++ [m] ->
  existsb (dn_eqb (dn m)) db = false ->
  store_timestamps (dn m) ct now w
  = (log_call LDB_MODIFY EOK (set_ldb (db ++ [stamped ct now m]) w), Ok tt).
Proof.
  intros F L X; unfold store_timestamps, sysdb_set_entry_attr; simpl.
  apply modify_quiet; [exact F | |]; rewrite L; cbn [dn elements].
  - rewrite existsb_app; simpl; rewrite dn_eqb_self.
    apply orb_true_iff; right; reflexivity.
  - apply modify_entries_last; [exact X | reflexivity].
Qed.

Lemma port_pass_nothing (pn : string) (port : Z) (w : sysdb_ctx) :
  faults w = [] -> 0 < port ->
  filter (SYSDB_SVC_BYPORT_FILTER None (to_uint port)) (ldb w) = [] ->
  store_port_pass pn port w = (log_call LDB_SEARCH EOK w, Ok tt).
Proof.
  intros F Pos Q; unfold store_port_pass, bind, or_enoent.
  rewrite getservbyport_quiet by assumption.
  rewrite Q; reflexivity.
Qed.

Lemma name_pass_nothing (pn : string) (w : sysdb_ctx) :
  faults w = [] ->
  filter (SYSDB_SVC_BYNAME_FILTER None pn pn) (ldb w) = [] ->
  store_name_pass pn w
  = (log_call LDB_SEARCH EOK (log_call SSS_FILTER_SANITIZE EOK w), Ok None).
Proof.
  intros F Q; unfold store_name_pass, bind, or_enoent.
  rewrite getservbyname_quiet by assumption.
  rewrite Q; reflexivity.
Qed.

Lemma svc_add_quiet (pn : string) (port : Z) (al pr : list string)
  (w : sysdb_ctx) :
  faults w = [] -> pr <> [] ->
  let d := SYSDB_TMPL_SVC pn (domain w) in
  existsb (dn_eqb d) (ldb w) = false ->
  sysdb_svc_add pn port al pr w
  = (log_call LDB_ADD EOK
       (set_ldb (ldb w ++ [svc_add_msg d pn port al pr (clock w)])
          (log_call SYSDB_DN_SANITIZE EOK w)), Ok d).
Proof.
  intros F Npr d X; subst d.
  unfold sysdb_svc_add, sysdb_svc_dn.
  rewrite dn_sanitize_quiet by exact F.
  unfold bind; rewrite add_quiet.
  - reflexivity.
  - exact F.
  - rewrite svc_add_msg_elements; exact X.
  - rewrite svc_add_msg_elements.
    destruct al, pr; simpl; congruence.
Qed.

(** The write of a service that the cache does not know: no entry
    claims the port, none has the name or claims it as alias, and the
    identifier made from the name is free. *)
Lemma store_service_fresh (pn : string) (port : Z) (al pr : list string)
  (ct now : Z) (w : sysdb_ctx) :
  faults w = [] -> 0 < port -> pr <> [] ->
  filter (SYSDB_SVC_BYPORT_FILTER None (to_uint port)) (ldb w) = [] ->
  filter (SYSDB_SVC_BYNAME_FILTER None pn pn) (ldb w) = [] ->
  existsb (dn_eqb (SYSDB_TMPL_SVC pn (domain w))) (ldb w) = false ->
  exists w',
    sysdb_store_service pn port al pr ct now w = (w', Ok tt)
    /\ ldb w'
       = ldb w ++ [stamped ct now
                     (svc_add_msg (SYSDB_TMPL_SVC pn (domain w)) pn port
                        al pr (clock w))]
    /\ txn w' = txn w /\ faults w' = [] /\ domain w' = domain w.
Proof.
  intros F Pos Npr Qp Qn X.
  unfold sysdb_store_service.
  rewrite transaction_start_quiet by exact F.
  set (w1 := log_call TRANSACTION_START EOK (set_txn (ldb w :: txn w) w)).
  unfold store_steps, store_passes, bind.
  rewrite (port_pass_nothing pn port w1 F Pos Qp).
  rewrite name_pass_nothing by assumption.
  unfold store_apply; rewrite svc_add_quiet by assumption.
  cbn [domain clock ldb log_call set_txn set_ldb w1].
  set (added := svc_add_msg (SYSDB_TMPL_SVC pn (domain w)) pn port al pr
                  (clock w)).
  replace (SYSDB_TMPL_SVC pn (domain w)) with (dn added) in *
    by (unfold added; rewrite svc_add_msg_elements; reflexivity).
  rewrite (timestamps_on_last ct now added (ldb w))
    by (simpl; auto).
  rewrite (transaction_commit_quiet _ (ldb w) (txn w)) by (simpl; auto).
  eexists; split; [reflexivity |]; simpl; auto.
Qed.

Lemma stamped_values_kept (ct now : Z) (m : ldb_message) (a : attr_name) :
  msg_values a (stamped ct now m) = stamped_values ct now a (msg_values a m).
Proof.
  unfold msg_values, stamped; cbn [elements].
  rewrite !el_find_set; destruct a; reflexivity.
Qed.

(** X15.  The write of a service that the cache does not know, the
    collaborators not failing: no entry claims the port, none has the
    name or claims it as alias, and the identifier made from the name
    is free.  The write returns [EOK], the entries of before are all
    there, in their order and unchanged, followed by the one new entry,
    which carries the record with the two times; the open transactions
    are those of before. *)
Theorem store_adds_unknown_service (pn : string) (port : Z)
  (al pr : list string) (ct now : Z) (w : sysdb_ctx) :
  faults w = [] -> 0 < port -> pr <> [] ->
  filter (SYSDB_SVC_BYPORT_FILTER None (to_uint port)) (ldb w) = [] ->
  filter (SYSDB_SVC_BYNAME_FILTER None pn pn) (ldb w) = [] ->
  existsb (dn_eqb (SYSDB_TMPL_SVC pn (domain w))) (ldb w) = false ->
  let after := sysdb_store_service pn port al pr ct now w in
  let added :=
    svc_add_msg (SYSDB_TMPL_SVC pn (domain w)) pn port al pr (clock w) in
  snd after = Ok tt
  /\ ldb (fst after) = ldb w ++ [stamped ct now added]
  /\ txn (fst after) = txn w
  /\ msg_values SYSDB_NAME (stamped ct now added) = [pn]
  /\ msg_values SYSDB_NAME_ALIAS (stamped ct now added) = al
  /\ msg_values SYSDB_SVC_PORT (stamped ct now added)
     = [fmt_decimal (to_ulong port)]
  /\ msg_values SYSDB_SVC_PROTO (stamped ct now added) = pr
  /\ msg_values SYSDB_CREATE_TIME (stamped ct now added)
     = [fmt_decimal (to_ulong (clock w))]
  /\ msg_values SYSDB_LAST_UPDATE (stamped ct now added) = [fmt_decimal now]
  /\ msg_values SYSDB_CACHE_EXPIRE (stamped ct now added)
     = [fmt_decimal (cache_expire ct now)].
Proof.
  intros F Pos Npr Qp Qn X after added; subst after.
  destruct (store_service_fresh pn port al pr ct now w F Pos Npr Qp Qn X)
    as (w' & -> & L & T & _).
  destruct (svc_add_msg_values (SYSDB_TMPL_SVC pn (domain w)) pn port al pr
              (clock w)) as (Vn & Va & Vp & Vr & Vc).
  fold added in L, Vn, Va, Vp, Vr, Vc.
  rewrite !stamped_values_kept, Vn, Va, Vp, Vr, Vc.
  simpl; repeat split; assumption.
Qed.

(** X16.  A write followed by a removal undoes itself: when the
    collaborators do not fail and the identifiers are distinct, the
    removal by name of a service just written to a cache that did not
    know it leaves the entries of before the write. *)
Theorem store_then_delete_restores (indeterminate : bool) (pn : string)
  (port port' : Z) (al pr : list string) (ct now : Z) (w : sysdb_ctx) :
  faults w = [] -> 0 < port -> pr <> [] ->
  NoDup (map dn (ldb w)) ->
  filter (SYSDB_SVC_BYPORT_FILTER None (to_uint port)) (ldb w) = [] ->
  filter (SYSDB_SVC_BYNAME_FILTER None pn pn) (ldb w) = [] ->
  existsb (dn_eqb (SYSDB_TMPL_SVC pn (domain w))) (ldb w) = false ->
  let stored := fst (sysdb_store_service pn port al pr ct now w) in
  let after := sysdb_svc_delete indeterminate (Some pn) port' None stored in
  snd after = Ok tt /\ ldb (fst after) = ldb w.
Proof.
  intros F Pos Npr N Qp Qn X stored after; subst after stored.
  destruct (store_service_fresh pn port al pr ct now w F Pos Npr Qp Qn X)
    as (w' & -> & L & T & F' & _); simpl fst.
  set (added := svc_add_msg (SYSDB_TMPL_SVC pn (domain w)) pn port al pr
                  (clock w)) in *.
  assert (Dn : dn (stamped ct now added) = SYSDB_TMPL_SVC pn (domain w))
    by (unfold added; rewrite svc_add_msg_elements; reflexivity).
  assert (N' : NoDup (map dn (ldb w'))).
  { rewrite L; apply NoDup_dn_added; [exact N | rewrite Dn; exact X]. }
  destruct (svc_delete_quiet_run indeterminate (Some pn) port' None w' F')
    as (w2 & -> & _ & L2); [discriminate | exact N' |].
  split; [reflexivity |]; simpl fst.
  rewrite L2, L, filter_app; cbn [svc_selector filter].
  rewrite named_entry_matches.
  - rewrite app_nil_r; apply filter_all_in.
    intros m I; rewrite (filter_nil_none _ _ m Qn I); reflexivity.
  - apply stamped_named, add_msg_named.
  - rewrite stamped_values_kept; cbn [stamped_values].
    unfold added; rewrite (proj1 (proj2 (proj2 (proj2
      (svc_add_msg_values (SYSDB_TMPL_SVC pn (domain w)) pn port al pr
         (clock w)))))).
    exact Npr.
Qed.

(** ** The refresh of a service the cache knows *)

Lemma port_pass_keeps_owner (m : ldb_message) (pn : string) (port : Z)
  (w w' : sysdb_ctx) (r : result unit) :
  store_port_pass pn port w = (w', r) ->
  cache_invariant (ldb w) -> In m (ldb w) -> find_name m = Some pn ->
  In m (ldb w').
Proof.
  intros E (N & _ & U) Im Nm.
  destruct (SYSDB_SVC_BYPORT_FILTER None (to_uint port) m) eqn:Fm;
    [| eapply port_pass_keeps; eauto].
  revert E; unfold store_port_pass, bind.
  destruct (or_enoent (sysdb_getservbyport port None) w)
    as [w1 [found_res | e]] eqn:Q.
  - apply or_enoent_cases in Q; destruct found_res as [res |].
    + destruct (getservbyport_cases _ _ _ _ _ Q) as (R & L & _).
      assert (Same : forall x, In x res -> x = m).
      { intros x Ix; rewrite R in Ix; apply filter_In in Ix.
        destruct Ix as [Ix Fx].
        apply (same_dn_same_entry (ldb w) x m N Ix Im).
        unfold SYSDB_SVC_BYPORT_FILTER in Fx, Fm.
        apply andb_true_iff in Fx, Fm.
        apply (U x m (fmt_decimal (to_uint port))); auto;
          apply mem_In; tauto. }
      assert (Nres : NoDup (map dn res))
        by (rewrite R; apply NoDup_dn_filter; exact N).
      destruct res as [| x [| y rest]].
      * intros E; inversion E; subst; rewrite L; exact Im.
      * rewrite (Same x (or_introl eq_refl)).
        fold (find_name m); rewrite Nm, String.eqb_refl.
        intros E; inversion E; subst; rewrite L; exact Im.
      * exfalso.
        rewrite (Same x (or_introl eq_refl)) in Nres.
        rewrite (Same y (or_intror (or_introl eq_refl))) in Nres.
        inversion Nres as [| ? ? Nx _]; apply Nx; left; reflexivity.
    + intros E; inversion E; subst.
      destruct (read_only_getservbyport _ _ _ _ _ Q) as [_ L].
      rewrite L; exact Im.
  - intros E; inversion E; subst; revert Q; unfold or_enoent.
    destruct (sysdb_getservbyport port None w) as [w0 [res | e0]] eqn:G;
      destruct (read_only_getservbyport _ _ _ _ _ G) as [_ L0].
    + discriminate.
    + destruct (e0 =? ENOENT); intros E'; inversion E'; subst.
      rewrite L0; exact Im.
Qed.

(** The name pass chooses the one entry named [pn] for the update and
    does not touch it. *)
Lemma name_loop_sole (m : ldb_message) (pn : string) (msgs : ldb_result) :
  forall update_dn w w' r,
    store_name_loop pn msgs update_dn w = (w', Ok r) ->
    NoDup (map dn msgs) ->
    (forall x, In x msgs -> find_name x = Some pn -> x = m) ->
    find_name m = Some pn ->
    (update_dn = None /\ In m msgs)
    \/ (update_dn = Some (dn m) /\ ~ In (dn m) (map dn msgs)) ->
    In m (ldb w) ->
    In m (ldb w') /\ r = Some (dn m).
Proof.
  induction msgs as [| x rest IH]; intros update_dn w w' r; simpl.
  - intros E _ _ _ [[_ []] | [U _]] I; inversion E; subst; auto.
  - intros E N; inversion N as [| ? ? Nx Nrest]; subst; revert E.
    intros E Sole Nm Inv Im.
    assert (Sole' : forall y, In y rest -> find_name y = Some pn -> y = m)
      by (intros y Iy; apply Sole; right; exact Iy).
    assert (Other : find_name x <> Some pn -> dn x <> dn m
              /\ ((update_dn = None /\ In m rest)
                  \/ (update_dn = Some (dn m)
                      /\ ~ In (dn m) (map dn rest)))).
    { intros Ne; destruct Inv as [[U [-> | Ir]] | [U Nin]].
      - congruence.
      - split; [| left; auto].
        intros D; apply Nx; rewrite D; apply in_map; exact Ir.
      - split; [| right; split; [exact U |]];
          intros D; apply Nin; [left; exact D | right; exact D]. }
    revert E; fold (find_name x).
    destruct (find_name x) as [name |] eqn:Name.
    + destruct (String.eqb_spec name pn) as [-> | Ne].
      * assert (x = m) by (apply Sole; auto); subst x.
        destruct Inv as [[-> _] | [U Nin]];
          [| exfalso; apply Nin; left; reflexivity].
        intros E; eapply IH; eauto.
      * destruct Other as [Dx Inv']; [congruence |].
        unfold bind.
        destruct (sysdb_svc_remove_alias (dn x) pn w)
          as [w1 [[] | e]] eqn:R1; [| discriminate].
        destruct (remove_alias_step _ _ _ _ R1) as (S & _).
        intros E; eapply IH; eauto.
        eapply step_keeps; eauto.
    + destruct Other as [Dx Inv']; [congruence |].
      unfold bind.
      destruct (sysdb_delete_entry (dn x) true w)
        as [w1 [[] | e]] eqn:D1; [| discriminate].
      intros E; eapply IH; eauto.
      eapply delete_entry_keeps; eauto.
Qed.

Lemma name_pass_sole (m : ldb_message) (pn : string) (w w' : sysdb_ctx)
  (r : option ldb_dn) :
  faults w = [] -> NoDup (map dn (ldb w)) ->
  In m (ldb w) -> find_name m = Some pn ->
  msg_values SYSDB_SVC_PROTO m <> [] ->
  (forall x, In x (ldb w) -> find_name x = Some pn -> x = m) ->
  store_name_pass pn w = (w', Ok r) ->
  In m (ldb w') /\ r = Some (dn m).
Proof.
  intros F N Im Nm Pm Sole; unfold store_name_pass, bind, or_enoent.
  rewrite getservbyname_quiet by exact F.
  assert (Ir : In m (filter (SYSDB_SVC_BYNAME_FILTER None pn pn) (ldb w))).
  { apply filter_In; split; [exact Im |].
    apply named_entry_matches; assumption. }
  assert (Nres : NoDup (map dn (filter (SYSDB_SVC_BYNAME_FILTER None pn pn)
                                  (ldb w))))
    by (apply NoDup_dn_filter, N).
  assert (Sres : forall x,
            In x (filter (SYSDB_SVC_BYNAME_FILTER None pn pn) (ldb w)) ->
            find_name x = Some pn -> x = m).
  { intros x Ix; apply filter_In in Ix; apply Sole, Ix. }
  destruct (filter (SYSDB_SVC_BYNAME_FILTER None pn pn) (ldb w))
    as [| x rest] eqn:Q; [destruct Ir |].
  simpl found; unfold ret at 1; cbv iota beta.
  intros E.
  apply (name_loop_sole m pn (x :: rest) None _ w' r E Nres Sres Nm); auto.
Qed.

(** X17.  The refresh of a service the cache knows, the collaborators
    not failing: the cache is in order and one entry only is named
    [pn].  A write of [pn] that succeeds keeps this entry under its
    identifier, with its name, its object class and its creation time,
    and gives it the port, the protocols and the two times written; its
    aliases are replaced when aliases are given and kept otherwise. *)
Theorem store_refreshes_known_service (pn : string) (port : Z)
  (al pr : list string) (ct now : Z) (w w' : sysdb_ctx)
  (m : ldb_message) :
  faults w = [] -> cache_invariant (ldb w) ->
  In m (ldb w) -> find_name m = Some pn ->
  (forall x, In x (ldb w) -> find_name x = Some pn -> x = m) ->
  sysdb_store_service pn port al pr ct now w = (w', Ok tt) ->
  exists m',
    In m' (ldb w') /\ dn m' = dn m
    /\ msg_values SYSDB_NAME m' = msg_values SYSDB_NAME m
    /\ msg_values SYSDB_OBJECTCLASS m' = msg_values SYSDB_OBJECTCLASS m
    /\ msg_values SYSDB_CREATE_TIME m' = msg_values SYSDB_CREATE_TIME m
    /\ msg_values SYSDB_SVC_PORT m' = [fmt_decimal (to_ulong port)]
    /\ msg_values SYSDB_SVC_PROTO m' = pr
    /\ msg_values SYSDB_NAME_ALIAS m'
       = match al with
         | [] => msg_values SYSDB_NAME_ALIAS m
         | _ => al
         end
    /\ msg_values SYSDB_LAST_UPDATE m' = [fmt_decimal now]
    /\ msg_values SYSDB_CACHE_EXPIRE m' = [fmt_decimal (cache_expire ct now)].
Proof.
  intros F Inv Im Nm Sole E.
  destruct (store_service_stages _ _ _ _ _ _ _ _ E)
    as (w1 & w2 & w3 & w4 & update_dn & d & S & P & A & T & C).
  destruct (transaction_start_cases _ _ _ S) as
    [(e & R & _) | (_ & L1 & _ & F1)]; [discriminate |].
  specialize (F1 F); rewrite <- L1 in Inv, Im, Sole.
  revert P; unfold store_passes, bind.
  destruct (store_port_pass pn port w1) as [wp [[] | e]] eqn:Pp;
    [| discriminate].
  intros Pn.
  assert (Fp : faults wp = [])
    by (apply (framed_port_pass pn port _ _ _ Pp); exact F1).
  destruct (port_pass_shrinks _ _ _ _ _ Pp) as [g Lg].
  assert (Invp : cache_invariant (ldb wp))
    by (rewrite Lg; apply cache_invariant_filter; exact Inv).
  pose proof (port_pass_keeps_owner m pn port _ _ _ Pp Inv Im Nm) as Ip.
  destruct Invp as (Np & Vp & _).
  destruct (name_pass_sole m pn wp w2 update_dn Fp Np Ip Nm (Vp m Ip))
    as [I2 ->]; [| exact Pn |].
  { intros x Ix; apply Sole; rewrite Lg in Ix; apply filter_In in Ix.
    apply Ix. }
  simpl in A; unfold bind in A.
  destruct (sysdb_svc_update (dn m) port al pr w2) as [w3' [[] | e]] eqn:Up;
    inversion A; subst w3' d.
  destruct (svc_update_step _ _ _ _ _ _ Up) as (S3 & _).
  destruct (step_forward _ _ _ _ m S3 I2 eq_refl) as (m3 & I3 & D3 & V3).
  destruct (timestamps_step _ _ _ _ _ T) as (S4 & _).
  destruct (step_forward _ _ _ _ m3 S4 I3 D3) as (m4 & I4 & D4 & V4).
  exists m4; rewrite (commit_keeps_entries _ _ _ C).
  split; [exact I4 | split; [exact D4 |]].
  rewrite !V4, !V3; simpl; repeat split.
Qed.

Lemma passes_sole (m : ldb_message) (pn : string) (port : Z)
  (w w' : sysdb_ctx) (update_dn : option ldb_dn) :
  faults w = [] -> cache_invariant (ldb w) ->
  In m (ldb w) -> find_name m = Some pn ->
  (forall x, In x (ldb w) -> find_name x = Some pn -> x = m) ->
  store_passes pn port w = (w', Ok update_dn) ->
  In m (ldb w') /\ update_dn = Some (dn m).
Proof.
  intros F Inv Im Nm Sole; unfold store_passes, bind.
  destruct (store_port_pass pn port w) as [wp [[] | e]] eqn:Pp;
    [| discriminate].
  intros Pn.
  assert (Fp : faults wp = [])
    by (apply (framed_port_pass pn port _ _ _ Pp); exact F).
  destruct (port_pass_shrinks _ _ _ _ _ Pp) as [g Lg].
  assert (Invp : cache_invariant (ldb wp))
    by (rewrite Lg; apply cache_invariant_filter; exact Inv).
  pose proof (port_pass_keeps_owner m pn port _ _ _ Pp Inv Im Nm) as Ip.
  destruct Invp as (Np & Vp & _).
  apply (name_pass_sole m pn wp w' update_dn Fp Np Ip Nm (Vp m Ip));
    [| exact Pn].
  intros x Ix; apply Sole; rewrite Lg in Ix; apply filter_In in Ix.
  apply Ix.
Qed.

(** X12.  The refresh of a service the cache knows needs a protocol.
    The collaborators not failing, the cache in order and one entry
    only named [pn], a write of [pn] with an empty list of protocols
    never returns [EOK]: the update it comes to is refused by the guard
    of [sysdb_svc_update], the transaction is cancelled, and the
    entries and the open transactions are those of before. *)
Theorem store_refresh_needs_protocol (pn : string) (port : Z)
  (al : list string) (ct now : Z) (w : sysdb_ctx) (m : ldb_message) :
  faults w = [] -> cache_invariant (ldb w) ->
  In m (ldb w) -> find_name m = Some pn ->
  (forall x, In x (ldb w) -> find_name x = Some pn -> x = m) ->
  let after := sysdb_store_service pn port al [] ct now w in
  snd after <> Ok tt
  /\ ldb (fst after) = ldb w /\ txn (fst after) = txn w.
Proof.
  intros F Inv Im Nm Sole after; subst after.
  unfold sysdb_store_service.
  rewrite transaction_start_quiet by exact F.
  set (w1 := log_call TRANSACTION_START EOK (set_txn (ldb w :: txn w) w)).
  destruct (store_steps pn port al [] ct now w1) as [w2 [[] | e2]] eqn:B.
  - exfalso; revert B; unfold store_steps, bind.
    destruct (store_passes pn port w1) as [wp [update_dn | e]] eqn:P;
      [| discriminate].
    destruct (passes_sole m pn port w1 wp update_dn F Inv Im Nm Sole P)
      as [_ ->].
    simpl; discriminate.
  - destruct (framed_steps pn port al [] ct now w1 _ _ B) as (T2 & _ & _ & F2).
    unfold done.
    rewrite (transaction_cancel_quiet w2 (ldb w) (txn w))
      by (auto; rewrite T2; reflexivity).
    simpl; repeat split; discriminate.
Qed.

(** ** Trimming an alias *)

(** X18.  [sysdb_svc_remove_alias] changes nothing when it fails.  When
    it succeeds, the identifier has an entry, every entry of the
    identifier did list the alias and is there without it, its other
    aliases in their order and its other attributes as they were, and
    every other entry is there unchanged. *)
Theorem svc_remove_alias_result (d : ldb_dn) (alias : string)
  (w w' : sysdb_ctx) (r : result unit) :
  sysdb_svc_remove_alias d alias w = (w', r) ->
  match r with
  | Fail _ => ldb w' = ldb w
  | Ok _ =>
      (exists m, In m (ldb w) /\ dn m = d)
      /\ forall m, In m (ldb w) ->
           if dn_eqb d m
           then In alias (msg_values SYSDB_NAME_ALIAS m)
                /\ exists m',
                     In m' (ldb w') /\ dn m' = d
                     /\ msg_values SYSDB_NAME_ALIAS m'
                        = filter (fun o => negb (String.eqb o alias))
                            (msg_values SYSDB_NAME_ALIAS m)
                     /\ forall a, a <> SYSDB_NAME_ALIAS ->
                                  msg_values a m' = msg_values a m
           else In m (ldb w')
  end.
Proof.
  intros E; destruct r as [[] | e].
  - destruct (remove_alias_step _ _ _ _ E) as (S & X & _).
    split; [apply dn_present; exact X |].
    intros m I; destruct (dn_eqb d m) eqn:Dm.
    + unfold dn_eqb in Dm; apply String.eqb_eq in Dm.
      destruct (step_forward _ _ _ _ m S I Dm) as (m' & I' & D' & V).
      split.
      * unfold sysdb_svc_remove_alias in E.
        destruct (modify_cases _ _ _ _ E) as [(_ & Md & _) | (e & R & _)];
          [| discriminate].
        destruct (modify_entries_forward _ _ _ _ m Md I) as (x & _ & _ & A).
        cbn [dn elements add_string ldb_msg_new ldb_msg_add_empty
             ldb_msg_add_string el_add_value app] in A.
        unfold dn_eqb in A; rewrite Dm, String.eqb_refl in A.
        simpl in A; unfold apply_mod in A; simpl in A.
        apply mem_In; fold (msg_values SYSDB_NAME_ALIAS m) in A.
        destruct (mem alias (msg_values SYSDB_NAME_ALIAS m));
          [reflexivity | discriminate].
      * exists m'; split; [exact I' | split; [exact D' | split]].
        -- rewrite V; simpl; apply filter_ext; intros o.
           rewrite orb_false_r; reflexivity.
        -- intros a Na; rewrite V; destruct a; try reflexivity; congruence.
    + destruct S as [Fw _]; destruct (Fw m I) as (m' & I' & _ & R).
      rewrite Dm in R; subst; exact I'.
  - unfold sysdb_svc_remove_alias in E.
    destruct (modify_cases _ _ _ _ E) as [(R & _) | (e' & _ & L)];
      [discriminate | exact L].
Qed.

(** ** The aliases written *)

Lemma apply_aliases (pn : string) (port : Z) (al pr : list string)
  (update_dn : option ldb_dn) (w w' : sysdb_ctx) (d : ldb_dn) :
  store_apply pn port al pr update_dn w = (w', Ok d) ->
  (forall d0, update_dn = Some d0 -> tracked pn d0 (ldb w)) ->
  al <> [] ->
  exists m, In m (ldb w') /\ applied_entry pn port pr d m
            /\ msg_values SYSDB_NAME_ALIAS m = al.
Proof.
  destruct update_dn as [d0 |]; simpl.
  - unfold bind.
    destruct (sysdb_svc_update d0 port al pr w) as [w1 [[] | e]] eqn:U;
      [| discriminate].
    intros E T Na; inversion E; subst.
    destruct (svc_update_step _ _ _ _ _ _ U) as (S & X & _ & Ne).
    destruct (T d eq_refl) as [(m & I & D & N) | None].
    + destruct (step_forward _ _ _ _ m S I D) as (m' & I' & D' & V).
      exists m'; split; [exact I' |].
      unfold applied_entry, find_name, ldb_msg_find_attr_as_string in *.
      rewrite !V; simpl; destruct al; [congruence | auto].
    + exfalso; apply dn_present in X; destruct X as (m & I & D).
      exact (None m I D).
  - intros E _ _.
    destruct (svc_add_cases _ _ _ _ _ _ _ E) as (created & L & _).
    exists (svc_add_msg d pn port al pr created); split; [| split].
    + rewrite L; apply in_or_app; right; left; reflexivity.
    + apply svc_add_msg_applied.
    + apply (svc_add_msg_values d pn port al pr created).
Qed.

(** X19.  After a write that succeeds with aliases given, an entry
    named [pn] lists exactly these aliases, and a lookup of any of them
    that meets no failing collaborator returns it; the lookup may be
    narrowed to any of the protocols written. *)
Theorem store_then_lookup_by_alias (pn : string) (port : Z)
  (al pr : list string) (ct now : Z) (w w' : sysdb_ctx)
  (a : string) (proto : option string) :
  sysdb_store_service pn port al pr ct now w = (w', Ok tt) ->
  In a al -> faults w' = [] ->
  match proto with Some p => In p pr | None => True end ->
  exists res m,
    snd (sysdb_getservbyname a proto w') = Ok res
    /\ In m res /\ find_name m = Some pn
    /\ msg_values SYSDB_NAME_ALIAS m = al.
Proof.
  intros E Ia F Hp.
  destruct (store_service_stages _ _ _ _ _ _ _ _ E)
    as (w1 & w2 & w3 & w4 & update_dn & d & S & P & A & T & C).
  destruct (apply_aliases _ _ _ _ _ _ _ _ A) as (m3 & I3 & Ap & Va).
  { intros d0 ->; eapply passes_tracked; eauto. }
  { intros ->; destruct Ia. }
  destruct Ap as (D3 & N3 & _ & Vr).
  destruct (apply_applied _ _ _ _ _ _ _ _ A) as (Ne & _).
  { intros d0 ->; eapply passes_tracked; eauto. }
  destruct (timestamps_step _ _ _ _ _ T) as (S4 & _).
  destruct (step_forward _ _ _ _ m3 S4 I3 D3) as (m4 & I4 & D4 & V4).
  rewrite <- (commit_keeps_entries _ _ _ C) in I4.
  assert (N4 : find_name m4 = Some pn).
  { unfold find_name, ldb_msg_find_attr_as_string in *.
    rewrite V4; exact N3. }
  assert (A4 : msg_values SYSDB_NAME_ALIAS m4 = al)
    by (rewrite V4; exact Va).
  rewrite getservbyname_quiet by exact F.
  assert (Im : In m4 (filter (SYSDB_SVC_BYNAME_FILTER proto a a) (ldb w'))).
  { apply filter_In; split; [exact I4 |].
    unfold SYSDB_SVC_BYNAME_FILTER; rewrite proto_filter_given.
    - apply orb_true_iff; left; apply mem_In; rewrite A4; exact Ia.
    - rewrite V4; simpl; rewrite Vr; destruct proto; [exact Hp | exact Ne]. }
  exists (filter (SYSDB_SVC_BYNAME_FILTER proto a a) (ldb w')), m4.
  split; [| auto].
  rewrite found_nonempty; [reflexivity |].
  intros Nil; rewrite Nil in Im; destruct Im.
Qed.

(** ** Updating an entry *)

Lemma modify_entries_total (d : ldb_dn) (mods : list ldb_message_element)
  (db : list ldb_message) :
  (forall els, apply_mods mods els <> None) ->
  modify_entries d mods db <> None.
Proof.
  intros H; induction db as [| m rest IH]; simpl; [discriminate |].
  destruct (modify_entries d mods rest); [| congruence].
  destruct (dn_eqb d m); [| discriminate].
  specialize (H (elements m)).
  destruct (apply_mods mods (elements m)); [discriminate | congruence].
Qed.

(** X20.  [sysdb_svc_update] answers [EINVAL] to an empty list of
    protocols without calling a collaborator, and changes nothing when
    it fails.  When it succeeds, the identifier has an entry; every
    entry of the identifier is there with the port and the protocols
    given, with the aliases given when there are some and its own
    otherwise, and with its other attributes as they were; every other
    entry is there unchanged.  It succeeds whenever the collaborators
    do not fail, a protocol is given and the identifier has an entry. *)
Theorem svc_update_result (d : ldb_dn) (port : Z) (al pr : list string)
  (w : sysdb_ctx) :
  let after := sysdb_svc_update d port al pr w in
  (pr = [] -> after = (w, Fail EINVAL))
  /\ (forall e, snd after = Fail e -> ldb (fst after) = ldb w)
  /\ (snd after = Ok tt ->
      pr <> [] /\ (exists m, In m (ldb w) /\ dn m = d)
      /\ forall m, In m (ldb w) ->
           if dn_eqb d m
           then exists m',
                  In m' (ldb (fst after)) /\ dn m' = d
                  /\ msg_values SYSDB_SVC_PORT m'
                     = [fmt_decimal (to_ulong port)]
                  /\ msg_values SYSDB_SVC_PROTO m' = pr
                  /\ msg_values SYSDB_NAME_ALIAS m'
                     = match al with
                       | [] => msg_values SYSDB_NAME_ALIAS m
                       | _ => al
                       end
                  /\ forall a, a <> SYSDB_SVC_PORT -> a <> SYSDB_SVC_PROTO ->
                               a <> SYSDB_NAME_ALIAS ->
                               msg_values a m' = msg_values a m
           else In m (ldb (fst after)))
  /\ (faults w = [] -> pr <> [] -> (exists m, In m (ldb w) /\ dn m = d) ->
      snd after = Ok tt).
Proof.
  intros after; subst after; split; [| split; [| split]].
  - intros ->; reflexivity.
  - intros e.
    destruct (sysdb_svc_update d port al pr w) as [w' r] eqn:E; simpl.
    intros ->; revert E; unfold sysdb_svc_update.
    destruct pr; [intros E; inversion E; reflexivity |].
    intros E; destruct (modify_cases _ _ _ _ E) as [(R & _) | (e' & _ & L)];
      [discriminate | exact L].
  - destruct (sysdb_svc_update d port al pr w) as [w' r] eqn:E; simpl.
    intros ->.
    destruct (svc_update_step _ _ _ _ _ _ E) as (S & X & _ & Ne).
    split; [exact Ne | split; [apply dn_present; exact X |]].
    intros m I; destruct (dn_eqb d m) eqn:Dm.
    + unfold dn_eqb in Dm; apply String.eqb_eq in Dm.
      destruct (step_forward _ _ _ _ m S I Dm) as (m' & I' & D' & V).
      exists m'; rewrite !V; simpl; repeat split; auto.
      intros a N1 N2 N3; rewrite V; destruct a; try reflexivity; congruence.
    + destruct S as [Fw _]; destruct (Fw m I) as (m' & I' & _ & R).
      rewrite Dm in R; subst; exact I'.
  - intros F Ne X; apply dn_present in X.
    unfold sysdb_svc_update; destruct pr as [| p pr]; [congruence |].
    unfold ldb_modify; rewrite collaborator_quiet by exact F.
    rewrite svc_update_msg_elements; cbn [dn elements]; rewrite X.
    destruct (modify_entries _ _ (ldb w)) eqn:Md; [reflexivity |].
    exfalso; revert Md; apply modify_entries_total.
    intros els; destruct al; simpl; discriminate.
Qed.

(** ** The further theorems at work *)

Lemma cache_invariant_single (m : ldb_message) :
  msg_values SYSDB_SVC_PROTO m <> [] -> cache_invariant [m].
Proof.
  intros P; split; [| split].
  - repeat constructor; simpl; tauto.
  - intros x [<- | []]; exact P.
  - intros m1 m2 q [<- | []] [<- | []] _ _; reflexivity.
Qed.

Lemma svc_a_stored_in_order : cache_invariant (ldb svc_a_stored).
Proof.
  replace (ldb svc_a_stored) with [svc_a_alone] by (vm_compute; reflexivity).
  apply cache_invariant_single; vm_compute; discriminate.
Qed.

Lemma with_alias_in_order : cache_invariant (ldb with_alias).
Proof.
  replace (ldb with_alias) with [svc_a_entry] by (vm_compute; reflexivity).
  apply cache_invariant_single; vm_compute; discriminate.
Qed.

Lemma seeded_in_order : cache_invariant (ldb seeded).
Proof.
  split; [| split].
  - simpl; repeat constructor; simpl; [intros [H | []] | tauto].
    discriminate.
  - intros m [<- | [<- | []]]; vm_compute; discriminate.
  - intros m1 m2 q [<- | [<- | []]] [<- | [<- | []]] Q1 Q2;
      try reflexivity; exfalso;
      vm_compute in Q1, Q2; destruct Q1 as [Q1 | []], Q2 as [Q2 | []];
      rewrite <- Q1 in Q2; discriminate.
Qed.

Lemma port_unique_without_failure_witness :
  cache_invariant (ldb (fst svc_b_takes_port))
  /\ (forall m, In m (ldb (fst svc_b_takes_port)) -> claims_port 100 m ->
                find_name m = Some "svc-b").
Proof.
  apply (port_unique_without_failure "svc-b" 100 [] ["tcp"] 3600 6000
           svc_a_stored (fst svc_b_takes_port)).
  - reflexivity.
  - exact svc_a_stored_in_order.
  - lia.
  - vm_compute; reflexivity.
Defined.

Lemma store_success_commits_witness :
  txn (fst ldap_stored) = txn empty_ctx
  /\ hd_error (trace (fst ldap_stored)) = Some (TRANSACTION_COMMIT, EOK).
Proof.
  apply (store_success_commits "ldap" 389 [] ["tcp"] 3600 5000
           empty_ctx (fst ldap_stored)).
  vm_compute; reflexivity.
Defined.

Lemma store_refuses_nonpositive_port_witness :
  let after :=
    sysdb_store_service "svc-z" 0 [] ["tcp"] 3600 6000 svc_a_stored in
  snd after <> Ok tt
  /\ snd after = Fail EINVAL
  /\ ldb (fst after) = ldb svc_a_stored
  /\ txn (fst after) = txn svc_a_stored.
Proof.
  intros after.
  destruct (store_refuses_nonpositive_port "svc-z" 0 [] ["tcp"]
              3600 6000 svc_a_stored) as [A B]; [lia |].
  split; [exact A | apply B; reflexivity].
Defined.

Lemma svc_delete_only_removes_witness :
  exists keep,
    ldb (fst (sysdb_svc_delete false (Some "svc-a") 0 None
                svc_a_stored))
    = filter keep (ldb svc_a_stored).
Proof.
  apply (svc_delete_only_removes false (Some "svc-a") 0 None
           svc_a_stored _
           (snd (sysdb_svc_delete false (Some "svc-a") 0 None
                   svc_a_stored))).
  - reflexivity.
  - apply surjective_pairing.
Defined.

Lemma svc_delete_failure_rolls_back_witness :
  let after :=
    sysdb_svc_delete false (Some "svc-a") 0 None delete_lookup_fails in
  ldb (fst after) = ldb delete_lookup_fails
  /\ txn (fst after) = txn delete_lookup_fails.
Proof.
  intros after.
  apply (svc_delete_failure_rolls_back false (Some "svc-a") 0 None
           delete_lookup_fails (fst after) EIO);
    vm_compute; reflexivity.
Defined.


Lemma delete_then_lookup_enoent_witness :
  snd (sysdb_getservbyname "svc-a" None
         (fst (sysdb_svc_delete false (Some "svc-a") 0 None
                 svc_a_stored)))
  = Fail ENOENT.
Proof.
  apply (delete_then_lookup_enoent false (Some "svc-a") 0 None
           svc_a_stored).
  - reflexivity.
  - discriminate.
  - apply svc_a_stored_in_order.
Defined.

Lemma svc_add_found_by_name_witness :
  SYSDB_TMPL_SVC "svc-c" "example.com"
  = SYSDB_TMPL_SVC "svc-c" (domain svc_a_stored)
  /\ exists res,
       snd (sysdb_getservbyname "c-alias" (Some "udp")
              (fst svc_c_added)) = Ok res
       /\ In (svc_add_msg (SYSDB_TMPL_SVC "svc-c" "example.com") "svc-c" 300
                ["c-alias"] ["tcp"; "udp"]
                (clock svc_a_stored)) res.
Proof.
  apply (svc_add_found_by_name "svc-c" 300 ["c-alias"]
           ["tcp"; "udp"] svc_a_stored (fst svc_c_added)
           (SYSDB_TMPL_SVC "svc-c" "example.com") "c-alias"
           (Some "udp")).
  - vm_compute; reflexivity.
  - reflexivity.
  - right; left; reflexivity.
  - right; left; reflexivity.
Defined.

Lemma svc_add_found_by_port_witness :
  exists res,
    snd (sysdb_getservbyport 300 None (fst svc_c_added)) = Ok res
    /\ In (svc_add_msg (SYSDB_TMPL_SVC "svc-c" "example.com") "svc-c" 300
             ["c-alias"] ["tcp"; "udp"]
             (clock svc_a_stored)) res.
Proof.
  apply (svc_add_found_by_port "svc-c" 300 ["c-alias"]
           ["tcp"; "udp"] svc_a_stored (fst svc_c_added)
           (SYSDB_TMPL_SVC "svc-c" "example.com") None).
  - vm_compute; reflexivity.
  - reflexivity.
  - lia.
  - exact I.
Defined.

Lemma store_keeps_unrelated_witness :
  In svc_a_alone (ldb (fst svc_b_beside)).
Proof.
  apply (store_keeps_unrelated "svc-b" 200 [] ["udp"] 3600 6000
           svc_a_stored (fst svc_b_beside) svc_a_alone).
  - apply svc_a_stored_in_order.
  - vm_compute; left; reflexivity.
  - vm_compute; reflexivity.
  - vm_compute; reflexivity.
  - vm_compute; reflexivity.
Defined.

Lemma store_refresh_needs_protocol_witness :
  let after := sysdb_store_service "svc-a" 101 [] [] 3600 6000 with_alias in
  snd after <> Ok tt
  /\ ldb (fst after) = ldb with_alias /\ txn (fst after) = txn with_alias.
Proof.
  apply (store_refresh_needs_protocol "svc-a" 101 [] 3600 6000 with_alias
           svc_a_entry).
  - reflexivity.
  - exact with_alias_in_order.
  - vm_compute; left; reflexivity.
  - vm_compute; reflexivity.
  - intros x Ix _.
    replace (ldb with_alias) with [svc_a_entry] in Ix
      by (vm_compute; reflexivity).
    destruct Ix as [<- | []]; reflexivity.
Defined.

Lemma store_then_lookup_by_port_witness :
  exists res m,
    snd (sysdb_getservbyport 200 (Some "udp") (fst svc_b_beside))
    = Ok res
    /\ In m res /\ find_name m = Some "svc-b"
    /\ msg_values SYSDB_SVC_PROTO m = ["udp"].
Proof.
  apply (store_then_lookup_by_port "svc-b" 200 [] ["udp"] 3600 6000
           svc_a_stored (fst svc_b_beside) (Some "udp")).
  - vm_compute; reflexivity.
  - lia.
  - reflexivity.
  - left; reflexivity.
Defined.

Lemma store_name_unique_witness :
  exists m,
    In m (ldb (fst svc_x_stored)) /\ find_name m = Some "svc-x"
    /\ forall m', In m' (ldb (fst svc_x_stored)) ->
                  find_name m' = Some "svc-x" -> m' = m.
Proof.
  apply (store_name_unique "svc-x" 702 [] ["tcp"] 3600 6000 seeded
           (fst svc_x_stored)).
  - reflexivity.
  - exact seeded_in_order.
  - vm_compute; reflexivity.
Defined.

Lemma store_adds_unknown_service_witness :
  snd svc_b_beside = Ok tt
  /\ ldb (fst svc_b_beside)
     = ldb svc_a_stored
       ++ [stamped 3600 6000
             (svc_add_msg (SYSDB_TMPL_SVC "svc-b" (domain svc_a_stored))
                "svc-b" 200 [] ["udp"] (clock svc_a_stored))].
Proof.
  destruct (store_adds_unknown_service "svc-b" 200 [] ["udp"]
              3600 6000 svc_a_stored) as (A & B & _).
  - reflexivity.
  - lia.
  - discriminate.
  - vm_compute; reflexivity.
  - vm_compute; reflexivity.
  - vm_compute; reflexivity.
  - split; [exact A | exact B].
Defined.

Lemma store_then_delete_restores_witness :
  let after :=
    sysdb_svc_delete false (Some "svc-b") 0 None (fst svc_b_beside) in
  snd after = Ok tt /\ ldb (fst after) = ldb svc_a_stored.
Proof.
  apply (store_then_delete_restores false "svc-b" 200 0 [] ["udp"]
           3600 6000 svc_a_stored).
  - reflexivity.
  - lia.
  - discriminate.
  - apply svc_a_stored_in_order.
  - vm_compute; reflexivity.
  - vm_compute; reflexivity.
  - vm_compute; reflexivity.
Defined.

Lemma store_refreshes_known_service_witness :
  exists m',
    In m' (ldb (fst svc_a_updated)) /\ dn m' = dn svc_a_entry
    /\ msg_values SYSDB_NAME m' = msg_values SYSDB_NAME svc_a_entry
    /\ msg_values SYSDB_OBJECTCLASS m'
       = msg_values SYSDB_OBJECTCLASS svc_a_entry
    /\ msg_values SYSDB_CREATE_TIME m'
       = msg_values SYSDB_CREATE_TIME svc_a_entry
    /\ msg_values SYSDB_SVC_PORT m' = [fmt_decimal (to_ulong 101)]
    /\ msg_values SYSDB_SVC_PROTO m' = ["udp"]
    /\ msg_values SYSDB_NAME_ALIAS m' = ["bar"]
    /\ msg_values SYSDB_LAST_UPDATE m' = [fmt_decimal 6000]
    /\ msg_values SYSDB_CACHE_EXPIRE m'
       = [fmt_decimal (cache_expire 3600 6000)].
Proof.
  apply (store_refreshes_known_service "svc-a" 101 ["bar"]
           ["udp"] 3600 6000 with_alias (fst svc_a_updated)
           svc_a_entry).
  - reflexivity.
  - exact with_alias_in_order.
  - vm_compute; left; reflexivity.
  - vm_compute; reflexivity.
  - intros x Ix _.
    replace (ldb with_alias) with [svc_a_entry] in Ix
      by (vm_compute; reflexivity).
    destruct Ix as [<- | []]; reflexivity.
  - vm_compute; reflexivity.
Defined.

Lemma svc_remove_alias_result_witness :
  exists m, In m (ldb with_alias) /\ dn m = dn svc_a_entry.
Proof.
  apply (svc_remove_alias_result (dn svc_a_entry) "foo" with_alias
           (fst alias_trimmed) (Ok tt)).
  vm_compute; reflexivity.
Defined.

Lemma store_then_lookup_by_alias_witness :
  exists res m,
    snd (sysdb_getservbyname "bar" (Some "udp") (fst svc_a_updated))
    = Ok res
    /\ In m res /\ find_name m = Some "svc-a"
    /\ msg_values SYSDB_NAME_ALIAS m = ["bar"].
Proof.
  apply (store_then_lookup_by_alias "svc-a" 101 ["bar"]
           ["udp"] 3600 6000 with_alias (fst svc_a_updated) "bar"
           (Some "udp")).
  - vm_compute; reflexivity.
  - left; reflexivity.
  - reflexivity.
  - left; reflexivity.
Defined.
